(** * digital_librarian: metadata extraction and citation keys

    A shallow embedding of [backend/parse_pdfs.py] and of
    [backend/make_bibtex.py], with the properties of the design document
    checked against it and further properties of the code.

    Conventions of the embedding.
    - A Python [str] is a list of Unicode code points ([N]).  Whitespace
      ([str.isspace], [\s]) and line boundaries ([str.splitlines]) are
      Python's.  Decimal digits ([\d], [str.isdigit]), word characters ([\w],
      [\b]) and the case mappings ([str.lower], [str.upper], [re.IGNORECASE])
      are Python's on code points below 128; a code point from 128 on is in
      none of these classes and is left unchanged by the case mappings.
    - [int] is [Z]; [None] is [None]; an exception is a value of type [exn].
    - [CURRENT_YEAR] (read from the clock at import time) is a parameter
      [cy] of the functions that depend on it.
    - What the two collaborators return (the header service, the PDF text
      reader) is data handed to the pipeline: see [Tei] and [pdf_read]. *)

From Stdlib Require Import ZArith NArith List Lia Bool Ascii String DecimalString Sorted.
From stdpp Require Import base option list gmap.

Import ListNotations.
Local Open Scope N_scope.

(* ===================================================================== *)
(** * Python strings *)
(* ===================================================================== *)

Module PyStr.

Definition str := list N.

(** An ASCII literal as a [str]. *)
Definition py (s : string) : str :=
  map N_of_ascii (list_ascii_of_string s).
Arguments py s%_string.

(** [str.isspace] and the class [\s]. *)
Definition is_space (c : N) : bool :=
  ((9 <=? c) && (c <=? 13)) || ((28 <=? c) && (c <=? 32))
  || (c =? 133) || (c =? 160) || (c =? 5760)
  || ((8192 <=? c) && (c <=? 8202))
  || (c =? 8232) || (c =? 8233) || (c =? 8239) || (c =? 8287) || (c =? 12288).

Definition not_space (c : N) : Prop := is_space c = false.

(** [\d]. *)
Definition is_digit (c : N) : bool := (48 <=? c) && (c <=? 57).

Definition is_upper_az (c : N) : bool := (65 <=? c) && (c <=? 90).
Definition is_lower_az (c : N) : bool := (97 <=? c) && (c <=? 122).

(** [[A-Za-z]]. *)
Definition is_letter (c : N) : bool := is_upper_az c || is_lower_az c.

(** [\w]. *)
Definition is_word (c : N) : bool := is_letter c || is_digit c || (c =? 95).

Definition lower_cp (c : N) : N := if is_upper_az c then c + 32 else c.
Definition upper_cp (c : N) : N := if is_lower_az c then c - 32 else c.

(** [s.lower()], [s.upper()]. *)
Definition lower (s : str) : str := map lower_cp s.
Definition upper (s : str) : str := map upper_cp s.

Definition str_eqb (a b : str) : bool := bool_decide (a = b).

(** [s.startswith(p)]. *)
Fixpoint startswith (s p : str) : bool :=
  match p, s with
  | [], _ => true
  | _ :: _, [] => false
  | a :: p', c :: s' => (a =? c) && startswith s' p'
  end.

(** [p in s]. *)
Fixpoint contains (s p : str) : bool :=
  startswith s p || match s with [] => false | _ :: s' => contains s' p end.

(** [s.endswith(p)]. *)
Definition endswith (s p : str) : bool := startswith (rev s) (rev p).

(** [s.find(p)]: the least index at which [p] occurs, or -1. *)
Fixpoint find_from (i : Z) (s p : str) : Z :=
  if startswith s p then i
  else match s with [] => (-1)%Z | _ :: s' => find_from (i + 1)%Z s' p end.
Definition find (s p : str) : Z := find_from 0%Z s p.

(** [s.count(c)] for a one-character [c]. *)
Definition count_char (c : N) (s : str) : nat :=
  length (List.filter (N.eqb c) s).

Fixpoint lstrip_by (p : N → bool) (s : str) : str :=
  match s with
  | [] => []
  | c :: s' => if p c then lstrip_by p s' else s
  end.

Fixpoint rstrip_by (p : N → bool) (s : str) : str :=
  match s with
  | [] => []
  | c :: s' =>
      match rstrip_by p s' with
      | [] => if p c then [] else [c]
      | r => c :: r
      end
  end.

Definition strip_by (p : N → bool) (s : str) : str :=
  rstrip_by p (lstrip_by p s).

(** [s.strip()]. *)
Definition strip (s : str) : str := strip_by is_space s.

(** [s.strip(chars)]. *)
Definition strip_chars (chars s : str) : str :=
  strip_by (fun c => existsb (N.eqb c) chars) s.

(** [s.split()]: the maximal runs of non-whitespace. *)
Fixpoint split_ws (s : str) : list str :=
  match s with
  | [] => []
  | c :: s' =>
      if is_space c then split_ws s'
      else match s' with
           | [] => [[c]]
           | d :: _ =>
               if is_space d then [c] :: split_ws s'
               else match split_ws s' with
                    | w :: ws => (c :: w) :: ws
                    | [] => [[c]]
                    end
           end
  end.

(** [sep.join(parts)]. *)
Fixpoint join (sep : str) (parts : list str) : str :=
  match parts with
  | [] => []
  | [p] => p
  | p :: rest => p ++ sep ++ join sep rest
  end.

(** The text before and after the first occurrence of [sep] (non-empty),
    if there is one: [s.partition(sep)]. *)
Fixpoint cut (sep : str) (s : str) : option (str * str) :=
  if startswith s sep then Some ([], drop (length sep) s)
  else match s with
       | [] => None
       | c :: s' =>
           match cut sep s' with
           | Some (a, b) => Some (c :: a, b)
           | None => None
           end
       end.

(** [s.split(sep, 1)[0]] and [s.split(sep, 1)[-1]]. *)
Definition split1_first (sep s : str) : str :=
  match cut sep s with Some (a, _) => a | None => s end.
Definition split1_last (sep s : str) : str :=
  match cut sep s with Some (_, b) => b | None => s end.

(** The line boundaries of [str.splitlines]. *)
Definition is_linebreak (c : N) : bool :=
  ((10 <=? c) && (c <=? 13)) || ((28 <=? c) && (c <=? 30))
  || (c =? 133) || (c =? 8232) || (c =? 8233).

(** [cur] is the line being read, last character first; [after_cr] tells
    that the previous character was a carriage return, whose line feed, if it
    comes next, belongs to the same boundary. *)
Fixpoint splitlines_go (cur : str) (after_cr : bool) (s : str) : list str :=
  match s with
  | [] => match cur with [] => [] | _ => [rev cur] end
  | c :: s' =>
      if after_cr && (c =? 10) then splitlines_go [] false s'
      else if is_linebreak c then rev cur :: splitlines_go [] (c =? 13) s'
      else splitlines_go (c :: cur) false s'
  end.

(** [s.splitlines()]. *)
Definition splitlines (s : str) : list str := splitlines_go [] false s.

(** [s.isdigit()]. *)
Definition isdigit (s : str) : bool :=
  match s with [] => false | _ => forallb is_digit s end.

(** [int(s)] for a string of decimal digits. *)
Definition int_of_digits (s : str) : Z :=
  fold_left (fun acc c => (10 * acc + (Z.of_N c - 48))%Z) s 0%Z.

(** [str(n)] for an [int]. *)
Definition str_of_int (n : Z) : str :=
  py (NilZero.string_of_int (Z.to_int n)).

(** Truthiness of a string. *)
Definition nonempty (s : str) : bool :=
  match s with [] => false | _ => true end.

End PyStr.

(* ===================================================================== *)
(** * Regular expressions *)
(* ===================================================================== *)

(** The fragment of [re] the program uses, matched the way [re] does: by
    backtracking, alternatives left to right, repetition greedy. *)
Module Re.
Import PyStr.

Inductive re : Type :=
| Eps
| Cls (p : N → bool)
| Seq (r1 r2 : re)
| Alt (r1 r2 : re)
| Star (r : re)
| Bnd                       (* \b *)
| Bol.                      (* ^  *)

Definition word_at (o : option N) : bool :=
  match o with Some c => is_word c | None => false end.

Definition at_boundary (prev : option N) (s : str) : bool :=
  xorb (word_at prev) (word_at (head s)).

(** [run r k prev s]: match [r] at the front of [s], the character before
    being [prev], then continue with [k]; the result is what is left of the
    input after the whole match. *)
Fixpoint run (r : re) (k : option N → str → option str)
    (prev : option N) (s : str) {struct r} : option str :=
  match r with
  | Eps => k prev s
  | Cls p =>
      match s with
      | c :: s' => if p c then k (Some c) s' else None
      | [] => None
      end
  | Seq r1 r2 => run r1 (run r2 k) prev s
  | Alt r1 r2 =>
      match run r1 k prev s with
      | Some x => Some x
      | None => run r2 k prev s
      end
  | Star r1 =>
      (fix loop (n : nat) (prev : option N) (s : str) {struct n} : option str :=
         match n with
         | O => k prev s
         | S n' =>
             match run r1 (fun p' s' =>
                             if (length s' <? length s)%nat
                             then loop n' p' s' else None) prev s with
             | Some x => Some x
             | None => k prev s
             end
         end) (length s) prev s
  | Bnd => if at_boundary prev s then k prev s else None
  | Bol => match prev with None => k prev s | Some _ => None end
  end.

Definition chr (c : N) : re := Cls (N.eqb c).
Definition one_of (cs : str) : re := Cls (fun c => existsb (N.eqb c) cs).
Definition lit (s : str) : re := fold_right (fun c r => Seq (chr c) r) Eps s.
Definition opt (r : re) : re := Alt r Eps.
Definition plus (r : re) : re := Seq r (Star r).
Fixpoint rep (n : nat) (r : re) : re :=
  match n with O => Eps | S n' => Seq r (rep n' r) end.
(** [r{0,n}]. *)
Fixpoint upto (n : nat) (r : re) : re :=
  match n with O => Eps | S n' => opt (Seq r (upto n' r)) end.

Definition accept : option N → str → option str := fun _ rest => Some rest.

(** [re.match(r, s)]: what follows the match, if [r] matches at the start. *)
Definition match_start (r : re) (s : str) : option str := run r accept None s.

(** [re.search(r, s)]: the start of the leftmost match and what follows. *)
Fixpoint search_from (r : re) (prev : option N) (i : nat) (s : str)
    : option (nat * str) :=
  match run r accept prev s with
  | Some rest => Some (i, rest)
  | None =>
      match s with
      | c :: s' => search_from r (Some c) (S i) s'
      | [] => None
      end
  end.
Definition search (r : re) (s : str) : option (nat * str) :=
  search_from r None 0 s.

Definition found (r : re) (s : str) : bool := bool_decide (is_Some (search r s)).

End Re.

(* ===================================================================== *)
(** * backend/parse_pdfs.py *)
(* ===================================================================== *)

Module ParsePdfs.
Import PyStr Re.

Local Open Scope Z_scope.

(** ** Year helpers *)

(** [\b((?:19|20)\d{2})\b] *)
Definition year_re : re :=
  Seq Bnd (Seq (Alt (lit (py "19")) (lit (py "20")))
               (Seq (rep 2 (Cls is_digit)) Bnd)).

(** [re.findall(r, text)] for a pattern [r] that matches no empty string and
    has one group spanning the whole match: the leftmost matches, none
    overlapping another. *)
Fixpoint findall_go (fuel : nat) (r : re) (prev : option N) (s : str)
    : list str :=
  match fuel with
  | O => []
  | S fuel' =>
      match run r accept prev s, s with
      | Some rest, c :: s' =>
          match take (length s - length rest) s with
          | [] => findall_go fuel' r (Some c) s'
          | m => m :: findall_go fuel' r (last m) rest
          end
      | None, c :: s' => findall_go fuel' r (Some c) s'
      | _, [] => []
      end
  end.
Definition findall (r : re) (s : str) : list str :=
  findall_go (S (length s)) r None s.

Definition in_year_range (cy yi : Z) : bool :=
  (1950 <=? yi) && (yi <=? cy + 1).

Definition _year_candidates (cy : Z) (text : str) : list Z :=
  if nonempty text then
    List.filter (in_year_range cy) (map int_of_digits (findall year_re text))
  else [].

(** The sort key [(t[1], t[0])] of a pair [(year, score)], compared as Python
    compares tuples. *)
Definition key_ltb (a b : Z * Z) : bool :=
  (snd a <? snd b) || ((snd a =? snd b) && (fst a <? fst b)).

Fixpoint insert_desc (x : Z * Z) (l : list (Z * Z)) : list (Z * Z) :=
  match l with
  | [] => [x]
  | h :: t => if key_ltb x h then h :: insert_desc x t else x :: h :: t
  end.

(** [cands.sort(key=lambda t: (t[1], t[0]), reverse=True)]: a stable sort,
    greatest key first. *)
Definition sort_desc (cands : list (Z * Z)) : list (Z * Z) :=
  fold_right insert_desc [] cands.

(** [max(top)] for a non-empty list. *)
Definition list_max (y : Z) (ys : list Z) : Z := fold_left Z.max ys y.

Definition _pick_best_year_scored (cands : list (Z * Z)) : option Z :=
  match cands with
  | [] => None
  | _ :: _ =>
      match sort_desc cands with
      | [] => None
      | ((y0, best_score) :: _) as sorted =>
          let top :=
            map fst (List.filter (fun t => snd t =? best_score) sorted) in
          match top with
          | [] => Some y0
          | y :: ys => Some (list_max y ys)
          end
      end
  end.

Definition MONTHS : list str :=
  [ py "january"; py "february"; py "march"; py "april"; py "may";
    py "june"; py "july"; py "august"; py "september"; py "october";
    py "november"; py "december" ].

Definition _year_candidates_from_text (cy : Z) (s : str) : list Z :=
  _year_candidates cy s.

(** The copyright sign, U+00A9. *)
Definition copyright_sign : str := [169%N].

Definition _score_year_in_line (line : str) (y : Z) : Z :=
  let low := lower line in
  if contains low (py "downloaded by") then -999
  else if contains low (py "doi") && contains low (py "http") then 5
  else
    let score := 10 in
    let score :=
      fold_left
        (fun score m =>
           if contains low m && contains low (str_of_int y)
           then Z.max score 95 else score)
        MONTHS score in
    let score :=
      if (contains low (py "vol.") || contains low (py "volume")
          || contains low (py "no.") || contains low (py "issue"))
         && contains low (str_of_int y)
      then Z.max score 85 else score in
    let score :=
      if (contains low (py "copyright") || contains low copyright_sign)
         && contains low (str_of_int y)
      then Z.max score 80 else score in
    score.

(** ** The PDF text reader *)

(** An exception: [type(e).__name__] and [str(e)]. *)
Record exn : Type := Exn { exn_type : str; exn_msg : str }.

(** One page of a PDF: [extract_text()] raises, or returns [None] or a text. *)
Inductive page : Type :=
| PageRaises
| PageText (t : option str).

(** One use of [PdfReader] on a file: importing or opening raises, or the
    pages are there. *)
Definition pdf_read : Type := exn + list page.

(** The loop over [range(min(pages, len(reader.pages)))]: a page whose
    extraction raises is passed over, [None] counts as the empty text. *)
Definition page_texts (pages : nat) (ps : list page) : list str :=
  omap (fun p => match p with
                 | PageRaises => None
                 | PageText t => Some (default [] t)
                 end)
       (take pages ps).

Definition newline : str := [10%N].

(** The state [best] of the scoring loop: [(year, score)]. *)
Definition best_step (line : str) (best : Z * Z) (y : Z) : Z * Z :=
  let s := _score_year_in_line line y in
  if (s >? snd best) || ((s =? snd best) && (y >? fst best))
  then (y, s) else best.

Definition best_init : Z * Z := (0, - 10 ^ 9).

(** [fallback_year_from_pdf_first_pages], from the joined text on. *)
Definition fallback_year_from_text (cy : Z) (text : str) : option Z :=
  if nonempty (strip text) then
    let best :=
      fold_left
        (fun best line =>
           let line := strip line in
           if nonempty line
           then fold_left (best_step line)
                          (_year_candidates_from_text cy line) best
           else best)
        (splitlines text) best_init in
    if snd best >? 0 then Some (fst best) else None
  else None.

Definition fallback_year_from_pdf_first_pages
    (cy : Z) (r : pdf_read) (pages : nat) : exn + option Z :=
  match r with
  | inl e => inl e
  | inr ps => inr (fallback_year_from_text cy (join newline (page_texts pages ps)))
  end.

(** ** First-page fallback: noise lines and section labels *)

(** [re.sub(r"\s{2,}", " ", s)]: every maximal run of two or more whitespace
    characters becomes one space; [in_run] tells that such a run is being
    passed over. *)
Fixpoint collapse_ws (in_run : bool) (s : str) : str :=
  match s with
  | [] => []
  | c :: s' =>
      if is_space c then
        if in_run then collapse_ws true s'
        else match s' with
             | d :: _ =>
                 if is_space d then 32%N :: collapse_ws true s'
                 else c :: collapse_ws false s'
             | [] => [c]
             end
      else c :: collapse_ws false s'
  end.

Definition _norm_spaces (s : str) : str := strip (collapse_ws false s).

Definition seq_of (rs : list re) : re := fold_right Seq Eps rs.
Definition alt_of (r : re) (rs : list re) : re := fold_left Alt rs r.

Definition digit : re := Cls is_digit.
Definition space : re := Cls is_space.

(** [^(abstract|keywords?|key words)\b] *)
Definition section_start_re : re :=
  seq_of [ Bol;
           alt_of (lit (py "abstract"))
                  [ Seq (lit (py "keyword")) (opt (chr 115)); lit (py "key words") ];
           Bnd ].

(** [\b(abstract|keywords?)\b\s*[:,-]] *)
Definition section_inline_re : re :=
  seq_of [ Bnd;
           alt_of (lit (py "abstract"))
                  [ Seq (lit (py "keyword")) (opt (chr 115)) ];
           Bnd; Star space; one_of (py ":,-") ].

(** [\b\d{3}\s?\d{2}\b] *)
Definition postal_eu_re : re :=
  seq_of [ Bnd; rep 3 digit; opt space; rep 2 digit; Bnd ].

(** [\b\d{5}(?:-\d{4})?\b] *)
Definition postal_us_re : re :=
  seq_of [ Bnd; rep 5 digit; opt (Seq (chr 45) (rep 4 digit)); Bnd ].

(** [\b\d{1,5}\s+[A-Za-z]{2,}\b] *)
Definition street_re : re :=
  seq_of [ Bnd; digit; upto 4 digit; plus space;
           rep 2 (Cls is_letter); Star (Cls is_letter); Bnd ].

Definition AFFILIATION_KEYWORDS : list str :=
  [ py "university"; py "department"; py "faculty"; py "institute";
    py "laboratory"; py "centre"; py "center" ].

Definition COUNTRY_WORDS : list str :=
  [ py "republic"; py "usa"; py "u.s."; py "uk"; py "germany"; py "france";
    py "italy"; py "spain"; py "china"; py "japan"; py "canada";
    py "australia"; py "turkey";
    [116; 252; 114; 107; 105; 121; 101]%N;    (* "türkiye" *)
    py "poland" ].

(** [any(k in low for k in ks)]. *)
Definition contains_any (low : str) (ks : list str) : bool :=
  existsb (contains low) ks.

Definition comma : N := 44%N.
Definition at_sign : N := 64%N.

Definition _looks_like_noise_line (s : str) : bool :=
  let s := _norm_spaces s in
  let low := strip (lower s) in
  if negb (nonempty s) then true
  else if contains low (py "http") || contains low (py "doi") then true
  else if contains low (py "licensed under") || contains low (py "creativecommons") then true
  else if contains low (py "copyright") || contains low (py "rights reserved") then true
  else if contains low (py "proceedings") || contains low (py "edited by") then true
  else if contains low (py "peer reviewed") then true
  else if contains low (py "author:") then true
  else if startswith low (py "programming language")
          || startswith low (py "nature of problem") then true
  else if contains low (py "these authors contributed equally") then true
  else if bool_decide (is_Some (match_start section_start_re low)) then true
  else if found section_inline_re low && (find low (py "abstract") <? 30) then true
  else if contains s [at_sign] then true
  else if found postal_eu_re s || found postal_us_re s then true
  else if found street_re s && contains s [comma] then true
  else if (3 <=? count_char comma s)%nat && (8 <? length (split_ws s))%nat then true
  else if contains_any low AFFILIATION_KEYWORDS
          && (contains s [comma]
              && (found digit s || contains_any low COUNTRY_WORDS)) then true
  else false.

(** [re.escape(label)] names the characters of [label] themselves. *)
Definition _is_section_label_line (line label : str) : bool :=
  let low := strip (lower line) in
  if negb (nonempty low) then false
  else if bool_decide (is_Some (match_start (seq_of [Bol; lit label; Bnd]) low)) then true
  else
    match search (seq_of [Bnd; lit label; Bnd; Star space; one_of (py ":,-")]) low with
    | Some (start, _) => (start <? 30)%nat
    | None => false
    end.

(** [pdf_first_pages_text_lines], from the pages on. *)
Definition text_lines (text : str) : list str :=
  List.filter nonempty (map _norm_spaces (splitlines text)).

Definition pdf_first_pages_text_lines (r : pdf_read) (pages : nat)
    : exn + list str :=
  match r with
  | inl e => inl e
  | inr ps => inr (text_lines (join newline (page_texts pages ps)))
  end.

(** ** Title from the first page *)

(** [\.\s+in\s+] under [re.IGNORECASE] *)
Definition dot_in_re : re :=
  seq_of [ chr 46; plus space; one_of (py "iI"); one_of (py "nN"); plus space ].

Fixpoint extract_title_from_cite_as (lines : list str) : option str :=
  match lines with
  | [] => None
  | ln :: rest =>
      let low := lower ln in
      if negb (contains low (py "cite as:")) then extract_title_from_cite_as rest
      else
        let s := strip (split1_last (py ":") ln) in
        let s2 :=
          match search dot_in_re s with
          | Some (start, _) => strip (take start s)
          | None => s
          end in
        let s2 :=
          if contains s2 (py ".:") then strip (split1_last (py ".:") s2) else s2 in
        let s2 := strip_chars (py " .;-") s2 in
        if (4 <=? length (split_ws s2))%nat && negb (_looks_like_noise_line s2)
        then Some s2
        else extract_title_from_cite_as rest
  end.

Definition SERIES_HEADER : str := py "cfd with opensource software".

Definition _title_score (s : str) : Z :=
  let s := _norm_spaces s in
  if negb (nonempty s) then - 10 ^ 9
  else
    let low := lower s in
    if _looks_like_noise_line s then - 10 ^ 6
    else
      let n_words := length (split_ws s) in
      if (n_words <? 4)%nat then -1000
      else
        let score := 0 in
        let score := score + Z.of_nat (Nat.min (length s) 200) in
        let score := score + 20 * Z.of_nat (Nat.min n_words 20) in
        let letters := List.filter is_letter s in
        let score :=
          if nonempty letters && str_eqb (upper letters) letters
          then score - 200 else score in
        let score := if contains low SERIES_HEADER then score - 500 else score in
        let score := if contains s (py ":") then score + 30 else score in
        let score := if contains s (py "-") then score + 15 else score in
        score.

(** The pre-trim loop: [kept] counts the lines retained so far. *)
Fixpoint trim_top (kept : nat) (lines : list str) : list str :=
  match lines with
  | [] => []
  | ln :: rest =>
      let ln := _norm_spaces ln in
      if negb (nonempty ln) then trim_top kept rest
      else if _is_section_label_line ln (py "abstract")
              || _is_section_label_line ln (py "keywords")
              || _is_section_label_line ln (py "key words") then []
      else if (35 <=? S kept)%nat then [ln]
      else ln :: trim_top (S kept) rest
  end.

(** One candidate span [lines[i:i+span]] against the best so far. *)
Definition span_step (lines : list str) (i : nat)
    (best : option str * Z) (span : nat) : option str * Z :=
  if (length lines <? i + span)%nat then best
  else
    let chunk := _norm_spaces (join (py " ") (take span (drop i lines))) in
    let low := lower chunk in
    if contains_any low [ py "author:"; py "peer reviewed by:";
                          py "licensed under"; py "cite as:" ] then best
    else if _is_section_label_line chunk (py "abstract")
            || _is_section_label_line chunk (py "keywords") then best
    else
      let n_words := length (split_ws chunk) in
      if (n_words <? 4)%nat || (35 <? n_words)%nat then best
      else if (220 <? length chunk)%nat then best
      else
        let sc := _title_score chunk in
        if sc >? snd best then (Some chunk, sc) else best.

Definition extract_title_from_pdf_lines (lines : list str) : option str :=
  match extract_title_from_cite_as lines with
  | Some t => Some t
  | None =>
      let lines := trim_top 0 (take 80 lines) in
      match lines with
      | [] => None
      | _ :: _ =>
          let best :=
            fold_left
              (fun best i =>
                 match lines !! i with
                 | Some li =>
                     if _looks_like_noise_line li then best
                     else fold_left (span_step lines i) [1; 2; 3]%nat best
                 | None => best
                 end)
              (seq 0 (length lines)) (None, - 10 ^ 9) in
          fst best
      end
  end.

Definition _is_good_title (s : str) : bool :=
  let s := _norm_spaces s in
  if negb (nonempty s) then false
  else
    let low := lower s in
    if _looks_like_noise_line s then false
    else if contains low SERIES_HEADER then false
    else if _is_section_label_line s (py "abstract")
            || _is_section_label_line s (py "keywords")
            || _is_section_label_line s (py "key words") then false
    else if (3 <=? count_char comma s)%nat then false
    else if (35 <? length (split_ws s))%nat || (220 <? length s)%nat then false
    else true.

(** ** Authors from the first page *)

(** [re.sub(r"[^a-z\s\.\-']", " ", s)] *)
Definition person_char (c : N) : bool :=
  is_lower_az c || is_space c || existsb (N.eqb c) (py ".-'").

Definition _norm_person (s : str) : str :=
  let s := strip (lower s) in
  let s := map (fun c => if person_char c then c else 32%N) s in
  _norm_spaces s.

(** The lines that follow the first label line, if there is one. *)
Fixpoint after_label (label_low : str) (lines : list str) : option (list str) :=
  match lines with
  | [] => None
  | ln :: rest =>
      let l := strip (lower ln) in
      if startswith l label_low then Some rest
      else if str_eqb l (strip_chars (py ":") label_low) then Some rest
      else after_label label_low rest
  end.

Definition BLOCK_STOPPERS : list str :=
  [ py "peer reviewed by"; py "licensed under"; py "cite as:";
    py "cfd with opensource software" ].

(** The collecting loop; [n] is [len(out)]. *)
Fixpoint collect_block (n : nat) (lines : list str) : list str :=
  match lines with
  | [] => []
  | l :: rest =>
      let ln := strip l in
      let low := lower ln in
      if negb (nonempty ln) then []
      else if contains_any low BLOCK_STOPPERS then []
      else if endswith low (py ":") && (length low <? 40)%nat then []
      else if (12 <=? S n)%nat then [_norm_spaces ln]
      else _norm_spaces ln :: collect_block (S n) rest
  end.

Definition extract_block_after_label (lines : list str) (label : str)
    : list str :=
  match after_label (lower label) lines with
  | None => []
  | Some rest => collect_block 0 rest
  end.

(** The tests of the first loop of [filter_name_lines]. *)
Definition name_like (ln : str) : bool :=
  if _looks_like_noise_line ln then false
  else if found digit ln then false
  else if contains (lower ln) (py "university") then false
  else if contains ln [at_sign] then false
  else
    let toks := length (split_ws ln) in
    if negb ((1 <=? toks)%nat && (toks <=? 5)%nat) then false
    else if (length (List.filter is_letter ln) <? 4)%nat then false
    else true.

(** The de-duplication loops: [seen] is the set of keys met so far.  The loop
    of [filter_name_lines] has [k = _norm_person(n)] and passes over an
    empty [k]; the loop of [parse_title_authors_year_from_header_tei] has
    [k = a.lower()] and no such test. *)
Fixpoint dedup_by (key : str → str) (skip_empty : bool) (seen : gset str)
    (names : list str) : list str :=
  match names with
  | [] => []
  | n :: rest =>
      let k := key n in
      if (negb skip_empty || nonempty k) && bool_decide (k ∉ seen)
      then n :: dedup_by key skip_empty ({[ k ]} ∪ seen) rest
      else dedup_by key skip_empty seen rest
  end.

Definition filter_name_lines (lines : list str) : list str :=
  dedup_by _norm_person true ∅ (List.filter name_like lines).

(** [fallback_authors_from_pdf], from the first-page lines on. *)
Definition fallback_authors_from_lines (lines : list str) : option (list str) :=
  let author_block := extract_block_after_label lines (py "author:") in
  let authors := filter_name_lines author_block in
  match authors with
  | [] => None
  | _ :: _ =>
      let peer_block := extract_block_after_label lines (py "peer reviewed by:") in
      let peers : gset str :=
        list_to_set (map _norm_person (filter_name_lines peer_block)) in
      let cleaned :=
        List.filter (fun a => bool_decide (_norm_person a ∉ peers)) authors in
      match cleaned with
      | [] => Some authors
      | _ :: _ => Some cleaned
      end
  end.

Definition fallback_authors_from_pdf (r : pdf_read) : exn + option (list str) :=
  match pdf_first_pages_text_lines r 1 with
  | inl e => inl e
  | inr lines => inr (fallback_authors_from_lines lines)
  end.

(** ** The structured header *)

(** A [persName]: the text of each [forename] and of the first [surname]. *)
Record PersName : Type :=
  { forenames : list str; surname : option str }.

(** A [date]: its [when] attribute and its text. *)
Record DateEl : Type :=
  { date_when : option str; date_text : str }.

(** What [parse_title_authors_year_from_header_tei] reads off the parsed
    header, query by query; a text is ["".join(el.itertext())]. *)
Record Tei : Type :=
  { tei_title : option str;                 (* titleStmt//title, first *)
    tei_authors : list (option PersName);   (* analytic//author, its first persName *)
    tei_imprint_dates : list DateEl;        (* monogr//imprint//date *)
    tei_header_dates : list DateEl;         (* teiHeader//date *)
    tei_monogr : option str;                (* biblStruct//monogr, first *)
    tei_biblscopes : list str;              (* teiHeader//biblScope *)
    tei_meeting : option str;               (* teiHeader//meeting, first *)
    tei_header : option str }.              (* teiHeader *)

Definition _text (el : option str) : str :=
  match el with
  | None => []
  | Some t => strip (join (py " ") (split_ws t))
  end.

Definition NON_NAME_WORDS : list str :=
  [ py "university"; py "department"; py "republic"; py "rights";
    py "permission"; py "http"; py "www" ].

Definition _norm_name (s : str) : str :=
  let s := strip (collapse_ws false s) in
  if negb (nonempty s) then []
  else if contains_any (lower s) NON_NAME_WORDS then []
  else if found digit s then []
  else if (6 <? length (split_ws s))%nat then []
  else s.

(** The name of one [author] element, if it yields one. *)
Definition author_name (a : option PersName) : option str :=
  match a with
  | None => None
  | Some pers =>
      let fs := List.filter nonempty (map (fun x => _text (Some x)) (forenames pers)) in
      let sn := _text (surname pers) in
      let name := _norm_name (strip (join (py " ") (fs ++ [sn]))) in
      if nonempty name then Some name else None
  end.

(** The pairs one [date] adds to the pool. *)
Definition date_scores (cy : Z) (w_when w_text : Z) (d : DateEl) : list (Z * Z) :=
  let when := strip (default [] (date_when d)) in
  (if (4 <=? length when)%nat && isdigit (take 4 when)
   then [(int_of_digits (take 4 when), w_when)] else [])
  ++ map (fun y => (y, w_text)) (_year_candidates cy (_text (Some (date_text d)))).

(** The pairs a text scope adds to the pool. *)
Definition text_scores (cy : Z) (w : Z) (el : option str) : list (Z * Z) :=
  match el with
  | None => []
  | Some _ => map (fun y => (y, w)) (_year_candidates cy (_text el))
  end.

Definition header_year_pool (cy : Z) (t : Tei) : list (Z * Z) :=
  flat_map (date_scores cy 100 95) (tei_imprint_dates t)
  ++ flat_map (date_scores cy 90 85) (tei_header_dates t)
  ++ text_scores cy 75 (tei_monogr t)
  ++ flat_map (fun bs => text_scores cy 70 (Some bs)) (tei_biblscopes t)
  ++ text_scores cy 40 (tei_meeting t)
  ++ text_scores cy 20 (tei_header t).

Definition header_authors (t : Tei) : list str :=
  dedup_by lower false ∅ (omap author_name (tei_authors t)).

Definition parse_title_authors_year_from_header_tei (cy : Z) (t : Tei)
    : str * list str * option Z :=
  (_text (tei_title t), header_authors t,
   _pick_best_year_scored (header_year_pool cy t)).

(** ** Pipeline *)

Record DocumentRecord : Type :=
  { file_path : str;
    file_name : str;
    title : str;
    authors : list str;
    year : option Z;
    error : option str }.

Definition set_title (v : str) (r : DocumentRecord) : DocumentRecord :=
  {| file_path := file_path r; file_name := file_name r; title := v;
     authors := authors r; year := year r; error := error r |}.
Definition set_authors (v : list str) (r : DocumentRecord) : DocumentRecord :=
  {| file_path := file_path r; file_name := file_name r; title := title r;
     authors := v; year := year r; error := error r |}.
Definition set_year (v : option Z) (r : DocumentRecord) : DocumentRecord :=
  {| file_path := file_path r; file_name := file_name r; title := title r;
     authors := authors r; year := v; error := error r |}.
Definition set_error (v : str) (r : DocumentRecord) : DocumentRecord :=
  {| file_path := file_path r; file_name := file_name r; title := title r;
     authors := authors r; year := year r; error := Some v |}.

(** What the collaborators answer for one PDF: the header service (the
    request, then the parsing of its answer), and the three times the text
    reader is opened on the file. *)
Record pdf_io : Type :=
  { header_service : exn + Tei;
    read_for_year : pdf_read;
    read_for_title : pdf_read;
    read_for_authors : pdf_read }.

(** The body of the [try] block: a computation on the record [rec] that an
    exception ends at once, leaving [rec] as it is at that point. *)
Definition try_m (A : Type) : Type :=
  DocumentRecord → DocumentRecord * (exn + A).

#[local] Instance try_ret : MRet try_m := fun A a rec => (rec, inr a).
#[local] Instance try_bind : MBind try_m := fun A B f m rec =>
  match m rec with
  | (rec', inr a) => f a rec'
  | (rec', inl e) => (rec', inl e)
  end.

(** A call that may raise. *)
Definition call {A : Type} (x : exn + A) : try_m A := fun rec => (rec, x).
Definition get_rec : try_m DocumentRecord := fun rec => (rec, inr rec).
Definition update (f : DocumentRecord → DocumentRecord) : try_m unit :=
  fun rec => (f rec, inr tt).
Definition when_ (b : bool) (m : try_m unit) : try_m unit :=
  if b then m else mret tt.

Definition truthy_list {A : Type} (o : option (list A)) : bool :=
  match o with Some (_ :: _) => true | _ => false end.

Definition parse_pdf_body (cy : Z) (io : pdf_io) : try_m unit :=
  header_tei ← call (header_service io);
  let '(title_, authors_, year_) :=
    parse_title_authors_year_from_header_tei cy header_tei in
  update (set_title title_);;
  update (set_authors authors_);;
  update (set_year year_);;
  rec ← get_rec;
  when_ (bool_decide (year rec = None))
    (fy ← call (fallback_year_from_pdf_first_pages cy (read_for_year io) 2);
     when_ (bool_decide (fy ≠ None)) (update (set_year fy)));;
  lines1 ← call (pdf_first_pages_text_lines (read_for_title io) 1);
  let pdf_title := extract_title_from_pdf_lines lines1 in
  rec ← get_rec;
  when_ (nonempty (default [] pdf_title)
         && negb (_is_good_title (title rec))
         && _is_good_title (default [] pdf_title))
    (update (set_title (default [] pdf_title)));;
  pdf_authors ← call (fallback_authors_from_pdf (read_for_authors io));
  when_ (truthy_list pdf_authors)
    (update (set_authors (default [] pdf_authors))).

(** [os.path.basename]: what follows the last slash. *)
Definition basename (p : str) : str := rev (split1_first (py "/") (rev p)).

(** [f"{type(e).__name__}: {e}"] *)
Definition error_text (e : exn) : str := exn_type e ++ py ": " ++ exn_msg e.

Definition parse_pdf (cy : Z) (pdf_path : str) (io : pdf_io) : DocumentRecord :=
  let rec :=
    {| file_path := pdf_path; file_name := basename pdf_path; title := [];
       authors := []; year := None; error := None |} in
  match parse_pdf_body cy io rec with
  | (rec, inr _) => rec
  | (rec, inl e) => set_error (error_text e) rec
  end.

(** The batch of one root: [pdfs] is [find_pdfs(root)] with what the
    collaborators answer for each file. *)
Record RootResult : Type :=
  { root_path : str; pdf_count : nat; pdfs : list DocumentRecord }.

Definition process_root (cy : Z) (root : str) (pdfs : list (str * pdf_io))
    : RootResult :=
  let records := map (fun p => parse_pdf cy (fst p) (snd p)) pdfs in
  {| root_path := root; pdf_count := length pdfs; pdfs := records |}.

End ParsePdfs.

(* ===================================================================== *)
(** * backend/make_bibtex.py: the citation key *)
(* ===================================================================== *)

(** The key of a record depends on its title, authors and year only; the
    entry type and the rendered entry are built beside it, see
    [BibtexEntry]. *)
Module MakeBibtex.
Import PyStr Re.

Local Open Scope Z_scope.

(** The table [repl] of [_fold_ascii]. *)
Definition FOLD_TABLE : list (N * str) :=
  [ (228, py "a"); (196, py "a"); (246, py "o"); (214, py "o");
    (252, py "u"); (220, py "u");
    (223, py "ss");
    (231, py "c"); (199, py "c");
    (287, py "g"); (286, py "g");
    (305, py "i"); (304, py "i");
    (351, py "s"); (350, py "s");
    (233, py "e"); (232, py "e"); (234, py "e"); (235, py "e");
    (225, py "a"); (224, py "a"); (226, py "a"); (227, py "a");
    (243, py "o"); (242, py "o"); (244, py "o"); (245, py "o");
    (250, py "u"); (249, py "u"); (251, py "u");
    (241, py "n") ]%N.

(** [repl.get(ch, ch)] *)
Fixpoint table_get (t : list (N * str)) (ch : N) : str :=
  match t with
  | [] => [ch]
  | (k, v) :: t' => if (k =? ch)%N then v else table_get t' ch
  end.

Definition _fold_ascii (s : str) : str := flat_map (table_get FOLD_TABLE) s.

(** [[a-z0-9]] *)
Definition is_key_char (c : N) : bool := is_lower_az c || is_digit c.

Definition _normalize_key_token (s : str) : str :=
  List.filter is_key_char (lower (_fold_ascii s)).

Definition _STOPWORDS : list str :=
  [ py "a"; py "an"; py "and"; py "as"; py "at"; py "by"; py "for";
    py "from"; py "in"; py "into"; py "of"; py "on"; py "or"; py "the";
    py "to"; py "with"; py "without"; py "via"; py "using" ].

(** [re.split(r"\s+", s)]: [cur] is the piece being read, last character
    first; [in_sep] tells that a separator is being passed over. *)
Fixpoint re_split_ws_go (cur : str) (in_sep : bool) (s : str) : list str :=
  match s with
  | [] => [rev cur]
  | c :: s' =>
      if is_space c then
        if in_sep then re_split_ws_go [] true s'
        else rev cur :: re_split_ws_go [] true s'
      else re_split_ws_go (c :: cur) false s'
  end.
Definition re_split_ws (s : str) : list str := re_split_ws_go [] false s.

(** The loop of [_first_significant_title_word] over the pieces. *)
Fixpoint first_significant (ws : list str) : str :=
  match ws with
  | [] => py "work"
  | w :: rest =>
      let ww := List.filter is_word (lower (_fold_ascii w)) in
      if nonempty ww && negb (bool_decide (ww ∈ _STOPWORDS)) then ww
      else first_significant rest
  end.

Definition _first_significant_title_word (title : str) : str :=
  first_significant (re_split_ws (strip title)).

Definition _last_name_from_author (author : str) : str :=
  let a := strip author in
  if negb (nonempty a) then py "anon"
  else if contains a [44%N] then _normalize_key_token (split1_first [44%N] a)
  else
    let parts := re_split_ws a in
    _normalize_key_token (match parts with [] => a | _ => List.last parts [] end).

(** [x or d] on strings. *)
Definition or_else (x d : str) : str := if nonempty x then x else d.

(** The three components of the key, as [make_bibtex_record] names them. *)
Definition base_key (rec : ParsePdfs.DocumentRecord) : str :=
  let first_author := match ParsePdfs.authors rec with a :: _ => a | [] => [] end in
  or_else (_last_name_from_author first_author) (py "anon").

Definition y (rec : ParsePdfs.DocumentRecord) : str :=
  match ParsePdfs.year rec with
  | Some n => str_of_int n
  | None => py "nodate"
  end.

Definition w (rec : ParsePdfs.DocumentRecord) : str :=
  _first_significant_title_word (strip (ParsePdfs.title rec)).

(** The key before the uniqueness step. *)
Definition key_of (rec : ParsePdfs.DocumentRecord) : str :=
  let key := _normalize_key_token (base_key rec ++ y rec ++ w rec) in
  if negb (nonempty key) then py "ref" ++ y rec else key.

(** [make_bibtex_record]: the emitted [bibtex_key] and [used_keys] after the
    call. *)
Definition make_bibtex_record (rec : ParsePdfs.DocumentRecord)
    (used_keys : gmap str Z) : str * gmap str Z :=
  let key := key_of rec in
  let n := default 0 (used_keys !! key) in
  let used_keys := <[ key := n + 1 ]> used_keys in
  let key := if n >? 0 then key ++ str_of_int (n + 1) else key in
  (key, used_keys).

(** The loop of [process_root] over the records, one [used_keys] for all. *)
Fixpoint bib_records (records : list ParsePdfs.DocumentRecord)
    (used_keys : gmap str Z) : list str :=
  match records with
  | [] => []
  | rec :: rest =>
      let '(key, used_keys) := make_bibtex_record rec used_keys in
      key :: bib_records rest used_keys
  end.

Definition process_root (records : list ParsePdfs.DocumentRecord) : list str :=
  bib_records records ∅.

End MakeBibtex.

(* ===================================================================== *)
(** * make_bibtex.py: the entry *)
(* ===================================================================== *)

Module BibtexEntry.
Import PyStr Re.
Import MakeBibtex.

(** [_BIBTEX_ESC]: backslash, braces, percent, dollar, ampersand, hash,
    underscore, tilde, caret. *)
Definition _BIBTEX_ESC : list (N * str) :=
  [ (92, py "\\"); (123, py "\{"); (125, py "\}"); (37, py "\%");
    (36, py "\$"); (38, py "\&"); (35, py "\#"); (95, py "\_");
    (126, py "\~{}"); (94, py "\^{}") ]%N.

Definition bibtex_escape (s : str) : str :=
  if negb (nonempty s) then []
  else flat_map (table_get _BIBTEX_ESC) s.

Definition _bibtex_author_field (authors : list str) : str :=
  join (py " and ") (List.filter nonempty (map strip authors)).

(** [\b(tm|tp|tr)[-_]?\d{3,}\b] *)
Definition report_number_re : re :=
  ParsePdfs.seq_of
    [ Bnd; ParsePdfs.alt_of (lit (py "tm")) [lit (py "tp"); lit (py "tr")];
      opt (one_of (py "-_")); rep 3 ParsePdfs.digit; Star ParsePdfs.digit;
      Bnd ].

Definition guess_entry_type (title file_name : str) : str :=
  let t := _fold_ascii (lower title) in
  let fn := _fold_ascii (lower file_name) in
  if contains t (py "phd") || contains t (py "dissertation")
     || contains t (py "doctoral") then py "phdthesis"
  else if contains t (py "master") || contains t (py "msc")
          || contains t (py "m.sc") then py "mastersthesis"
  else if contains t (py "thesis") then py "phdthesis"
  else if contains t (py "proceedings") || contains t (py "conference")
          || contains t (py "symposium") || contains t (py "workshop")
       then py "inproceedings"
  else if contains t (py "technical report") || contains t (py "tech report")
          || contains t (py "nasa/tm") || contains t (py "nasa/tp")
       then py "techreport"
  else if found report_number_re fn || contains t (py "report")
       then py "techreport"
  else py "misc".

(** The order of Python on [str]: by code points, a proper prefix first. *)
Fixpoint str_ltb (a b : str) : bool :=
  match a, b with
  | _, [] => false
  | [], _ :: _ => true
  | x :: a', y :: b' => (x <? y)%N || ((x =? y)%N && str_ltb a' b')
  end.

Fixpoint insert_sorted (k : str) (l : list str) : list str :=
  match l with
  | [] => [k]
  | x :: l' => if str_ltb x k then x :: insert_sorted k l' else k :: l
  end.

(** [sorted(l)] *)
Definition sorted (l : list str) : list str := fold_right insert_sorted [] l.

Definition order_by_type : list (str * list str) :=
  [ (py "article",
      [py "author"; py "title"; py "journal"; py "year"; py "volume";
       py "number"; py "pages"; py "doi"; py "url"; py "note"]);
    (py "inproceedings",
      [py "author"; py "title"; py "booktitle"; py "year"; py "pages";
       py "doi"; py "url"; py "note"]);
    (py "techreport",
      [py "author"; py "title"; py "institution"; py "number"; py "year";
       py "doi"; py "url"; py "note"]);
    (py "phdthesis",
      [py "author"; py "title"; py "school"; py "year"; py "url"; py "note"]);
    (py "mastersthesis",
      [py "author"; py "title"; py "school"; py "year"; py "url"; py "note"]);
    (py "misc",
      [py "author"; py "title"; py "year"; py "howpublished"; py "url";
       py "note"]) ].

Fixpoint assoc (t : list (str * list str)) (k : str) : option (list str) :=
  match t with
  | [] => None
  | (k', v) :: t' => if str_eqb k' k then Some v else assoc t' k
  end.

(** [order_by_type.get(entry_type, order_by_type["misc"])] *)
Definition order_of (entry_type : str) : list str :=
  default (default [] (assoc order_by_type (py "misc")))
          (assoc order_by_type entry_type).

(** [fields.get(k, "").strip()] *)
Definition field_value (fields : gmap str str) (k : str) : str :=
  strip (default [] (fields !! k)).

(** The line of one field. *)
Definition field_line (k v : str) : str :=
  py "  " ++ k ++ py " = {" ++ bibtex_escape v ++ py "},".

(** The loop over the order of the type. *)
Fixpoint ordered_loop (fields : gmap str str) (order : list str)
    (lines : list str) (used : gset str) : list str * gset str :=
  match order with
  | [] => (lines, used)
  | k :: rest =>
      let v := field_value fields k in
      if nonempty v
      then ordered_loop fields rest (lines ++ [field_line k v]) (used ∪ {[ k ]})
      else ordered_loop fields rest lines used
  end.

(** The loop over the sorted keys. *)
Fixpoint extra_loop (fields : gmap str str) (keys : list str)
    (used : gset str) (lines : list str) : list str :=
  match keys with
  | [] => lines
  | k :: rest =>
      if bool_decide (k ∈ used) then extra_loop fields rest used lines
      else
        let v := field_value fields k in
        if nonempty v
        then extra_loop fields rest used (lines ++ [field_line k v])
        else extra_loop fields rest used lines
  end.

(** [sorted(fields.keys())]: the keys of a dict are distinct, so the result
    does not depend on the order in which the dict lists them. *)
Definition sorted_keys (fields : gmap str str) : list str :=
  sorted (map fst (map_to_list fields)).

(** The lines before the last comma is removed. *)
Definition entry_lines (entry_type key : str) (fields : gmap str str)
    : list str :=
  let lines := [py "@" ++ entry_type ++ py "{" ++ key ++ py ","] in
  let '(lines, used) := ordered_loop fields (order_of entry_type) lines ∅ in
  extra_loop fields (sorted_keys fields) used lines.

(** [lines[-1] = lines[-1][:-1]] under its guard. *)
Definition drop_last_comma (lines : list str) : list str :=
  if (1 <? length lines)%nat && endswith (List.last lines []) (py ",")
  then removelast lines ++ [removelast (List.last lines [])]
  else lines.

Definition format_bibtex (entry_type key : str) (fields : gmap str str) : str :=
  let lines := drop_last_comma (entry_lines entry_type key fields) in
  join [10%N] (lines ++ [py "}"]).

(** The dict [fields] of [make_bibtex_record]. *)
Definition record_fields (rec : ParsePdfs.DocumentRecord) (entry_type : str)
    : gmap str str :=
  let title := strip (ParsePdfs.title rec) in
  let file_name := strip (ParsePdfs.file_name rec) in
  let file_path := strip (ParsePdfs.file_path rec) in
  let fields : gmap str str := ∅ in
  let a_field := _bibtex_author_field (ParsePdfs.authors rec) in
  let fields := if nonempty a_field then <[ py "author" := a_field ]> fields
                else fields in
  let fields := if nonempty title then <[ py "title" := title ]> fields
                else fields in
  let fields := match ParsePdfs.year rec with
                | Some n => <[ py "year" := str_of_int n ]> fields
                | None => fields
                end in
  let fields :=
    <[ py "note" := if nonempty file_name then py "Local PDF: " ++ file_name
                    else py "Local PDF" ]> fields in
  let fields := if nonempty file_path then <[ py "file" := file_path ]> fields
                else fields in
  if str_eqb entry_type (py "misc") then
    match fields !! py "howpublished" with
    | Some _ => fields
    | None => <[ py "howpublished" := py "PDF" ]> fields
    end
  else fields.

(** What [make_bibtex_record] returns. *)
Record BibRecord := {
  file_path : str;
  file_name : str;
  title : str;
  authors : list str;
  year : option Z;
  bibtex_type : str;
  bibtex_key : str;
  bibtex : str
}.

Definition make_bibtex_record (rec : ParsePdfs.DocumentRecord)
    (used_keys : gmap str Z) : BibRecord * gmap str Z :=
  let title := strip (ParsePdfs.title rec) in
  let file_name := strip (ParsePdfs.file_name rec) in
  let file_path := strip (ParsePdfs.file_path rec) in
  let entry_type := guess_entry_type title file_name in
  let '(key, used_keys) := MakeBibtex.make_bibtex_record rec used_keys in
  let fields := record_fields rec entry_type in
  ({| file_path := file_path; file_name := file_name; title := title;
      authors := ParsePdfs.authors rec; year := ParsePdfs.year rec;
      bibtex_type := entry_type; bibtex_key := key;
      bibtex := format_bibtex entry_type key fields |}, used_keys).

(** The loop of [process_root] over the records. *)
Fixpoint bib_records (records : list ParsePdfs.DocumentRecord)
    (used_keys : gmap str Z) : list BibRecord :=
  match records with
  | [] => []
  | rec :: rest =>
      let '(b, used_keys) := make_bibtex_record rec used_keys in
      b :: bib_records rest used_keys
  end.

End BibtexEntry.

(* ===================================================================== *)
(** * The inputs of the two programs *)
(* ===================================================================== *)

(** [os.path] is the one of POSIX.  What [os.walk] yields and what
    [json.load] returns are data handed to the functions. *)
Module InputFiles.
Import PyStr ParsePdfs.

(** [os.path.join(a, b)] *)
Definition path_join (a b : str) : str :=
  if startswith b (py "/") then b
  else if negb (nonempty a) || endswith a (py "/") then a ++ b
  else a ++ py "/" ++ b.

(** [find_pdfs]: [walk] is what [os.walk(root)] yields, each directory path
    with the names of its files. *)
Definition find_pdfs (walk : list (str * list str)) : list str :=
  BibtexEntry.sorted
    (flat_map (fun w =>
                 map (path_join (fst w))
                     (List.filter (fun fn => endswith (lower fn) (py ".pdf"))
                                  (snd w)))
              walk).

(** A value of [json.load], as far as the type tests of the code tell values
    apart: a number is never read. *)
Local Set Warnings "-register-all".
Inductive json : Type :=
| JNull
| JBool (b : bool)
| JNum (n : Z)
| JStr (s : str)
| JList (l : list json)
| JDict (d : list (str * json)).

(** [d.get(k)] on the items of a dict. *)
Fixpoint dict_get (d : list (str * json)) (k : str) : option json :=
  match d with
  | [] => None
  | (k', v) :: d' => if str_eqb k' k then Some v else dict_get d' k
  end.

Definition value_error : exn :=
  Exn (py "ValueError")
      (py "input.json must be a JSON list of paths or {'paths':[...]}").

(** The list the two type tests select, if any. *)
Definition paths_of (data : json) : option (list json) :=
  match data with
  | JList l => Some l
  | JDict d =>
      match dict_get d (py "paths") with
      | Some (JList l) => Some l
      | _ => None
      end
  | _ => None
  end.

(** [load_input_paths]: [read] is what [read_json] does on the input file,
    [expanduser] is [os.path.expanduser]. *)
Definition load_input_paths (expanduser : str → str) (read : exn + json)
    : exn + list str :=
  match read with
  | inl e => inl e
  | inr data =>
      match paths_of data with
      | None => inl value_error
      | Some paths =>
          inr (omap (fun p =>
                       match p with
                       | JStr s => if nonempty (strip s)
                                   then Some (expanduser (strip s)) else None
                       | _ => None
                       end) paths)
      end
  end.

End InputFiles.

(* ===================================================================== *)
(** * Vocabulary of the properties *)
(* ===================================================================== *)

Import PyStr Re.

(** ** Year selection *)

Module YearSelection.
Import ParsePdfs.
Local Open Scope Z_scope.

(** [s] is the greatest score of the pool. *)
Definition top_score (pool : list (Z * Z)) (s : Z) : Prop :=
  (∃ y, In (y, s) pool) ∧ ∀ y' s', In (y', s') pool → s' ≤ s.

(** [y] is the greatest year among the pairs of the pool with the greatest
    score. *)
Definition newest_at_top (pool : list (Z * Z)) (y : Z) : Prop :=
  ∃ s, top_score pool s ∧ In (y, s) pool ∧ ∀ y', In (y', s) pool → y' ≤ y.

(** The order of the sort keys. *)
Definition key_le (a b : Z * Z) : Prop :=
  snd a < snd b ∨ (snd a = snd b ∧ fst a ≤ fst b).

(** The pool the raw-text path scores, in the order it meets the pairs. *)
Definition text_year_pool (cy : Z) (text : str) : list (Z * Z) :=
  flat_map (fun line => map (fun y => (y, _score_year_in_line line y))
                            (_year_candidates_from_text cy line))
           (List.filter nonempty (map strip (splitlines text))).

(** The scoring loop on a pool. *)
Definition best_of (pool : list (Z * Z)) (init : Z * Z) : Z * Z :=
  fold_left (fun best p =>
               if (snd p >? snd best) || ((snd p =? snd best) && (fst p >? fst best))
               then p else best) pool init.

End YearSelection.

(** ** The raw-text line scorer *)

Module LineScore.
Import ParsePdfs.
Local Open Scope Z_scope.

(** The markers the scorer looks for in the lower-cased line. *)
Definition downloaded_by (line : str) : bool :=
  contains (lower line) (py "downloaded by").
Definition doi_url (line : str) : bool :=
  contains (lower line) (py "doi") && contains (lower line) (py "http").
Definition has_year (line : str) (y : Z) : bool :=
  contains (lower line) (str_of_int y).
Definition month_with_year (line : str) (y : Z) : bool :=
  existsb (contains (lower line)) MONTHS && has_year line y.
Definition volume_with_year (line : str) (y : Z) : bool :=
  (contains (lower line) (py "vol.") || contains (lower line) (py "volume")
   || contains (lower line) (py "no.") || contains (lower line) (py "issue"))
  && has_year line y.
Definition copyright_with_year (line : str) (y : Z) : bool :=
  (contains (lower line) (py "copyright") || contains (lower line) copyright_sign)
  && has_year line y.

(** The score as the design document words it: the sentinel, the low score
    of a citation line, else the greatest boost that applies over the base. *)
Definition score_by_rules (line : str) (y : Z) : Z :=
  if downloaded_by line then -999
  else if doi_url line then 5
  else if month_with_year line y then 95
  else if volume_with_year line y then 85
  else if copyright_with_year line y then 80
  else 10.

End LineScore.

(** ** The noise classifier *)

Module NoiseRules.
Import ParsePdfs.

Definition has_email_marker (line : str) : bool := contains line [at_sign].
Definition has_comma (line : str) : bool := contains line [comma].
Definition has_digit (line : str) : bool := existsb is_digit line.
Definition many_commas_and_words (line : str) : bool :=
  (3 <=? count_char comma line)%nat && (8 <? length (split_ws line))%nat.
Definition has_affiliation_keyword (line : str) : bool :=
  contains_any (lower line) AFFILIATION_KEYWORDS.
Definition has_country_word (line : str) : bool :=
  contains_any (lower line) COUNTRY_WORDS.

(** A pattern that is not empty and has no whitespace. *)
Definition ws_free (k : str) : bool :=
  nonempty k && forallb (fun c => negb (is_space c)) k.

End NoiseRules.

(** ** Authors *)

Module AuthorRules.
Import ParsePdfs.

(** The names the name filter keeps of the "Author:" block. *)
Definition author_names (lines : list str) : list str :=
  filter_name_lines (extract_block_after_label lines (py "author:")).

(** The normalised names of the "Peer reviewed by:" block. *)
Definition peer_keys (lines : list str) : gset str :=
  list_to_set
    (map _norm_person
         (filter_name_lines (extract_block_after_label lines (py "peer reviewed by:")))).

Definition is_peer (lines : list str) (a : str) : Prop :=
  _norm_person a ∈ peer_keys lines.

(** A first page on which the only author is also named in the "Peer
    reviewed by:" block. *)
Definition page_author_is_peer : list str :=
  [ py "Combining a density-based model with a flow solver";
    py "Author:"; py "Jane Roe";
    py "Peer reviewed by:"; py "Jane Roe"; py "John Doe";
    py "Licensed under CC-BY-NC-SA" ].




End AuthorRules.

(** ** Pipeline *)

Module Pipeline.
Import ParsePdfs.

(** The record before the [try] block. *)
Definition rec_init (path : str) : DocumentRecord :=
  {| file_path := path; file_name := basename path; title := [];
     authors := []; year := None; error := None |}.

(** The record once the three header fields are stored. *)
Definition rec_header (cy : Z) (path : str) (tei : Tei) : DocumentRecord :=
  set_year (_pick_best_year_scored (header_year_pool cy tei))
    (set_authors (header_authors tei)
       (set_title (_text (tei_title tei)) (rec_init path))).

(** The year after the supplement step, or the exception of the reader. *)
Definition year_step (cy : Z) (tei : Tei) (io : pdf_io) : exn + option Z :=
  match _pick_best_year_scored (header_year_pool cy tei) with
  | Some y => inr (Some y)
  | None => fallback_year_from_pdf_first_pages cy (read_for_year io) 2
  end.

(** The title candidate of the first page, or the exception of the reader. *)
Definition title_candidate (io : pdf_io) : exn + option str :=
  match pdf_first_pages_text_lines (read_for_title io) 1 with
  | inl e => inl e
  | inr lines => inr (extract_title_from_pdf_lines lines)
  end.

Definition merged_title (st : str) (fb : option str) : str :=
  if nonempty (default [] fb) && negb (_is_good_title st)
     && _is_good_title (default [] fb)
  then default [] fb else st.

Definition merged_authors (sa : list str) (fa : option (list str)) : list str :=
  if truthy_list fa then default [] fa else sa.

(** A header whose imprint date carries the attribute [when="1800-01-01"]. *)
Definition date_1800 : DateEl :=
  {| date_when := Some (py "1800-01-01"); date_text := [] |}.

Definition header_1800 : Tei :=
  {| tei_title := Some (py "A treatise on flows");
     tei_authors := [];
     tei_imprint_dates := [date_1800];
     tei_header_dates := [date_1800];
     tei_monogr := Some [];
     tei_biblscopes := [];
     tei_meeting := None;
     tei_header := Some (py "A treatise on flows") |}.

Definition io_1800 : pdf_io :=
  {| header_service := inr header_1800;
     read_for_year := inr [PageText (Some (py "A treatise on flows"))];
     read_for_title := inr [PageText (Some (py "A treatise on flows"))];
     read_for_authors := inr [PageText (Some (py "A treatise on flows"))] |}.

End Pipeline.

(** A document whose header has no title, author or date, and whose first
    page carries a citation line and a copyright line. *)
Module Examples.
Import ParsePdfs.

Definition header_empty : Tei :=
  {| tei_title := Some [];
     tei_authors := [];
     tei_imprint_dates := [];
     tei_header_dates := [];
     tei_monogr := None;
     tei_biblscopes := [];
     tei_meeting := None;
     tei_header := Some [] |}.

Definition first_page_cite_as : str :=
  py "Cite as: Harvey, E.: Combining a density-based model. In Proceedings of ICCS"
  ++ newline ++ copyright_sign ++ py " 2021 IEEE".

Definition io_cite_as : pdf_io :=
  {| header_service := inr header_empty;
     read_for_year := inr [PageText (Some first_page_cite_as)];
     read_for_title := inr [PageText (Some first_page_cite_as)];
     read_for_authors := inr [PageText (Some first_page_cite_as)] |}.

Definition timeout : exn := Exn (py "TimeoutError") (py "timed out").

(** The same document when the header service times out, and when the file
    cannot be read any more once the year is found. *)
Definition io_timeout : pdf_io :=
  {| header_service := inl timeout;
     read_for_year := inr [PageText (Some first_page_cite_as)];
     read_for_title := inr [PageText (Some first_page_cite_as)];
     read_for_authors := inr [PageText (Some first_page_cite_as)] |}.


End Examples.

(** ** Citation keys *)

Module KeyExamples.
Import ParsePdfs.

Definition parsed (t : str) (a : list str) (yr : option Z) : DocumentRecord :=
  {| file_path := []; file_name := []; title := t; authors := a; year := yr;
     error := None |}.

(** Three papers of one author and year. *)
Definition rec_h_theorem : DocumentRecord :=
  parsed (py "H theorem revisited") [py "John Smith"] (Some 2020%Z).
Definition rec_h_infinity : DocumentRecord :=
  parsed (py "H infinity control of a pump") [py "Smith, John"] (Some 2020%Z).
Definition rec_h2 : DocumentRecord :=
  parsed (py "H2 production from biomass") [py "J. Smith"] (Some 2020%Z).

(** A record with no title, no author and no year. *)
Definition rec_blank : DocumentRecord := parsed [] [] None.

(** The key of the [i]-th record (from 0) among those of base key [b]. *)
Definition numbered (b : str) (i : nat) : str :=
  match i with
  | O => b
  | S _ => b ++ str_of_int (Z.of_nat i + 1)
  end.

End KeyExamples.


(** ** Normalised text *)

Module TextShape.
Import ParsePdfs.

(** No two whitespace characters side by side. *)
Fixpoint no_ws_run (s : str) : bool :=
  match s with
  | c :: (d :: _) as s' => negb (is_space c && is_space d) && no_ws_run s'
  | _ => true
  end.

(** The text is empty or starts with a character that is no whitespace. *)
Definition head_not_space_stmt (s : str) : Prop :=
  match s with [] => True | c :: _ => is_space c = false end.

(** A text as [_norm_spaces] leaves it: no whitespace at either end, no two
    whitespace characters side by side. *)
Definition spaces_normal (s : str) : Prop :=
  strip s = s ∧ no_ws_run s = true.

End TextShape.

(** ** Blocks and names *)

Module BlockShape.
Import ParsePdfs.

(** The test of [extract_block_after_label] for the label line. *)
Definition is_label_line (label_low ln : str) : bool :=
  startswith (strip (lower ln)) label_low
  || str_eqb (strip (lower ln)) (strip_chars (py ":") label_low).

End BlockShape.

(** ** Title candidates *)

Module TitleShape.
Import ParsePdfs TextShape.

(** What the span search accepts as a candidate. *)
Definition span_shape (t : str) : Prop :=
  (4 ≤ length (split_ws t) ≤ 35)%nat ∧ (length t ≤ 220)%nat ∧ spaces_normal t.

Definition has_cite_marker (ln : str) : bool :=
  contains (lower ln) (py "cite as:").

(** What the span loop keeps in [best]. *)
Definition best_shape_stmt (best : option str * Z) : Prop :=
  ∀ t, fst best = Some t → span_shape t.

End TitleShape.

(** ** Header texts *)

Module HeaderShape.
Import ParsePdfs TextShape.

(** A word: not empty, no whitespace. *)
Definition is_word_text (w : str) : Prop := w ≠ [] ∧ Forall not_space w.

(** What [_norm_name] lets through. *)
Definition name_shape (a : str) : Prop :=
  a ≠ [] ∧ spaces_normal a
  ∧ existsb is_digit a = false
  ∧ contains_any (lower a) NON_NAME_WORDS = false
  ∧ (length (split_ws a) ≤ 6)%nat.

End HeaderShape.

(** ** Header dates *)

Module HeaderYear.
Import ParsePdfs.




End HeaderYear.

(** ** Shape of the citation keys *)

Module KeyShape.
Import ParsePdfs MakeBibtex.
Local Open Scope Z_scope.

(** Only the characters a to z and 0 to 9. *)
Definition key_chars (s : str) : Prop := Forall (fun c => is_key_char c = true) s.

(** How many of the records have the base key [k]. *)
Definition same_key_count (k : str) (recs : list DocumentRecord) : Z :=
  Z.of_nat (length (List.filter (fun r => str_eqb (key_of r) k) recs)).

(** The key with its number: the first of a base key has none, the next
    ones have 2, 3, ... *)
Definition numbered_key (k : str) (earlier : Z) : str :=
  if earlier >? 0 then k ++ str_of_int (earlier + 1) else k.

End KeyShape.

(** ** Shape of the entries *)

Module EntryShape.
Import ParsePdfs MakeBibtex BibtexEntry.

(** The characters [bibtex_escape] rewrites. *)
Definition is_special (c : N) : bool := existsb (N.eqb c) (map fst _BIBTEX_ESC).

(** What [bibtex_escape] writes for one character. *)
Definition escape_char (c : N) : str := table_get _BIBTEX_ESC c.

(** The types [guess_entry_type] can answer. *)
Definition ENTRY_TYPES : list str :=
  [ py "phdthesis"; py "mastersthesis"; py "inproceedings"; py "techreport";
    py "misc" ].

(** The title as the guess reads it. *)
Definition title_low (title : str) : str := _fold_ascii (lower title).

(** A field is written when its value has a character that is no
    whitespace. *)
Definition rendered (fields : gmap str str) (k : str) : bool :=
  nonempty (field_value fields k).

(** The keys of the fields that are written, in the order of the lines. *)
Definition field_order (entry_type : str) (fields : gmap str str) : list str :=
  List.filter (rendered fields) (order_of entry_type)
  ++ List.filter (fun k => rendered fields k
                           && negb (bool_decide (k ∈ order_of entry_type)))
                 (sorted_keys fields).

(** The first line of an entry, and the line of a field without its comma. *)
Definition entry_head (entry_type key : str) : str :=
  py "@" ++ entry_type ++ py "{" ++ key ++ py ",".
Definition field_line_last (k v : str) : str :=
  py "  " ++ k ++ py " = {" ++ bibtex_escape v ++ py "}".

(** The order of Python on [str], not strict. *)
Definition str_le (a b : str) : Prop := str_ltb b a = false.

(** The fields [make_bibtex_record] can store. *)
Definition RECORD_FIELDS : list str :=
  [ py "author"; py "title"; py "year"; py "howpublished"; py "note";
    py "file" ].

(** A value as the entry writes it: not empty, no whitespace around it. *)
Definition clean_value (v : str) : Prop := v ≠ [] ∧ strip v = v.

End EntryShape.

(** ** Entries used as examples *)

Module EntryExamples.
Import ParsePdfs MakeBibtex BibtexEntry.

(** A title with whitespace around it and a field outside every order. *)
Definition fields_title_zeta : gmap str str :=
  <[ py "zeta" := py "z" ]> (<[ py "title" := py " Flow " ]> ∅).

(** A record as [parse_pdfs.py] writes it. *)
Definition rec_flow : DocumentRecord :=
  {| ParsePdfs.file_path := py "/library/a_b.pdf";
     ParsePdfs.file_name := py "a_b.pdf";
     ParsePdfs.title := py " On the 50% rule & more ";
     ParsePdfs.authors := [py "Jane Roe"; py "  "; py "Smith, John"];
     ParsePdfs.year := Some 2020%Z; ParsePdfs.error := None |}.

End EntryExamples.

(** ** Shape of the fields of a record *)

Module RecordShape.
Import ParsePdfs MakeBibtex BibtexEntry EntryShape.

(** Every field is one of the six, with a value written as it is. *)
Definition fields_clean (f : gmap str str) : Prop :=
  ∀ k v, f !! k = Some v → In k RECORD_FIELDS ∧ clean_value v.

(** The field is stored. *)
Definition present (f : gmap str str) (k : str) : bool :=
  bool_decide (is_Some (f !! k)).

Definition in_record_fields (k : str) : bool := bool_decide (k ∈ RECORD_FIELDS).

(** The line of a stored field. *)
Definition line_of (f : gmap str str) (k : str) : str :=
  field_line k (default [] (f !! k)).
Definition last_line_of (f : gmap str str) (k : str) : str :=
  field_line_last k (default [] (f !! k)).

End RecordShape.

(** ** The files of a root *)

Module FilesShape.
Import ParsePdfs InputFiles.

(** The name ends in ".pdf", in any case of the letters. *)
Definition is_pdf_name (fn : str) : bool := endswith (lower fn) (py ".pdf").

(** An entry of the input list that is kept: a string that is not blank. *)
Definition kept_path (p : json) : option str :=
  match p with
  | JStr s => if nonempty (strip s) then Some (strip s) else None
  | _ => None
  end.

(** What [os.walk] yields for a directory with three files. *)
Definition walk_library : list (str * list str) :=
  [ (py "/library", [py "b.PDF"; py "notes.txt"; py "a.pdf"]) ].

End FilesShape.

(* ===================================================================== *)
(** * Properties *)
(* ===================================================================== *)

Section YearSelectionFacts.
Import ParsePdfs YearSelection.
Local Open Scope Z_scope.

Lemma key_ltb_spec a b : key_ltb a b = true ↔ ¬ key_le b a.
Proof.
  unfold key_ltb, key_le. destruct a as [ya sa], b as [yb sb]; simpl.
  rewrite orb_true_iff, andb_true_iff, !Z.ltb_lt, Z.eqb_eq. lia.
Qed.

Lemma key_ltb_false a b : key_ltb a b = false → key_le b a.
Proof.
  unfold key_ltb, key_le. destruct a as [ya sa], b as [yb sb]; simpl.
  rewrite orb_false_iff, andb_false_iff, !Z.ltb_ge, Z.eqb_neq. lia.
Qed.

Lemma in_insert_desc x l p : In p (insert_desc x l) ↔ p = x ∨ In p l.
Proof.
  induction l as [|h t IH]; simpl.
  - intuition congruence.
  - destruct (key_ltb x h); simpl; rewrite ?IH; intuition congruence.
Qed.

Lemma in_sort_desc l p : In p (sort_desc l) ↔ In p l.
Proof.
  induction l as [|a l IH]; simpl; [tauto|].
  rewrite in_insert_desc, IH. intuition congruence.
Qed.

Lemma key_le_trans a b c : key_le a b → key_le b c → key_le a c.
Proof. unfold key_le. lia. Qed.

Lemma key_le_total a b : key_le a b ∨ key_le b a.
Proof. unfold key_le. lia. Qed.

(** The head of the sorted list bounds every pair. *)
Lemma sort_desc_head l p rest :
  sort_desc l = p :: rest → ∀ q, In q l → key_le q p.
Proof.
  revert p rest. induction l as [|a l IH]; intros p rest Hs q Hq; [destruct Hq|].
  simpl in Hs. destruct (sort_desc l) as [|h t] eqn:E.
  - simpl in Hs. injection Hs as <- <-.
    assert (l = []) as ->.
    { destruct l as [|b l']; [reflexivity|].
      assert (In b (sort_desc (b :: l'))) as Hb by (apply in_sort_desc; left; reflexivity).
      rewrite E in Hb. destruct Hb. }
    destruct Hq as [->|[]]. unfold key_le. lia.
  - simpl in Hs. destruct (key_ltb a h) eqn:K.
    + injection Hs as <- <-. destruct Hq as [->|Hq].
      * apply key_ltb_spec in K. destruct (key_le_total q h); tauto.
      * eapply IH; eauto.
    + injection Hs as <- <-.
      assert (key_le h a) as Hha.
      { apply key_ltb_false. exact K. }
      destruct Hq as [->|Hq]; [unfold key_le; lia|].
      eapply key_le_trans; [|exact Hha]. eapply IH; eauto.
Qed.

Lemma list_max_spec y ys :
  In (list_max y ys) (y :: ys) ∧ ∀ z, In z (y :: ys) → z ≤ list_max y ys.
Proof.
  unfold list_max. revert y. induction ys as [|a ys IH]; intros y; simpl.
  - split; [tauto|]. intros z [<-|[]]. lia.
  - destruct (IH (Z.max y a)) as [Hin Hle]. split.
    + simpl in Hin. destruct Hin as [Hin|Hin]; [|tauto].
      rewrite <- Hin. destruct (Z.max_spec y a) as [[_ ->]|[_ ->]]; tauto.
    + intros z Hz. assert (Z.max y a ≤ fold_left Z.max ys (Z.max y a)) by (apply Hle; left; reflexivity).
      destruct Hz as [<-|[<-|Hz]]; [lia|lia|]. apply Hle. right. exact Hz.
Qed.

Lemma pick_best_newest_at_top pool :
  pool ≠ [] → ∃ y, _pick_best_year_scored pool = Some y ∧ newest_at_top pool y.
Proof.
  intros Hne. unfold _pick_best_year_scored.
  destruct pool as [|p0 pool0] eqn:Ep; [congruence|]. rewrite <- Ep in *. clear Hne.
  destruct (sort_desc pool) as [|[y0 s0] rest] eqn:Es.
  { exfalso. assert (In p0 (sort_desc pool)) as H by (apply in_sort_desc; rewrite Ep; left; reflexivity).
    rewrite Es in H. destruct H. }
  rewrite <- Es.
  pose proof (sort_desc_head _ _ _ Es) as Hhead.
  assert (In (y0, s0) pool) as Hin0 by (apply in_sort_desc; rewrite Es; left; reflexivity).
  assert (top_score pool s0) as Htop.
  { split; [eauto|]. intros y' s' H. apply Hhead in H. unfold key_le in H. simpl in H. lia. }
  set (top := map fst (List.filter (fun t => snd t =? s0) (sort_desc pool))).
  assert (∀ z, In z top ↔ In (z, s0) pool) as Htop_in.
  { intros z. unfold top. rewrite in_map_iff. split.
    - intros [[z' s'] [Hz Hf]]. simpl in Hz. subst z'.
      apply filter_In in Hf as [Hf Hs]. simpl in Hs. apply Z.eqb_eq in Hs. subst s'.
      apply in_sort_desc. exact Hf.
    - intros H. exists (z, s0). split; [reflexivity|].
      apply filter_In. split; [apply in_sort_desc; exact H|]. simpl. apply Z.eqb_refl. }
  destruct top as [|y ys] eqn:Et.
  { exfalso. apply Htop_in in Hin0. destruct Hin0. }
  destruct (list_max_spec y ys) as [Hm Hle].
  exists (list_max y ys). split; [reflexivity|].
  exists s0. split; [exact Htop|]. split.
  - apply Htop_in. exact Hm.
  - intros y' H. apply Hle. apply Htop_in. exact H.
Qed.

End YearSelectionFacts.

Section RawTextYearFacts.
Import ParsePdfs YearSelection.
Local Open Scope Z_scope.

Lemma best_of_spec pool init :
  (best_of pool init = init ∨ In (best_of pool init) pool)
  ∧ key_le init (best_of pool init)
  ∧ ∀ p, In p pool → key_le p (best_of pool init).
Proof.
  revert init. induction pool as [|p pool IH]; intros init.
  - simpl. split; [tauto|]. split; [unfold key_le; lia|intros p []].
  - unfold best_of in *. simpl.
    set (init' := if (snd p >? snd init) || ((snd p =? snd init) && (fst p >? fst init))
                  then p else init).
    destruct (IH init') as (Hin & Hle & Hall).
    assert (key_le init init' ∧ key_le p init' ∧ (init' = init ∨ init' = p)) as (H1 & H2 & H3).
    { unfold init', key_le.
      destruct ((snd p >? snd init) || ((snd p =? snd init) && (fst p >? fst init))) eqn:E.
      - apply orb_true_iff in E. rewrite andb_true_iff, !Z.gtb_gt, Z.eqb_eq in E.
        repeat split; [lia|lia|tauto].
      - apply orb_false_iff in E. rewrite andb_false_iff, !Z.gtb_ltb, !Z.ltb_ge, Z.eqb_neq in E.
        repeat split; [lia|lia|tauto]. }
    split; [|split].
    + destruct Hin as [->|Hin]; [|tauto]. destruct H3 as [->| ->]; tauto.
    + eapply key_le_trans; eauto.
    + intros q [<-|Hq]; [eapply key_le_trans; eauto|auto].
Qed.

Lemma best_of_app l1 l2 init :
  best_of (l1 ++ l2) init = best_of l2 (best_of l1 init).
Proof. unfold best_of. apply fold_left_app. Qed.

Lemma best_of_line line ys init :
  best_of (map (fun y => (y, _score_year_in_line line y)) ys) init
  = fold_left (best_step line) ys init.
Proof.
  revert init. induction ys as [|y ys IH]; intros init; [reflexivity|].
  unfold best_of in *. simpl. rewrite IH. reflexivity.
Qed.

(** The two nested loops of the raw-text path run the scoring loop on the
    pool, pair by pair. *)
Lemma line_loop_best_of cy lines init :
  fold_left
    (fun best line =>
       let line := strip line in
       if nonempty line
       then fold_left (best_step line) (_year_candidates_from_text cy line) best
       else best) lines init
  = best_of (flat_map (fun line => map (fun y => (y, _score_year_in_line line y))
                                       (_year_candidates_from_text cy line))
                      (List.filter nonempty (map strip lines))) init.
Proof.
  revert init. induction lines as [|l lines IH]; intros init; [reflexivity|].
  simpl. rewrite IH. destruct (nonempty (strip l)); [|reflexivity].
  simpl. rewrite best_of_app, best_of_line. reflexivity.
Qed.

Lemma rstrip_by_nil p s : rstrip_by p s = [] → Forall (fun c => p c = true) s.
Proof.
  induction s as [|c s IH]; simpl; [constructor|].
  destruct (rstrip_by p s); [|discriminate].
  destruct (p c) eqn:E; [|discriminate]. intros _. constructor; auto.
Qed.

Lemma lstrip_by_forall p s :
  Forall (fun c => p c = true) (lstrip_by p s) → Forall (fun c => p c = true) s.
Proof.
  induction s as [|c s IH]; simpl; [auto|].
  destruct (p c) eqn:E; [|auto]. intros H. constructor; auto.
Qed.

Lemma strip_by_nil p s : strip_by p s = [] → Forall (fun c => p c = true) s.
Proof. intros H. apply lstrip_by_forall, rstrip_by_nil, H. Qed.

Lemma forall_strip_by_nil p s : Forall (fun c => p c = true) s → strip_by p s = [].
Proof.
  intros H. unfold strip_by.
  assert (lstrip_by p s = []) as ->; [|reflexivity].
  induction H as [|c s Hc _ IH]; simpl; [reflexivity|]. rewrite Hc. exact IH.
Qed.

Lemma strip_blank s : Forall (fun c => is_space c = true) s → strip s = [].
Proof. apply forall_strip_by_nil. Qed.

Lemma splitlines_go_forall (P : N → Prop) cur b s :
  Forall P cur → Forall P s → Forall (Forall P) (splitlines_go cur b s).
Proof.
  revert cur b. induction s as [|c s IH]; intros cur b Hcur Hs; simpl.
  - destruct cur; [constructor|]. constructor; [|constructor].
    apply Forall_rev. exact Hcur.
  - inversion Hs; subst.
    destruct (b && (c =? 10)%N); [apply IH; auto|].
    destruct (is_linebreak c).
    + constructor; [apply Forall_rev; exact Hcur|]. apply IH; auto.
    + apply IH; auto.
Qed.

(** A text of whitespace only has no candidate. *)
Lemma blank_text_no_pool cy text : strip text = [] → text_year_pool cy text = [].
Proof.
  intros H. apply strip_by_nil in H.
  pose proof (splitlines_go_forall _ [] false text (List.Forall_nil _) H) as Hl.
  unfold text_year_pool, splitlines.
  induction Hl as [|l ls Hl _ IH]; [reflexivity|].
  simpl. rewrite (strip_blank _ Hl). simpl. exact IH.
Qed.

Lemma fallback_year_best_of cy text :
  fallback_year_from_text cy text =
  let best := best_of (text_year_pool cy text) best_init in
  if snd best >? 0 then Some (fst best) else None.
Proof.
  unfold fallback_year_from_text. destruct (strip text) eqn:E; simpl.
  - rewrite (blank_text_no_pool cy text E). reflexivity.
  - rewrite line_loop_best_of. reflexivity.
Qed.

End RawTextYearFacts.

Section YearSelectionMain.
Import ParsePdfs YearSelection.
Local Open Scope Z_scope.


End YearSelectionMain.

Section YearSelectionWitness.
Import ParsePdfs YearSelection.
Local Open Scope Z_scope.


End YearSelectionWitness.

Section LineScoreFacts.
Import ParsePdfs LineScore.
Local Open Scope Z_scope.

Lemma month_loop low (hy : bool) months score :
  fold_left (fun score m => if contains low m && hy then Z.max score 95 else score)
            months score
  = if existsb (contains low) months && hy then Z.max score 95 else score.
Proof.
  revert score. induction months as [|m ms IH]; intros score; simpl; [reflexivity|].
  rewrite IH. destruct (contains low m), hy, (existsb (contains low) ms); simpl;
    try reflexivity; lia.
Qed.

Lemma score_year_by_rules line y :
  _score_year_in_line line y = score_by_rules line y.
Proof.
  unfold _score_year_in_line, score_by_rules, downloaded_by, doi_url,
    month_with_year, volume_with_year, copyright_with_year, has_year.
  cbv zeta. rewrite month_loop.
  destruct (contains (lower line) (py "downloaded by")); [reflexivity|].
  destruct (contains (lower line) (py "doi") && contains (lower line) (py "http"));
    [reflexivity|].
  destruct (existsb (contains (lower line)) MONTHS && contains (lower line) (str_of_int y)),
    ((contains (lower line) (py "vol.") || contains (lower line) (py "volume")
      || contains (lower line) (py "no.") || contains (lower line) (py "issue"))
     && contains (lower line) (str_of_int y)),
    ((contains (lower line) (py "copyright") || contains (lower line) copyright_sign)
     && contains (lower line) (str_of_int y)); reflexivity.
Qed.

(** C5. The raw-text line scorer gives -999 to a line with the "downloaded
    by" marker; else 5 to a line with both "doi" and "http"; else at least 95
    when a month name occurs in the line together with the year, exactly 10
    when no marker occurs with the year, 85 for volume or issue words and 80
    for a copyright marker when nothing stronger applies: the greatest boost
    that applies over the base 10, and no sum of boosts. *)
Theorem C5_line_score_rules (line : str) (y : Z) :
  let score := _score_year_in_line line y in
  (downloaded_by line = true → score = -999)
  ∧ (downloaded_by line = false → doi_url line = true → score = 5)
  ∧ (downloaded_by line = false → doi_url line = false →
       (month_with_year line y = true → 95 ≤ score)
       ∧ (month_with_year line y = false → volume_with_year line y = false →
          copyright_with_year line y = false → score = 10)
       ∧ (month_with_year line y = false → volume_with_year line y = true →
          score = 85)
       ∧ (month_with_year line y = false → volume_with_year line y = false →
          copyright_with_year line y = true → score = 80)
       ∧ score = Z.max 10
                   (Z.max (if month_with_year line y then 95 else 10)
                      (Z.max (if volume_with_year line y then 85 else 10)
                             (if copyright_with_year line y then 80 else 10)))).
Proof.
  cbv zeta. rewrite score_year_by_rules. unfold score_by_rules.
  destruct (downloaded_by line), (doi_url line), (month_with_year line y),
    (volume_with_year line y), (copyright_with_year line y);
    repeat split; intros; try discriminate; try reflexivity; lia.
Qed.

Lemma C5_line_score_rules_witness :
  _score_year_in_line (py "Downloaded by a reader, March 2021") 2021 = -999
  ∧ _score_year_in_line (py "https://doi.org/10.1000/j.2021.01") 2021 = 5
  ∧ 95 ≤ _score_year_in_line (py "Received 3 March 2021") 2021
  ∧ _score_year_in_line (py "The 2021 campaign") 2021 = 10
  ∧ _score_year_in_line (py "Vol. 12, 2021, copyright the authors") 2021 = 85
  ∧ _score_year_in_line (copyright_sign ++ py " 2021 IEEE") 2021 = 80.
Proof.
  split; [apply (C5_line_score_rules (py "Downloaded by a reader, March 2021") 2021);
          vm_compute; reflexivity|].
  split; [apply (C5_line_score_rules (py "https://doi.org/10.1000/j.2021.01") 2021);
          vm_compute; reflexivity|].
  split; [apply (C5_line_score_rules (py "Received 3 March 2021") 2021);
          vm_compute; reflexivity|].
  split; [apply (C5_line_score_rules (py "The 2021 campaign") 2021);
          vm_compute; reflexivity|].
  split; [apply (C5_line_score_rules (py "Vol. 12, 2021, copyright the authors") 2021);
          vm_compute; reflexivity|].
  apply (C5_line_score_rules (copyright_sign ++ py " 2021 IEEE") 2021);
    vm_compute; reflexivity.
Defined.

End LineScoreFacts.

(** ** Whitespace, words and normalised lines *)

Section StringFacts.
Import ParsePdfs.

(** Case analysis on the comparisons a character class is made of. *)
Ltac split_cmp :=
  repeat match goal with
  | |- context [N.leb ?a ?b] => destruct (N.leb_spec a b); try lia
  | |- context [N.eqb ?a ?b] => destruct (N.eqb_spec a b); try lia
  | H : context [N.leb ?a ?b] |- _ => destruct (N.leb_spec a b); try lia
  | H : context [N.eqb ?a ?b] |- _ => destruct (N.eqb_spec a b); try lia
  end.

Ltac class_cases :=
  unfold is_word, is_letter, is_upper_az, is_lower_az, is_digit, is_space,
    lower_cp in *;
  split_cmp; simpl in *; try reflexivity; try discriminate; try lia.

Lemma digit_not_space c : is_digit c = true → is_space c = false.
Proof. intros H. class_cases. Qed.

Lemma letter_not_space c : is_letter c = true → is_space c = false.
Proof. intros H. class_cases. Qed.

Lemma lower_cp_space c : is_space (lower_cp c) = is_space c.
Proof.
  unfold lower_cp. destruct (is_upper_az c) eqn:U; [|reflexivity].
  assert (65 <= c <= 90) as Hc by class_cases.
  clear U. class_cases.
Qed.

(** *** Unfolding [split_ws] *)

Lemma split_ws_space c s : is_space c = true → split_ws (c :: s) = split_ws s.
Proof. intros H. simpl. rewrite H. reflexivity. Qed.

Lemma split_ws_single c : is_space c = false → split_ws [c] = [[c]].
Proof. intros H. simpl. rewrite H. reflexivity. Qed.

Lemma split_ws_word_end c d s :
  is_space c = false → is_space d = true →
  split_ws (c :: d :: s) = [c] :: split_ws (d :: s).
Proof. intros Hc Hd. cbn [split_ws]. rewrite Hc, Hd. reflexivity. Qed.

Lemma split_ws_word_on c d s :
  is_space c = false → is_space d = false →
  split_ws (c :: d :: s)
  = match split_ws (d :: s) with
    | w :: ws => (c :: w) :: ws
    | [] => [[c]]
    end.
Proof. intros Hc Hd. cbn [split_ws]. rewrite Hc, Hd. reflexivity. Qed.

(** The first word of a text that starts with a word character, and what a
    whitespace-free pattern sees of the text behind that character. *)
Lemma first_word s c :
  is_space c = false →
  ∃ w ws, split_ws (c :: s) = (c :: w) :: ws
          ∧ ∀ k, Forall not_space k → startswith s k = startswith w k.
Proof.
  revert c. induction s as [|d s IH]; intros c Hc.
  - exists [], []. split; [apply split_ws_single, Hc|reflexivity].
  - destruct (is_space d) eqn:Hd.
    + exists [], (split_ws (d :: s)). split; [apply split_ws_word_end; assumption|].
      intros k Hk. destruct k as [|a k]; [reflexivity|]. simpl.
      inversion Hk as [|? ? Ha _]; subst. unfold not_space in Ha.
      destruct (N.eqb_spec a d) as [->|]; [congruence|reflexivity].
    + destruct (IH d Hd) as (w & ws & Hsplit & Hpre).
      exists (d :: w), ws. split.
      * rewrite split_ws_word_on, Hsplit by assumption. reflexivity.
      * intros k Hk. destruct k as [|a k]; [reflexivity|]. simpl.
        inversion Hk; subst. rewrite Hpre by assumption. reflexivity.
Qed.

Lemma startswith_nil_l k : k ≠ [] → startswith [] k = false.
Proof. destruct k; [congruence|reflexivity]. Qed.

Lemma contains_nil_l k : k ≠ [] → contains [] k = false.
Proof. destruct k; [congruence|reflexivity]. Qed.

Lemma contains_cons c s k :
  contains (c :: s) k = startswith (c :: s) k || contains s k.
Proof. reflexivity. Qed.

(** A pattern without whitespace occurs in a text exactly when it occurs in
    one of its words. *)
Lemma contains_in_words k s :
  k ≠ [] → Forall not_space k →
  contains s k = existsb (fun w => contains w k) (split_ws s).
Proof.
  intros Hne Hk. induction s as [|c s IH].
  - rewrite contains_nil_l by assumption. reflexivity.
  - rewrite contains_cons. destruct (is_space c) eqn:Hc.
    + rewrite split_ws_space by assumption. rewrite <- IH.
      destruct k as [|a k]; [congruence|]. simpl startswith.
      inversion Hk as [|? ? Ha _]; subst. unfold not_space in Ha.
      destruct (N.eqb_spec a c) as [->|]; [congruence|reflexivity].
    + destruct (first_word s c Hc) as (w & ws & Hsplit & Hpre).
      rewrite Hsplit. cbn [existsb]. rewrite contains_cons.
      assert (startswith (c :: s) k = startswith (c :: w) k) as ->.
      { destruct k as [|a k]; [congruence|]. simpl. inversion Hk; subst.
        rewrite Hpre by assumption. reflexivity. }
      rewrite <- orb_assoc. f_equal. rewrite IH.
      destruct s as [|d s'].
      * simpl in Hsplit. rewrite Hc in Hsplit. injection Hsplit as <- <-.
        rewrite (contains_nil_l k Hne). reflexivity.
      * destruct (is_space d) eqn:Hd.
        -- rewrite split_ws_word_end in Hsplit by assumption.
           injection Hsplit as <- <-.
           rewrite contains_nil_l by assumption. reflexivity.
        -- rewrite split_ws_word_on in Hsplit by assumption.
           destruct (split_ws (d :: s')) as [|w' ws'] eqn:E.
           ++ exfalso. destruct (first_word s' d Hd) as (? & ? & E' & _). congruence.
           ++ injection Hsplit as <- <-. reflexivity.
Qed.

(** The characters of the words are the characters that are no whitespace. *)
Lemma concat_split_ws s :
  concat (split_ws s) = List.filter (fun c => negb (is_space c)) s.
Proof.
  induction s as [|c s IH]; [reflexivity|].
  cbn [List.filter]. destruct (is_space c) eqn:Hc; cbn [negb].
  - rewrite split_ws_space by assumption. exact IH.
  - destruct (first_word s c Hc) as (w & ws & Hsplit & _). rewrite Hsplit.
    cbn [concat app]. f_equal. rewrite <- IH.
    destruct s as [|d s'].
    + simpl in Hsplit. rewrite Hc in Hsplit. injection Hsplit as <- <-. reflexivity.
    + destruct (is_space d) eqn:Hd.
      * rewrite split_ws_word_end in Hsplit by assumption.
        injection Hsplit as <- <-. reflexivity.
      * rewrite split_ws_word_on in Hsplit by assumption.
        destruct (split_ws (d :: s')) as [|w' ws'] eqn:E.
        -- exfalso. destruct (first_word s' d Hd) as (? & ? & E' & _). congruence.
        -- injection Hsplit as <- <-. reflexivity.
Qed.

End StringFacts.

Section NormSpacesFacts.
Import ParsePdfs.

Lemma split_ws_nonempty d s : is_space d = false → split_ws (d :: s) ≠ [].
Proof. intros Hd. destruct (first_word s d Hd) as (? & ? & E & _). congruence. Qed.

Lemma split_ws_lstrip s : split_ws (lstrip_by is_space s) = split_ws s.
Proof.
  induction s as [|c s IH]; [reflexivity|]. cbn [lstrip_by].
  destruct (is_space c) eqn:Hc; [|reflexivity].
  rewrite split_ws_space by assumption. exact IH.
Qed.

Lemma rstrip_by_head p s e r : rstrip_by p s = e :: r → ∃ s', s = e :: s'.
Proof.
  destruct s as [|c s]; simpl; [discriminate|].
  destruct (rstrip_by p s); [destruct (p c)|]; intros [= <- <-]; eauto.
Qed.

(** How [split_ws] goes on behind a word character depends on the next
    character being whitespace or not, and on the words behind. *)
Lemma split_ws_cons_congr c s t :
  split_ws s = split_ws t →
  match s, t with
  | [], [] => True
  | a :: _, b :: _ => is_space a = is_space b
  | _, _ => False
  end →
  split_ws (c :: s) = split_ws (c :: t).
Proof.
  intros Hw Hh. destruct (is_space c) eqn:Hc.
  - rewrite !split_ws_space by assumption. exact Hw.
  - destruct s as [|a s], t as [|b t]; try contradiction; [reflexivity|].
    destruct (is_space b) eqn:Hb.
    + rewrite !split_ws_word_end by congruence. rewrite Hw. reflexivity.
    + rewrite !split_ws_word_on by congruence. rewrite Hw. reflexivity.
Qed.

Lemma split_ws_rstrip s : split_ws (rstrip_by is_space s) = split_ws s.
Proof.
  induction s as [|c s IH]; [reflexivity|]. cbn [rstrip_by].
  destruct (rstrip_by is_space s) as [|e r] eqn:E.
  - pose proof (rstrip_by_nil _ _ E) as Hall.
    destruct (is_space c) eqn:Hc.
    + rewrite split_ws_space by assumption. exact IH.
    + destruct s as [|d s']; [reflexivity|].
      inversion Hall; subst.
      rewrite split_ws_word_end, <- IH by assumption. apply split_ws_single, Hc.
  - destruct (rstrip_by_head _ _ _ _ E) as (s' & ->).
    apply split_ws_cons_congr; [exact IH|reflexivity].
Qed.

Lemma split_ws_strip s : split_ws (strip s) = split_ws s.
Proof. unfold strip, strip_by. rewrite split_ws_rstrip. apply split_ws_lstrip. Qed.

Lemma collapse_ws_head s :
  match collapse_ws false s, s with
  | [], [] => True
  | a :: _, b :: _ => is_space a = is_space b
  | _, _ => False
  end.
Proof.
  destruct s as [|d s]; [exact I|]. cbn [collapse_ws].
  destruct (is_space d) eqn:Hd; [|exact Hd].
  destruct s as [|e s]; [exact Hd|].
  destruct (is_space e); [reflexivity|exact Hd].
Qed.

Lemma split_ws_collapse b s : split_ws (collapse_ws b s) = split_ws s.
Proof.
  revert b. induction s as [|c s IH]; intros b; [reflexivity|].
  cbn [collapse_ws]. destruct (is_space c) eqn:Hc.
  - rewrite (split_ws_space c s) by assumption. destruct b; [apply IH|].
    destruct s as [|d s']; [apply split_ws_space, Hc|].
    destruct (is_space d) eqn:Hd.
    + rewrite split_ws_space by reflexivity. apply IH.
    + rewrite split_ws_space by assumption. apply IH.
  - apply split_ws_cons_congr; [apply IH|apply collapse_ws_head].
Qed.

(** Normalising the spaces of a line keeps its words. *)
Lemma split_ws_norm_spaces s : split_ws (_norm_spaces s) = split_ws s.
Proof. unfold _norm_spaces. rewrite split_ws_strip. apply split_ws_collapse. Qed.

Lemma split_ws_lower s : split_ws (lower s) = map lower (split_ws s).
Proof.
  induction s as [|c s IH]; [reflexivity|].
  change (lower (c :: s)) with (lower_cp c :: lower s).
  destruct (is_space c) eqn:Hc.
  - rewrite !split_ws_space by (rewrite ?lower_cp_space; assumption). exact IH.
  - destruct s as [|d s'].
    + rewrite !split_ws_single by (rewrite ?lower_cp_space; assumption). reflexivity.
    + change (lower (d :: s')) with (lower_cp d :: lower s') in *.
      destruct (is_space d) eqn:Hd.
      * rewrite !split_ws_word_end by (rewrite ?lower_cp_space; assumption).
        rewrite IH. reflexivity.
      * rewrite !split_ws_word_on by (rewrite ?lower_cp_space; assumption).
        rewrite IH. destruct (split_ws (d :: s')); reflexivity.
Qed.

(** The words of the text [low] that the noise test looks at. *)
Lemma split_ws_low s :
  split_ws (strip (lower (_norm_spaces s))) = split_ws (lower s).
Proof.
  rewrite split_ws_strip, !split_ws_lower, split_ws_norm_spaces. reflexivity.
Qed.

Lemma contains_norm_spaces k s :
  k ≠ [] → Forall not_space k → contains (_norm_spaces s) k = contains s k.
Proof.
  intros. rewrite !(contains_in_words k) by assumption.
  rewrite split_ws_norm_spaces. reflexivity.
Qed.

Lemma contains_low k s :
  k ≠ [] → Forall not_space k →
  contains (strip (lower (_norm_spaces s))) k = contains (lower s) k.
Proof.
  intros. rewrite !(contains_in_words k) by assumption.
  rewrite split_ws_low. reflexivity.
Qed.

Lemma count_char_filter c s :
  is_space c = false →
  count_char c (List.filter (fun d => negb (is_space d)) s) = count_char c s.
Proof.
  intros Hc. unfold count_char. induction s as [|d s IH]; [reflexivity|].
  cbn [List.filter]. destruct (is_space d) eqn:Hd; cbn [negb].
  - rewrite IH. destruct (N.eqb_spec c d) as [->|]; [congruence|reflexivity].
  - cbn [List.filter]. destruct (c =? d); cbn [length]; rewrite IH; reflexivity.
Qed.

Lemma count_char_norm_spaces c s :
  is_space c = false → count_char c (_norm_spaces s) = count_char c s.
Proof.
  intros Hc. rewrite <- (count_char_filter c (_norm_spaces s)) by assumption.
  rewrite <- (count_char_filter c s) by assumption.
  rewrite <- !concat_split_ws, split_ws_norm_spaces. reflexivity.
Qed.

Lemma existsb_filter_not_space (p : N → bool) s :
  (∀ c, p c = true → is_space c = false) →
  existsb p (List.filter (fun d => negb (is_space d)) s) = existsb p s.
Proof.
  intros Hp. induction s as [|d s IH]; [reflexivity|]. cbn [List.filter existsb].
  destruct (is_space d) eqn:Hd; cbn [negb existsb]; rewrite IH; [|reflexivity].
  destruct (p d) eqn:Hpd; [|reflexivity]. apply Hp in Hpd. congruence.
Qed.

Lemma existsb_norm_spaces (p : N → bool) s :
  (∀ c, p c = true → is_space c = false) →
  existsb p (_norm_spaces s) = existsb p s.
Proof.
  intros Hp. rewrite <- (existsb_filter_not_space p (_norm_spaces s)) by assumption.
  rewrite <- (existsb_filter_not_space p s) by assumption.
  rewrite <- !concat_split_ws, split_ws_norm_spaces. reflexivity.
Qed.

(** Searching for one character of a class. *)
Lemma search_from_cls (p : N → bool) s prev i :
  is_Some (search_from (Cls p) prev i s) ↔ existsb p s = true.
Proof.
  revert prev i. induction s as [|c s IH]; intros prev i; simpl.
  - split; [intros [? ?]; discriminate|discriminate].
  - destruct (p c); simpl.
    + split; [reflexivity|]. intros _. eexists. reflexivity.
    + apply IH.
Qed.

Lemma found_cls (p : N → bool) s : found (Cls p) s = existsb p s.
Proof.
  unfold found, search. destruct (existsb p s) eqn:E.
  - apply bool_decide_eq_true. apply search_from_cls. exact E.
  - apply bool_decide_eq_false. rewrite search_from_cls. congruence.
Qed.

End NormSpacesFacts.

(** ** The noise classifier *)

Section NoiseFacts.
Import ParsePdfs NoiseRules.

Lemma ws_free_spec k : ws_free k = true → k ≠ [] ∧ Forall not_space k.
Proof.
  unfold ws_free. intros H. apply andb_true_iff in H as [Hne Hall]. split.
  - destruct k; [discriminate|congruence].
  - apply List.Forall_forall. intros c Hc.
    rewrite forallb_forall in Hall. specialize (Hall c Hc).
    unfold not_space. destruct (is_space c); [discriminate|reflexivity].
Qed.

Lemma contains_any_low ks s :
  forallb ws_free ks = true →
  contains_any (strip (lower (_norm_spaces s))) ks = contains_any (lower s) ks.
Proof.
  unfold contains_any. induction ks as [|k ks IH]; intros H; [reflexivity|].
  simpl in H. apply andb_true_iff in H as [Hk Hks].
  destruct (ws_free_spec k Hk). cbn [existsb].
  rewrite contains_low, IH by assumption. reflexivity.
Qed.

(** Every test of the classifier answers "noise". *)
Ltac noise_chain :=
  unfold _looks_like_noise_line; cbv zeta;
  repeat match goal with
  | |- (if ?c then true else _) = true => destruct c eqn:?; [reflexivity|]
  end.

Lemma noise_email line :
  has_email_marker line = true → _looks_like_noise_line line = true.
Proof.
  unfold has_email_marker. intros H.
  rewrite <- (contains_norm_spaces [at_sign] line) in H
    by (apply ws_free_spec; reflexivity).
  noise_chain. congruence.
Qed.

Lemma noise_commas_words line :
  many_commas_and_words line = true → _looks_like_noise_line line = true.
Proof.
  unfold many_commas_and_words. intros H.
  rewrite <- (count_char_norm_spaces comma line) in H by reflexivity.
  rewrite <- (split_ws_norm_spaces line) in H.
  noise_chain. congruence.
Qed.

Lemma noise_affiliation line :
  has_affiliation_keyword line = true → has_comma line = true →
  has_digit line = true ∨ has_country_word line = true →
  _looks_like_noise_line line = true.
Proof.
  unfold has_affiliation_keyword, has_comma, has_digit, has_country_word.
  intros Hk Hc Hd.
  rewrite <- (contains_any_low AFFILIATION_KEYWORDS line) in Hk by reflexivity.
  rewrite <- (contains_norm_spaces [comma] line) in Hc
    by (apply ws_free_spec; reflexivity).
  rewrite <- (existsb_norm_spaces is_digit line) in Hd by apply digit_not_space.
  rewrite <- (found_cls is_digit) in Hd. change (Cls is_digit) with digit in Hd.
  rewrite <- (contains_any_low COUNTRY_WORDS line) in Hd by reflexivity.
  assert (contains_any (strip (lower (_norm_spaces line))) AFFILIATION_KEYWORDS
          && (contains (_norm_spaces line) [comma]
              && (found digit (_norm_spaces line)
                  || contains_any (strip (lower (_norm_spaces line))) COUNTRY_WORDS))
          = true) as Hcond.
  { rewrite Hk, Hc. destruct Hd as [-> | ->]; rewrite ?orb_true_r; reflexivity. }
  noise_chain. congruence.
Qed.

(** C8, counterexample.  A line with an affiliation keyword and a digit, and
    no comma, is not classified as noise. *)
Lemma C8_keyword_and_digit_without_comma :
  has_affiliation_keyword (py "University 5") = true
  ∧ has_digit (py "University 5") = true
  ∧ _looks_like_noise_line (py "University 5") = false.
Proof. vm_compute. auto. Qed.

(** C8, as amended.  The noise classifier answers true for every line with
    an email marker, for every line with at least 3 commas and more than 8
    words, and for every line with an affiliation keyword together with a
    comma and a digit (or a country word). *)
Theorem C8_noise_rules (line : str) :
  (has_email_marker line = true → _looks_like_noise_line line = true)
  ∧ (many_commas_and_words line = true → _looks_like_noise_line line = true)
  ∧ (has_affiliation_keyword line = true → has_comma line = true →
     has_digit line = true ∨ has_country_word line = true →
     _looks_like_noise_line line = true).
Proof.
  split; [apply noise_email|]. split; [apply noise_commas_words|].
  apply noise_affiliation.
Qed.

Lemma C8_noise_rules_witness :
  _looks_like_noise_line (py "jane.doe (at) chalmers.se or jane@chalmers.se") = true
  ∧ _looks_like_noise_line (py "A. Roe, B. Doe, C. Poe, and their many good friends of old") = true
  ∧ _looks_like_noise_line (py "Department of Mechanics, Building 7") = true.
Proof.
  split; [apply (proj1 (C8_noise_rules
                          (py "jane.doe (at) chalmers.se or jane@chalmers.se")));
          vm_compute; reflexivity|].
  split; [apply (proj1 (proj2 (C8_noise_rules
                   (py "A. Roe, B. Doe, C. Poe, and their many good friends of old"))));
          vm_compute; reflexivity|].
  apply (proj2 (proj2 (C8_noise_rules (py "Department of Mechanics, Building 7"))));
    [vm_compute; reflexivity|vm_compute; reflexivity|left; vm_compute; reflexivity].
Defined.

End NoiseFacts.

(** ** Authors *)

Section AuthorFacts.
Import ParsePdfs AuthorRules.

Lemma sublist_List_filter {A} (f : A → bool) (l : list A) :
  sublist (List.filter f l) l.
Proof.
  induction l as [|a l IH]; simpl; [constructor|].
  destruct (f a); [apply sublist_skip|apply sublist_cons]; exact IH.
Qed.


Lemma sublist_In {A} (l k : list A) x : sublist l k → In x l → In x k.
Proof.
  intros Hs Hx. apply list_elem_of_In. apply list_elem_of_In in Hx.
  eapply elem_of_sublist; eauto.
Qed.

(** The de-duplication loop keeps a sublist whose keys are pairwise distinct
    and were not met before. *)
Lemma dedup_by_spec (key : str → str) (skip : bool) (seen : gset str)
    (names : list str) :
  sublist (dedup_by key skip seen names) names
  ∧ NoDup (map key (dedup_by key skip seen names))
  ∧ ∀ n, In n (dedup_by key skip seen names) → key n ∉ seen.
Proof.
  revert seen. induction names as [|n names IH]; intros seen; simpl.
  - split; [constructor|]. split; [apply NoDup_nil_2|]. intros n [].
  - destruct ((negb skip || nonempty (key n)) && bool_decide (key n ∉ seen)) eqn:E.
    + apply andb_true_iff in E as [_ E]. apply bool_decide_eq_true in E.
      destruct (IH ({[key n]} ∪ seen)) as (Hs & Hn & Hseen).
      split; [apply sublist_skip, Hs|]. split.
      * simpl. apply NoDup_cons_2; [|exact Hn].
        rewrite list_elem_of_In, in_map_iff. intros (m & Hkm & Hm).
        apply Hseen in Hm. rewrite Hkm in Hm.
        apply Hm, elem_of_union. left. apply elem_of_singleton. reflexivity.
      * intros m [<-|Hm]; [exact E|]. apply Hseen in Hm.
        intros H. apply Hm, elem_of_union. right. exact H.
    + destruct (IH seen) as (Hs & Hn & Hseen).
      split; [apply sublist_cons, Hs|]. split; assumption.
Qed.


Lemma NoDup_sublist {A} (l k : list A) : sublist l k → NoDup k → NoDup l.
Proof. intros Hs Hn. exact (sublist_NoDup _ _ Hn Hs). Qed.



Lemma fallback_authors_cases lines :
  fallback_authors_from_lines lines =
  match author_names lines with
  | [] => None
  | _ :: _ =>
      match List.filter (fun a => bool_decide (_norm_person a ∉ peer_keys lines))
                        (author_names lines) with
      | [] => Some (author_names lines)
      | c :: cs => Some (c :: cs)
      end
  end.
Proof.
  unfold fallback_authors_from_lines, author_names, peer_keys. cbv zeta.
  destruct (filter_name_lines (extract_block_after_label lines (py "author:")));
    [reflexivity|].
  destruct (List.filter _ _); reflexivity.
Qed.


(** C6, counterexample.  On a first page whose only author is also named in
    the peer block, the extractor returns that author. *)
Lemma C6_author_who_is_peer_is_returned :
  fallback_authors_from_lines page_author_is_peer = Some [py "Jane Roe"]
  ∧ is_peer page_author_is_peer (py "Jane Roe").
Proof.
  split; [vm_compute; reflexivity|].
  unfold is_peer. refine (bool_decide_unpack _ _). vm_compute. exact I.
Qed.

(** C6, as amended.  When name filtering of the author block yields no name
    the extractor reports no result.  When it reports a list and some
    filtered author is no peer, no author of the list has its normalised
    form in the peer set; when every filtered author is a peer, the
    list is the filtered author block as it is. *)
Theorem C6_peers_removed_unless_all_are (lines : list str) :
  (author_names lines = [] → fallback_authors_from_lines lines = None)
  ∧ (∀ res, fallback_authors_from_lines lines = Some res →
       (∃ a, In a (author_names lines) ∧ ¬ is_peer lines a) →
       ∀ a, In a res → ¬ is_peer lines a)
  ∧ (∀ res, fallback_authors_from_lines lines = Some res →
       (∀ a, In a (author_names lines) → is_peer lines a) →
       res = author_names lines).
Proof.
  rewrite fallback_authors_cases. unfold is_peer. split; [intros ->; reflexivity|].
  destruct (author_names lines) as [|a0 l] eqn:E.
  { split; intros res; discriminate. }
  rewrite <- E. clear E.
  set (keep := fun a => bool_decide (_norm_person a ∉ peer_keys lines)).
  assert (∀ a, In a (List.filter keep (author_names lines)) ↔
               In a (author_names lines) ∧ _norm_person a ∉ peer_keys lines) as Hf.
  { intros a. rewrite filter_In. unfold keep. rewrite bool_decide_eq_true. tauto. }
  destruct (List.filter keep (author_names lines)) as [|c cs] eqn:F.
  - split; intros res [= <-].
    + intros (a & Hin & Hnp). exfalso. apply (proj2 (Hf a)); auto.
    + reflexivity.
  - split; intros res [= <-].
    + intros _ a Ha. apply Hf in Ha. tauto.
    + intros Hall. exfalso. assert (In c (c :: cs)) as Hc by (left; reflexivity).
      apply Hf in Hc as [Hc Hn]. apply Hn, Hall, Hc.
Qed.

Lemma C6_peers_removed_unless_all_are_witness :
  fallback_authors_from_lines [py "Title of the report"] = None
  ∧ (∀ a, In a [py "Jane Roe"] → ¬ is_peer
        [py "Author:"; py "Jane Roe"; py "John Doe"; py "Peer reviewed by:"; py "John Doe"] a)
  ∧ [py "Jane Roe"] = author_names page_author_is_peer.
Proof.
  split; [apply (proj1 (C6_peers_removed_unless_all_are [py "Title of the report"]));
          vm_compute; reflexivity|].
  split.
  - apply (proj1 (proj2 (C6_peers_removed_unless_all_are
        [py "Author:"; py "Jane Roe"; py "John Doe"; py "Peer reviewed by:"; py "John Doe"]))
        [py "Jane Roe"]); [vm_compute; reflexivity|].
    exists (py "Jane Roe"). split; [vm_compute; left; reflexivity|].
    unfold is_peer. refine (proj1 (bool_decide_eq_false _) _). vm_compute. reflexivity.
  - apply (proj2 (proj2 (C6_peers_removed_unless_all_are page_author_is_peer))
             [py "Jane Roe"]); [vm_compute; reflexivity|].
    intros a Ha. vm_compute in Ha. destruct Ha as [<-|[]].
    unfold is_peer. refine (bool_decide_unpack _ _). vm_compute. exact I.
Defined.

End AuthorFacts.

(** ** Pipeline *)

Section PipelineFacts.
Import ParsePdfs Pipeline.
Local Open Scope Z_scope.

Ltac record_fields :=
  cbv beta iota zeta;
  cbn [title authors year file_path file_name error].

(** [parse_pdf], step by step: each step that raises ends the document with
    the record as it is at that step, and the error text. *)
Lemma parse_pdf_stages cy path io :
  parse_pdf cy path io =
  match header_service io with
  | inl e => set_error (error_text e) (rec_init path)
  | inr tei =>
      let r1 := rec_header cy path tei in
      match year_step cy tei io with
      | inl e => set_error (error_text e) r1
      | inr y =>
          let r2 := set_year y r1 in
          match title_candidate io with
          | inl e => set_error (error_text e) r2
          | inr fb =>
              let r3 := set_title (merged_title (title r1) fb) r2 in
              match fallback_authors_from_pdf (read_for_authors io) with
              | inl e => set_error (error_text e) r3
              | inr fa => set_authors (merged_authors (authors r1) fa) r3
              end
          end
      end
  end.
Proof.
  unfold parse_pdf, parse_pdf_body, rec_header, year_step, title_candidate,
    merged_title, merged_authors, parse_title_authors_year_from_header_tei.
  fold (rec_init path).
  cbv [mbind try_bind mret try_ret call update get_rec when_].
  destruct (header_service io) as [e|tei]; [reflexivity|].
  unfold rec_init, set_error, set_year, set_authors, set_title. record_fields.
  destruct (_pick_best_year_scored (header_year_pool cy tei)) as [y|] eqn:Ey.
  - rewrite (bool_decide_eq_false_2 (Some y = None)) by discriminate.
    record_fields.
    destruct (pdf_first_pages_text_lines (read_for_title io) 1) as [e|lines];
      [reflexivity|].
    destruct (nonempty _ && _ && _); record_fields;
      destruct (fallback_authors_from_pdf (read_for_authors io)) as [e|fa];
      try reflexivity; destruct (truthy_list fa); reflexivity.
  - rewrite (bool_decide_eq_true_2 (None = None)) by reflexivity.
    destruct (fallback_year_from_pdf_first_pages cy (read_for_year io) 2) as [e|fy];
      [reflexivity|].
    destruct fy as [fy|].
    + rewrite (bool_decide_eq_true_2 (Some fy ≠ None)) by discriminate.
      record_fields.
      destruct (pdf_first_pages_text_lines (read_for_title io) 1) as [e|lines];
        [reflexivity|].
      destruct (nonempty _ && _ && _); record_fields;
        destruct (fallback_authors_from_pdf (read_for_authors io)) as [e|fa];
        try reflexivity; destruct (truthy_list fa); reflexivity.
    + rewrite (bool_decide_eq_false_2 (None ≠ None)) by (intros H; apply H; reflexivity).
      record_fields.
      destruct (pdf_first_pages_text_lines (read_for_title io) 1) as [e|lines];
        [reflexivity|].
      destruct (nonempty _ && _ && _); record_fields;
        destruct (fallback_authors_from_pdf (read_for_authors io)) as [e|fa];
        try reflexivity; destruct (truthy_list fa); reflexivity.
Qed.




End PipelineFacts.

Section PipelineMain.
Import ParsePdfs Pipeline AuthorRules Examples.
Local Open Scope Z_scope.




End PipelineMain.

Section AuthorListMain.
Import ParsePdfs Pipeline AuthorRules Examples.
Local Open Scope Z_scope.

Lemma filter_name_lines_spec lines :
  NoDup (map _norm_person (filter_name_lines lines))
  ∧ sublist (filter_name_lines lines) (List.filter name_like lines).
Proof.
  unfold filter_name_lines.
  destruct (dedup_by_spec _norm_person true ∅ (List.filter name_like lines))
    as (Hs & Hn & _).
  split; assumption.
Qed.


Lemma header_authors_distinct tei :
  NoDup (map lower (header_authors tei))
  ∧ sublist (header_authors tei) (omap author_name (tei_authors tei)).
Proof.
  unfold header_authors.
  destruct (dedup_by_spec lower false ∅ (omap author_name (tei_authors tei)))
    as (Hs & Hn & _).
  split; assumption.
Qed.






End AuthorListMain.

(** ** The range of the year *)

Section YearRangeFacts.
Import ParsePdfs Pipeline YearSelection.
Local Open Scope Z_scope.

Lemma year_candidates_in_range cy text y :
  In y (_year_candidates cy text) → 1950 ≤ y ≤ cy + 1.
Proof.
  unfold _year_candidates. destruct (nonempty text); [|intros []].
  intros H. apply filter_In in H as [_ H]. unfold in_year_range in H.
  apply andb_true_iff in H as [H1 H2]. apply Z.leb_le in H1, H2. lia.
Qed.

Lemma text_year_pool_in_range cy text y s :
  In (y, s) (text_year_pool cy text) → 1950 ≤ y ≤ cy + 1.
Proof.
  unfold text_year_pool. rewrite in_flat_map. intros (line & _ & H).
  apply in_map_iff in H as (y' & [= <- _] & H).
  eapply year_candidates_in_range, H.
Qed.

(** A year of the raw-text path is in the range. *)
Lemma fallback_year_in_range cy text y :
  fallback_year_from_text cy text = Some y → 1950 ≤ y ≤ cy + 1.
Proof.
  rewrite fallback_year_best_of. cbv zeta.
  destruct (best_of_spec (text_year_pool cy text) best_init) as (Hfrom & _ & _).
  destruct (snd (best_of (text_year_pool cy text) best_init) >? 0) eqn:E; [|discriminate].
  intros [= <-]. destruct Hfrom as [Heq|Hin].
  - rewrite Heq in E. discriminate.
  - eapply text_year_pool_in_range. rewrite <- surjective_pairing. exact Hin.
Qed.

(** A year of the header is in the range when no date carries a [when]
    attribute. *)
Lemma header_year_in_range_without_when cy tei y :
  (∀ d, In d (tei_imprint_dates tei ++ tei_header_dates tei) → date_when d = None) →
  _pick_best_year_scored (header_year_pool cy tei) = Some y →
  1950 ≤ y ≤ cy + 1.
Proof.
  intros Hw Hy.
  assert (∀ wa wb d, date_when d = None → ∀ p, In p (date_scores cy wa wb d) →
                     1950 ≤ fst p ≤ cy + 1) as Hd.
  { intros wa wb d Hn p. unfold date_scores. rewrite Hn. simpl.
    rewrite in_map_iff. intros (y' & <- & H). eapply year_candidates_in_range, H. }
  assert (∀ w el p, In p (text_scores cy w el) → 1950 ≤ fst p ≤ cy + 1) as Ht.
  { intros w el p. unfold text_scores. destruct el; [|intros []].
    rewrite in_map_iff. intros (y' & <- & H). eapply year_candidates_in_range, H. }
  assert (∀ p, In p (header_year_pool cy tei) → 1950 ≤ fst p ≤ cy + 1) as Hpool.
  { intros p. unfold header_year_pool. rewrite !in_app_iff, !in_flat_map.
    intros [(d & Hin & H)|[(d & Hin & H)|[H|[(bs & _ & H)|[H|H]]]]]; eauto.
    - eapply Hd; [|exact H]. apply Hw, in_app_iff. left. exact Hin.
    - eapply Hd; [|exact H]. apply Hw, in_app_iff. right. exact Hin. }
  destruct (header_year_pool cy tei) as [|p0 pool] eqn:E; [discriminate|].
  destruct (pick_best_newest_at_top (p0 :: pool)) as (y' & Hy' & s & _ & Hin & _);
    [discriminate|].
  rewrite Hy in Hy'. injection Hy' as <-. apply (Hpool (y, s)). exact Hin.
Qed.

(** C1, the failing case.  The header service reads the imprint date
    [when="1800-01-01"] off a reprint: the four digits go into the pool with
    the highest score and into the record; no exception, no range check. *)
Theorem C1_when_attribute_year_is_not_range_checked :
  year (parse_pdf 2026 (py "/library/treatise.pdf") io_1800) = Some 1800
  ∧ error (parse_pdf 2026 (py "/library/treatise.pdf") io_1800) = None
  ∧ in_year_range 2026 1800 = false.
Proof. vm_compute. auto. Qed.

End YearRangeFacts.

(** ** Citation keys *)

Section KeyFacts.
Import ParsePdfs MakeBibtex KeyExamples.
Local Open Scope Z_scope.

Lemma py_nonempty (s : string) : s ≠ EmptyString → py s ≠ [].
Proof. destruct s; [congruence|discriminate]. Qed.

Lemma string_of_uint_nonempty d : NilZero.string_of_uint d ≠ EmptyString.
Proof. destruct d; discriminate. Qed.

Lemma str_of_int_nonempty n : str_of_int n ≠ [].
Proof.
  unfold str_of_int. apply py_nonempty.
  destruct (Z.to_int n) as [d|d]; simpl.
  - apply string_of_uint_nonempty.
  - discriminate.
Qed.

Lemma first_significant_nonempty ws : first_significant ws ≠ [].
Proof.
  induction ws as [|x ws IH]; simpl; [discriminate|].
  destruct (nonempty (List.filter is_word (lower (_fold_ascii x)))) eqn:E; simpl.
  - destruct (negb _); [|exact IH].
    destruct (List.filter is_word (lower (_fold_ascii x))); [discriminate|discriminate].
  - exact IH.
Qed.

Lemma key_char_lt c : is_key_char c = true → (c < 128)%N ∧ is_upper_az c = false.
Proof.
  unfold is_key_char, is_lower_az, is_digit, is_upper_az. intros H.
  destruct (N.leb_spec 97 c), (N.leb_spec c 122), (N.leb_spec 48 c),
    (N.leb_spec c 57), (N.leb_spec 65 c), (N.leb_spec c 90);
    simpl in *; try discriminate; split; try reflexivity; lia.
Qed.

Lemma table_get_ascii c : (c < 128)%N → table_get FOLD_TABLE c = [c].
Proof.
  intros H. unfold FOLD_TABLE. cbn [table_get].
  repeat match goal with
  | |- context [N.eqb ?k c] => destruct (N.eqb_spec k c); [lia|]
  end.
  reflexivity.
Qed.

(** A token of key characters is its own normal form. *)
Lemma normalize_key_chars s :
  Forall (fun c => is_key_char c = true) s → _normalize_key_token s = s.
Proof.
  unfold _normalize_key_token, _fold_ascii, lower.
  induction 1 as [|c s Hc _ IH]; [reflexivity|].
  destruct (key_char_lt c Hc) as [Hlt Hup].
  cbn [flat_map]. rewrite table_get_ascii by assumption.
  cbn [app map List.filter].
  assert (lower_cp c = c) as -> by (unfold lower_cp; rewrite Hup; reflexivity).
  rewrite Hc, IH. reflexivity.
Qed.

Lemma normalize_app a b :
  _normalize_key_token (a ++ b) = _normalize_key_token a ++ _normalize_key_token b.
Proof.
  unfold _normalize_key_token, _fold_ascii, lower.
  rewrite flat_map_app, map_app, List.filter_app. reflexivity.
Qed.

Lemma normalize_is_key_chars s :
  Forall (fun c => is_key_char c = true) (_normalize_key_token s).
Proof.
  unfold _normalize_key_token. apply List.Forall_forall. intros c H.
  apply filter_In in H. tauto.
Qed.

Lemma last_name_key_chars a :
  Forall (fun c => is_key_char c = true) (_last_name_from_author a).
Proof.
  unfold _last_name_from_author. cbv zeta.
  destruct (negb (nonempty (strip a))).
  - repeat constructor.
  - destruct (contains (strip a) [44%N]); apply normalize_is_key_chars.
Qed.

Lemma base_key_spec rec :
  base_key rec ≠ [] ∧ Forall (fun c => is_key_char c = true) (base_key rec).
Proof.
  unfold base_key, or_else. cbv zeta.
  set (first_author := match authors rec with a :: _ => a | [] => [] end).
  destruct (nonempty (_last_name_from_author first_author)) eqn:E.
  - split; [|apply last_name_key_chars].
    destruct (_last_name_from_author first_author); [discriminate|discriminate].
  - split; [discriminate|repeat constructor].
Qed.

Lemma key_of_nonempty rec : key_of rec ≠ [].
Proof.
  unfold key_of. cbv zeta.
  destruct (_normalize_key_token (base_key rec ++ y rec ++ w rec)); simpl; discriminate.
Qed.

(** C10. For every record, each component of the key is non-empty, the
    surname component falling back to "anon", the year to "nodate", the title
    word to "work"; the normalised concatenation is never the empty string,
    and neither is the key that is emitted. *)
Theorem C10_key_is_never_empty (rec : DocumentRecord) (used_keys : gmap str Z) :
  (base_key rec ≠ [] ∧ y rec ≠ [] ∧ w rec ≠ [])
  ∧ _normalize_key_token (base_key rec ++ y rec ++ w rec) ≠ []
  ∧ (make_bibtex_record rec used_keys).1 ≠ []
  ∧ (authors rec = [] → base_key rec = py "anon")
  ∧ (year rec = None → y rec = py "nodate")
  ∧ (title rec = [] → w rec = py "work").
Proof.
  destruct (base_key_spec rec) as [Hne Hkc].
  split; [|split; [|split; [|split; [|split]]]].
  - split; [exact Hne|]. split.
    + unfold y. destruct (year rec); [apply str_of_int_nonempty|discriminate].
    + apply first_significant_nonempty.
  - rewrite normalize_app, (normalize_key_chars _ Hkc).
    destruct (base_key rec); [congruence|discriminate].
  - unfold make_bibtex_record. cbv zeta. cbn [fst].
    pose proof (key_of_nonempty rec) as Hk.
    destruct (default 0 (used_keys !! key_of rec) >? 0); [|exact Hk].
    destruct (key_of rec); [congruence|discriminate].
  - unfold base_key. intros ->. reflexivity.
  - unfold y. intros ->. reflexivity.
  - unfold w. intros ->. reflexivity.
Qed.

Lemma C10_key_is_never_empty_witness :
  base_key rec_blank = py "anon" ∧ y rec_blank = py "nodate"
  ∧ w rec_blank = py "work"
  ∧ (make_bibtex_record rec_blank ∅).1 = py "anonnodatework".
Proof.
  destruct (C10_key_is_never_empty rec_blank ∅) as (_ & _ & _ & Ha & Hy & Hw).
  split; [apply Ha; reflexivity|]. split; [apply Hy; reflexivity|].
  split; [apply Hw; reflexivity|]. vm_compute. reflexivity.
Defined.

(** Records of one base key, one after the other, starting where [used_keys]
    counts [n] of them already. *)
Lemma same_base_key_run (b : str) (recs : list DocumentRecord)
    (used : gmap str Z) (n : Z) :
  (∀ r, In r recs → key_of r = b) → default 0 (used !! b) = n → 0 ≤ n →
  bib_records recs used
  = map (fun i => if n + Z.of_nat i >? 0
                  then b ++ str_of_int (n + Z.of_nat i + 1) else b)
        (seq 0 (length recs)).
Proof.
  revert used n. induction recs as [|r recs IH]; intros used n Hall Hn Hpos;
    [reflexivity|].
  cbn [bib_records make_bibtex_record length seq map].
  unfold make_bibtex_record. cbv zeta.
  rewrite (Hall r) by (left; reflexivity). rewrite Hn.
  rewrite Z.add_0_r. f_equal.
  rewrite (IH (<[b := n + 1]> used) (n + 1)).
  - rewrite <- seq_shift, map_map. apply map_ext. intros i.
    replace (n + 1 + Z.of_nat i) with (n + Z.of_nat (S i)) by lia. reflexivity.
  - intros r' Hr'. apply Hall. right. exact Hr'.
  - rewrite lookup_insert_eq. reflexivity.
  - lia.
Qed.

(** N records of one base key get [base], [base2], ..., [baseN], in the
    order they come. *)
Lemma same_base_keys_numbered b recs :
  (∀ r, In r recs → key_of r = b) →
  MakeBibtex.process_root recs = map (numbered b) (seq 0 (length recs)).
Proof.
  intros Hall. unfold MakeBibtex.process_root.
  rewrite (same_base_key_run b recs ∅ 0 Hall) by (reflexivity || lia).
  apply map_ext. intros [|i]; [reflexivity|].
  unfold numbered. rewrite Z.add_0_l.
  assert ((Z.of_nat (S i) >? 0) = true) as -> by (apply Z.gtb_gt; lia).
  reflexivity.
Qed.

(** C2, the failing case.  Two papers of base key "smith2020h" get
    "smith2020h" and "smith2020h2"; a third paper, whose own base key is
    "smith2020h2", is the first of its base key and gets it without a suffix:
    two records of the batch carry the same key. *)
Theorem C2_suffixed_key_meets_another_base_key :
  MakeBibtex.process_root [rec_h_theorem; rec_h_infinity; rec_h2]
  = [py "smith2020h"; py "smith2020h2"; py "smith2020h2"].
Proof. vm_compute. reflexivity. Qed.

End KeyFacts.

(* ===================================================================== *)
(** * Further properties of the code *)
(* ===================================================================== *)

(** ** [_norm_spaces] *)

Section NormalFormFacts.
Import ParsePdfs TextShape.

Lemma no_ws_run_pair c d s :
  no_ws_run (c :: d :: s) = negb (is_space c && is_space d) && no_ws_run (d :: s).
Proof. reflexivity. Qed.

Lemma no_ws_run_cons c s :
  (is_space c = false ∨ head_not_space_stmt s) → no_ws_run s = true →
  no_ws_run (c :: s) = true.
Proof.
  intros H Hs. destruct s as [|d s]; [reflexivity|].
  rewrite no_ws_run_pair, Hs, andb_true_r.
  destruct H as [-> | H]; [reflexivity|]. simpl in H. rewrite H, andb_false_r.
  reflexivity.
Qed.

Lemma no_ws_run_tail c s : no_ws_run (c :: s) = true → no_ws_run s = true.
Proof.
  destruct s as [|d s]; [reflexivity|]. rewrite no_ws_run_pair.
  intros H. apply andb_true_iff in H. tauto.
Qed.

Lemma collapse_ws_shape s :
  no_ws_run (collapse_ws false s) = true
  ∧ no_ws_run (collapse_ws true s) = true
  ∧ head_not_space_stmt (collapse_ws true s).
Proof.
  induction s as [|c s (IHf & IHt & IHh)]; [repeat split|].
  cbn [collapse_ws]. destruct (is_space c) eqn:Hc.
  - split; [|split; assumption].
    destruct s as [|d s']; [reflexivity|].
    destruct (is_space d) eqn:Hd.
    + apply no_ws_run_cons; [right; exact IHh|exact IHt].
    + apply no_ws_run_cons; [|exact IHf]. right.
      cbn [collapse_ws]. rewrite Hd. exact Hd.
  - split; [|split; [|exact Hc]]; (apply no_ws_run_cons; [left; exact Hc|exact IHf]).
Qed.

Lemma no_ws_run_lstrip s : no_ws_run s = true → no_ws_run (lstrip_by is_space s) = true.
Proof.
  induction s as [|c s IH]; [reflexivity|]. intros H. cbn [lstrip_by].
  destruct (is_space c); [|exact H]. apply IH. eapply no_ws_run_tail, H.
Qed.

Lemma no_ws_run_rstrip s : no_ws_run s = true → no_ws_run (rstrip_by is_space s) = true.
Proof.
  induction s as [|c s IH]; [reflexivity|]. intros H. cbn [rstrip_by].
  pose proof (IH (no_ws_run_tail _ _ H)) as IH'.
  destruct (rstrip_by is_space s) as [|e r] eqn:E.
  - destruct (is_space c); reflexivity.
  - destruct (rstrip_by_head _ _ _ _ E) as (s' & ->).
    rewrite no_ws_run_pair in H |- *. apply andb_true_iff in H as [H _].
    rewrite H. exact IH'.
Qed.

Lemma rstrip_by_idem p s : rstrip_by p (rstrip_by p s) = rstrip_by p s.
Proof.
  induction s as [|c s IH]; [reflexivity|]. cbn [rstrip_by].
  destruct (rstrip_by p s) as [|e r] eqn:E.
  - destruct (p c) eqn:Hc; [reflexivity|]. cbn [rstrip_by]. rewrite Hc. reflexivity.
  - cbn [rstrip_by]. cbn [rstrip_by] in IH. rewrite IH. reflexivity.
Qed.

Lemma lstrip_by_fixed p s :
  match s with [] => True | c :: _ => p c = false end → lstrip_by p s = s.
Proof. destruct s as [|c s]; [reflexivity|]. simpl. intros ->. reflexivity. Qed.

Lemma lstrip_by_head p s :
  match lstrip_by p s with [] => True | c :: _ => p c = false end.
Proof.
  induction s as [|c s IH]; [exact I|]. cbn [lstrip_by].
  destruct (p c) eqn:Hc; [exact IH|exact Hc].
Qed.

Lemma strip_by_idem p s : strip_by p (strip_by p s) = strip_by p s.
Proof.
  unfold strip_by.
  rewrite (lstrip_by_fixed p (rstrip_by p (lstrip_by p s))); [apply rstrip_by_idem|].
  pose proof (lstrip_by_head p s) as H.
  destruct (rstrip_by p (lstrip_by p s)) as [|e r] eqn:E; [exact I|].
  destruct (rstrip_by_head _ _ _ _ E) as (s' & Hs). rewrite Hs in H. exact H.
Qed.

Lemma collapse_ws_fixed s : no_ws_run s = true → collapse_ws false s = s.
Proof.
  induction s as [|c s IH]; [reflexivity|]. intros H.
  pose proof (IH (no_ws_run_tail _ _ H)) as IH'. cbn [collapse_ws].
  destruct (is_space c) eqn:Hc; [|rewrite IH'; reflexivity].
  destruct s as [|d s']; [reflexivity|].
  rewrite no_ws_run_pair, Hc in H.
  destruct (is_space d); [discriminate|]. rewrite IH'. reflexivity.
Qed.

Lemma norm_spaces_normal s : spaces_normal (_norm_spaces s).
Proof.
  unfold spaces_normal, _norm_spaces, strip. split; [apply strip_by_idem|].
  unfold strip_by. apply no_ws_run_rstrip, no_ws_run_lstrip, collapse_ws_shape.
Qed.

Lemma norm_spaces_fixed s : spaces_normal s → _norm_spaces s = s.
Proof.
  intros [Hs Hr]. unfold _norm_spaces. rewrite collapse_ws_fixed by assumption.
  exact Hs.
Qed.

Lemma norm_spaces_idem s : _norm_spaces (_norm_spaces s) = _norm_spaces s.
Proof. apply norm_spaces_fixed, norm_spaces_normal. Qed.

End NormalFormFacts.

Section NormSpacesMain.
Import ParsePdfs TextShape.

(** X1. [_norm_spaces] puts a text in normal form: the result has no
    whitespace at either end and no two whitespace characters side by side;
    a text in that form is left as it is, so normalising twice is
    normalising once. *)
Theorem X1_norm_spaces_normal_form (s : str) :
  spaces_normal (_norm_spaces s)
  ∧ _norm_spaces (_norm_spaces s) = _norm_spaces s
  ∧ (spaces_normal s → _norm_spaces s = s).
Proof.
  split; [apply norm_spaces_normal|]. split; [apply norm_spaces_idem|].
  apply norm_spaces_fixed.
Qed.

Lemma X1_norm_spaces_normal_form_witness :
  _norm_spaces (py "Flow past a cylinder") = py "Flow past a cylinder".
Proof.
  apply (proj2 (proj2 (X1_norm_spaces_normal_form (py "Flow past a cylinder")))).
  split; vm_compute; reflexivity.
Defined.

(** X2. [_norm_spaces] changes whitespace only: the words of the text
    ([str.split]) and the sequence of its characters that are no whitespace
    are the same before and after. *)
Theorem X2_norm_spaces_keeps_words (s : str) :
  split_ws (_norm_spaces s) = split_ws s
  ∧ List.filter (fun c => negb (is_space c)) (_norm_spaces s)
    = List.filter (fun c => negb (is_space c)) s.
Proof.
  split; [apply split_ws_norm_spaces|].
  rewrite <- !concat_split_ws, split_ws_norm_spaces. reflexivity.
Qed.

Lemma noise_line_normalised s :
  _looks_like_noise_line (_norm_spaces s) = _looks_like_noise_line s.
Proof. unfold _looks_like_noise_line. rewrite norm_spaces_idem. reflexivity. Qed.

Lemma lower_idem s : lower (lower s) = lower s.
Proof.
  unfold lower. rewrite map_map. apply map_ext. intros c. unfold lower_cp.
  destruct (is_upper_az c) eqn:U; [|rewrite U; reflexivity].
  unfold is_upper_az in *.
  destruct (N.leb_spec 65 c), (N.leb_spec c 90); try discriminate.
  destruct (N.leb_spec 65 (c + 32)), (N.leb_spec (c + 32) 90); simpl; try reflexivity; lia.
Qed.

(** X3. The noise test, the title score and the title gate look at the
    space-normalised text only: each gives the same answer on a text and on
    its normal form.  The empty text and the text of whitespace only are
    noise, score lowest and fail the gate. *)
Theorem X3_tests_see_normalised_text (s : str) :
  _looks_like_noise_line (_norm_spaces s) = _looks_like_noise_line s
  ∧ _title_score (_norm_spaces s) = _title_score s
  ∧ _is_good_title (_norm_spaces s) = _is_good_title s
  ∧ (strip s = [] →
     _looks_like_noise_line s = true ∧ _title_score s = (- 10 ^ 9)%Z
     ∧ _is_good_title s = false).
Proof.
  split; [apply noise_line_normalised|].
  split; [unfold _title_score; rewrite norm_spaces_idem; reflexivity|].
  split; [unfold _is_good_title; rewrite norm_spaces_idem; reflexivity|].
  intros Hs.
  assert (_norm_spaces s = []) as Hn.
  { apply strip_by_nil in Hs. unfold _norm_spaces. apply strip_blank.
    assert (List.filter (fun c => negb (is_space c)) s = []) as Hf.
    { induction Hs as [|c l Hc _ IH]; [reflexivity|]. simpl. rewrite Hc. exact IH. }
    rewrite <- concat_split_ws in Hf.
    rewrite <- (split_ws_collapse false s), concat_split_ws in Hf.
    apply List.Forall_forall. intros c Hc.
    destruct (is_space c) eqn:E; [reflexivity|]. exfalso.
    assert (In c (List.filter (fun c => negb (is_space c)) (collapse_ws false s))) as H.
    { apply filter_In. split; [exact Hc|]. rewrite E. reflexivity. }
    rewrite Hf in H. destruct H. }
  unfold _looks_like_noise_line, _title_score, _is_good_title.
  rewrite Hn. repeat split; reflexivity.
Qed.

Lemma X3_tests_see_normalised_text_witness :
  _looks_like_noise_line (py "   ") = true
  ∧ _title_score (py "   ") = (- 10 ^ 9)%Z
  ∧ _is_good_title (py "   ") = false.
Proof.
  apply (proj2 (proj2 (proj2 (X3_tests_see_normalised_text (py "   "))))).
  vm_compute. reflexivity.
Defined.

End NormSpacesMain.

(** ** First-page lines, blocks and names *)

Section LinesFacts.
Import ParsePdfs TextShape BlockShape AuthorRules.

Lemma filter_not_space_nil s :
  List.filter (fun c => negb (is_space c)) s = [] →
  Forall (fun c => is_space c = true) s.
Proof.
  induction s as [|c s IH]; [constructor|]. simpl.
  destruct (is_space c) eqn:E; simpl; [|discriminate].
  intros H. constructor; auto.
Qed.

Lemma forall_space_filter_nil s :
  Forall (fun c => is_space c = true) s →
  List.filter (fun c => negb (is_space c)) s = [].
Proof. induction 1 as [|c l Hc _ IH]; [reflexivity|]. simpl. rewrite Hc. exact IH. Qed.

Lemma norm_spaces_not_space_chars s :
  List.filter (fun c => negb (is_space c)) (_norm_spaces s)
  = List.filter (fun c => negb (is_space c)) s.
Proof. rewrite <- !concat_split_ws, split_ws_norm_spaces. reflexivity. Qed.

(** A text is blank exactly when its normal form is empty. *)
Lemma norm_spaces_nil_iff s : _norm_spaces s = [] ↔ strip s = [].
Proof.
  split; intros H.
  - apply strip_blank, filter_not_space_nil.
    rewrite <- norm_spaces_not_space_chars, H. reflexivity.
  - apply strip_by_nil, forall_space_filter_nil in H.
    rewrite <- norm_spaces_not_space_chars in H.
    apply filter_not_space_nil in H. apply strip_blank in H.
    destruct (norm_spaces_normal s) as [Hs _]. rewrite Hs in H. exact H.
Qed.

Lemma text_lines_clean text :
  Forall (fun l => l ≠ [] ∧ spaces_normal l) (text_lines text).
Proof.
  unfold text_lines. apply List.Forall_forall. intros l Hl.
  apply filter_In in Hl as [Hl Hne]. apply in_map_iff in Hl as (x & <- & _).
  split; [|apply norm_spaces_normal].
  destruct (_norm_spaces x); [discriminate|discriminate].
Qed.

(** X4. The first-page lines handed to the extractors are clean: none is
    empty, each is in normal form.  An exception of the reader is passed on;
    a first page whose extraction raises, or yields nothing, gives the empty
    list of lines and no error, and no later page is read in its place. *)
Theorem X4_first_page_lines_are_clean :
  (∀ r pages lines,
     pdf_first_pages_text_lines r pages = inr lines →
     Forall (fun l => l ≠ [] ∧ spaces_normal l) lines)
  ∧ (∀ e pages, pdf_first_pages_text_lines (inl e) pages = inl e)
  ∧ (∀ ps, pdf_first_pages_text_lines (inr (PageRaises :: ps)) 1 = inr []
           ∧ pdf_first_pages_text_lines (inr (PageText None :: ps)) 1 = inr []).
Proof.
  split; [|split].
  - intros [e|ps] pages lines; simpl; [discriminate|]. intros [= <-].
    apply text_lines_clean.
  - reflexivity.
  - intros ps. split; reflexivity.
Qed.

Lemma X4_first_page_lines_are_clean_witness :
  Forall (fun l => l ≠ [] ∧ spaces_normal l)
         [py "Flow past a cylinder"; py "Jane Roe"].
Proof.
  apply (proj1 X4_first_page_lines_are_clean
           (inr [PageText (Some (py "  Flow  past a cylinder " ++ newline ++ newline
                                 ++ py "Jane Roe"))]) 1%nat).
  vm_compute. reflexivity.
Defined.

Lemma collect_block_length n lines :
  (length (collect_block n lines) ≤ Nat.max 1 (12 - n))%nat.
Proof.
  revert n. induction lines as [|l lines IH]; intros n; cbn [collect_block length];
    [lia|].
  destruct (negb (nonempty (strip l))); [cbn [length]; lia|].
  destruct (contains_any (lower (strip l)) BLOCK_STOPPERS); [cbn [length]; lia|].
  destruct (endswith (lower (strip l)) (py ":") && (length (lower (strip l)) <? 40)%nat);
    [cbn [length]; lia|].
  destruct (Nat.leb_spec 12 (S n)) as [H|H]; cbn [length]; [lia|].
  specialize (IH (S n)). lia.
Qed.

Lemma collect_block_clean n lines :
  Forall (fun l => l ≠ [] ∧ spaces_normal l) (collect_block n lines).
Proof.
  revert n. induction lines as [|l lines IH]; intros n; cbn [collect_block];
    [constructor|].
  destruct (negb (nonempty (strip l))) eqn:E; [constructor|].
  destruct (contains_any (lower (strip l)) BLOCK_STOPPERS); [constructor|].
  destruct (endswith (lower (strip l)) (py ":") && (length (lower (strip l)) <? 40)%nat);
    [constructor|].
  assert (_norm_spaces (strip l) ≠ [] ∧ spaces_normal (_norm_spaces (strip l))) as Hl.
  { split; [|apply norm_spaces_normal]. rewrite norm_spaces_nil_iff.
    unfold strip. rewrite strip_by_idem. fold (strip l).
    destruct (strip l); [discriminate|discriminate]. }
  destruct (12 <=? S n)%nat; constructor; auto; constructor.
Qed.

Lemma after_label_none label_low lines :
  after_label label_low lines = None ↔
  Forall (fun ln => is_label_line label_low ln = false) lines.
Proof.
  induction lines as [|ln lines IH]; cbn [after_label].
  - split; [constructor|reflexivity].
  - rewrite List.Forall_cons_iff. unfold is_label_line at 1.
    destruct (startswith (strip (lower ln)) label_low); cbn [orb].
    + split; [discriminate|]. intros [H _]. discriminate.
    + destruct (str_eqb (strip (lower ln)) (strip_chars (py ":") label_low)).
      * split; [discriminate|]. intros [H _]. discriminate.
      * rewrite IH. tauto.
Qed.

(** X5. [extract_block_after_label] returns at most 12 lines, none empty and
    each in normal form; it returns no line when no line is the label line
    (starts with the label, or is the label without its colon, case and outer
    whitespace apart). *)
Theorem X5_block_after_label_is_bounded (lines : list str) (label : str) :
  (length (extract_block_after_label lines label) ≤ 12)%nat
  ∧ Forall (fun l => l ≠ [] ∧ spaces_normal l) (extract_block_after_label lines label)
  ∧ (Forall (fun ln => is_label_line (lower label) ln = false) lines →
     extract_block_after_label lines label = []).
Proof.
  unfold extract_block_after_label. split; [|split].
  - destruct (after_label (lower label) lines) as [rest|]; [|simpl; lia].
    pose proof (collect_block_length 0 rest). lia.
  - destruct (after_label (lower label) lines) as [rest|]; [|constructor].
    apply collect_block_clean.
  - intros H. apply after_label_none in H. rewrite H. reflexivity.
Qed.

Lemma X5_block_after_label_is_bounded_witness :
  extract_block_after_label [py "Flow past a cylinder"; py "Jane Roe"] (py "author:") = [].
Proof.
  apply (proj2 (proj2 (X5_block_after_label_is_bounded
                         [py "Flow past a cylinder"; py "Jane Roe"] (py "author:")))).
  vm_compute. repeat constructor.
Defined.

End LinesFacts.

Section NamesFacts.
Import ParsePdfs TextShape BlockShape AuthorRules NoiseRules.

Lemma dedup_by_keys_nonempty (key : str → str) (seen : gset str)
    (names : list str) (n : str) :
  In n (dedup_by key true seen names) → nonempty (key n) = true.
Proof.
  revert seen. induction names as [|m names IH]; intros seen; cbn [dedup_by];
    [intros []|].
  destruct ((negb true || nonempty (key m)) && bool_decide (key m ∉ seen)) eqn:E.
  - intros [<-|H]; [|eapply IH, H].
    apply andb_true_iff in E as [E _]. exact E.
  - apply IH.
Qed.

(** The de-duplication loop leaves a list alone whose keys are pairwise
    distinct, new, and not empty where empty keys are skipped. *)
Lemma dedup_by_fixed (key : str → str) (skip : bool) (seen : gset str)
    (names : list str) :
  NoDup (map key names) →
  (∀ n, In n names → (key n ∉ seen) ∧ (skip = true → nonempty (key n) = true)) →
  dedup_by key skip seen names = names.
Proof.
  revert seen. induction names as [|n names IH]; intros seen Hd Hall; [reflexivity|].
  cbn [dedup_by]. cbn [map] in Hd. apply NoDup_cons in Hd as [Hn Hd].
  destruct (Hall n (or_introl eq_refl)) as [Hseen Hne].
  assert (((negb skip || nonempty (key n)) && bool_decide (key n ∉ seen)) = true) as ->.
  { apply andb_true_iff. split; [|apply bool_decide_eq_true; exact Hseen].
    destruct skip; [apply Hne; reflexivity|reflexivity]. }
  f_equal. apply IH; [exact Hd|]. intros m Hm.
  destruct (Hall m (or_intror Hm)) as [Hms Hmne]. split; [|exact Hmne].
  intros H. apply elem_of_union in H as [H|H]; [|exact (Hms H)].
  apply elem_of_singleton in H. apply Hn. rewrite <- H.
  apply list_elem_of_In, in_map, Hm.
Qed.

Lemma filter_fixed {A} (f : A → bool) (l : list A) :
  (∀ x, In x l → f x = true) → List.filter f l = l.
Proof.
  induction l as [|a l IH]; intros H; [reflexivity|]. simpl.
  rewrite (H a) by (left; reflexivity). f_equal. apply IH.
  intros x Hx. apply H. right. exact Hx.
Qed.

Lemma filter_name_lines_name_like lines n :
  In n (filter_name_lines lines) → In n lines ∧ name_like n = true.
Proof.
  intros H. destruct (filter_name_lines_spec lines) as [_ Hs].
  apply (sublist_In _ _ _ Hs), filter_In in H. exact H.
Qed.

Lemma filter_name_lines_idem lines :
  filter_name_lines (filter_name_lines lines) = filter_name_lines lines.
Proof.
  unfold filter_name_lines at 1.
  rewrite filter_fixed by (intros x Hx; apply filter_name_lines_name_like in Hx; tauto).
  apply dedup_by_fixed; [apply filter_name_lines_spec|].
  intros n Hn. split; [apply not_elem_of_empty|]. intros _.
  unfold filter_name_lines in Hn. eapply dedup_by_keys_nonempty, Hn.
Qed.

Lemma name_like_spec n :
  name_like n = true →
  _looks_like_noise_line n = false
  ∧ has_digit n = false
  ∧ contains (lower n) (py "university") = false
  ∧ has_email_marker n = false
  ∧ (1 ≤ length (split_ws n) ≤ 5)%nat
  ∧ (4 ≤ length (List.filter is_letter n))%nat.
Proof.
  unfold name_like, has_digit, has_email_marker. cbv zeta.
  rewrite <- (found_cls is_digit). change (Cls is_digit) with digit.
  destruct (_looks_like_noise_line n); [discriminate|].
  destruct (found digit n); [discriminate|].
  destruct (contains (lower n) (py "university")); [discriminate|].
  destruct (contains n [at_sign]); [discriminate|].
  destruct ((1 <=? length (split_ws n))%nat && (length (split_ws n) <=? 5)%nat) eqn:E;
    [|discriminate]. cbn [negb].
  apply andb_true_iff in E as [E1 E2]. apply Nat.leb_le in E1, E2.
  destruct (Nat.ltb_spec (length (List.filter is_letter n)) 4); [discriminate|].
  intros _. repeat split; assumption.
Qed.

(** X6. [filter_name_lines] is idempotent, and every line it keeps is a line
    of its input that is no noise, has no digit, no "university", no "@",
    one to five words, at least four letters, and a person key that is not
    empty. *)
Theorem X6_filter_name_lines_keeps_names (lines : list str) :
  filter_name_lines (filter_name_lines lines) = filter_name_lines lines
  ∧ ∀ n, In n (filter_name_lines lines) →
      In n lines
      ∧ _looks_like_noise_line n = false
      ∧ has_digit n = false
      ∧ contains (lower n) (py "university") = false
      ∧ has_email_marker n = false
      ∧ (1 ≤ length (split_ws n) ≤ 5)%nat
      ∧ (4 ≤ length (List.filter is_letter n))%nat
      ∧ _norm_person n ≠ [].
Proof.
  split; [apply filter_name_lines_idem|]. intros n Hn.
  destruct (filter_name_lines_name_like lines n Hn) as [Hin Hl].
  destruct (name_like_spec n Hl) as (H1 & H2 & H3 & H4 & H5 & H6).
  repeat split; try assumption; try tauto.
  unfold filter_name_lines in Hn. apply dedup_by_keys_nonempty in Hn.
  destruct (_norm_person n); [discriminate|discriminate].
Qed.

Lemma X6_filter_name_lines_keeps_names_witness :
  In (py "Jane Roe") [py "Jane Roe"; py "Chalmers University"; py "JANE ROE"]
  ∧ has_digit (py "Jane Roe") = false.
Proof.
  destruct (proj2 (X6_filter_name_lines_keeps_names
                     [py "Jane Roe"; py "Chalmers University"; py "JANE ROE"])
                  (py "Jane Roe")) as (H1 & _ & H2 & _).
  - vm_compute. left. reflexivity.
  - split; assumption.
Defined.

(** X7. The label-anchored author extractor reports no result or at least
    one author, never an empty list; it reports no result exactly when the
    name filter keeps no line of the "Author:" block, so also when no line of
    the page is an "Author:" label line. *)
Theorem X7_fallback_authors_none_or_some (lines : list str) :
  (∀ res, fallback_authors_from_lines lines = Some res → res ≠ [])
  ∧ (fallback_authors_from_lines lines = None ↔ author_names lines = [])
  ∧ (Forall (fun ln => is_label_line (py "author:") ln = false) lines →
     fallback_authors_from_lines lines = None).
Proof.
  rewrite fallback_authors_cases.
  assert (Forall (fun ln => is_label_line (py "author:") ln = false) lines →
          author_names lines = []) as Hno.
  { intros H. unfold author_names, extract_block_after_label.
    change (lower (py "author:")) with (py "author:").
    apply after_label_none in H. rewrite H. reflexivity. }
  destruct (author_names lines) as [|a l] eqn:E.
  - repeat split; try discriminate; reflexivity.
  - split; [|split].
    + intros res. destruct (List.filter _ (a :: l)); intros [= <-]; discriminate.
    + split; [|discriminate]. destruct (List.filter _ (a :: l)); discriminate.
    + intros H. apply Hno in H. discriminate.
Qed.

Lemma X7_fallback_authors_none_or_some_witness :
  fallback_authors_from_lines [py "Flow past a cylinder"; py "Jane Roe"] = None
  ∧ [py "Jane Roe"] ≠ [].
Proof.
  destruct (X7_fallback_authors_none_or_some [py "Flow past a cylinder"; py "Jane Roe"])
    as (_ & _ & H).
  destruct (X7_fallback_authors_none_or_some page_author_is_peer) as (H' & _).
  split.
  - apply H. vm_compute. repeat constructor.
  - apply H'. vm_compute. reflexivity.
Defined.

End NamesFacts.

(** ** Title candidates *)

Section TitleFacts.
Import ParsePdfs TextShape TitleShape.
Local Open Scope Z_scope.

Lemma cite_as_spec lines t :
  extract_title_from_cite_as lines = Some t →
  (4 ≤ length (split_ws t))%nat ∧ _looks_like_noise_line t = false
  ∧ ∃ ln, In ln lines ∧ has_cite_marker ln = true.
Proof.
  unfold has_cite_marker.
  induction lines as [|ln lines IH]; cbn [extract_title_from_cite_as]; [discriminate|].
  cbv zeta. destruct (contains (lower ln) (py "cite as:")) eqn:Ec; cbn [negb].
  - match goal with
    | |- (if ?c then _ else _) = _ → _ => destruct c eqn:E
    end.
    + intros [= <-]. apply andb_true_iff in E as [E1 E2].
      apply Nat.leb_le in E1. apply negb_true_iff in E2.
      split; [exact E1|]. split; [exact E2|]. exists ln. split; [left; reflexivity|exact Ec].
    + intros H. destruct (IH H) as (H1 & H2 & l' & Hl & Hc).
      split; [exact H1|]. split; [exact H2|]. exists l'. split; [right; exact Hl|exact Hc].
  - intros H. destruct (IH H) as (H1 & H2 & l' & Hl & Hc).
    split; [exact H1|]. split; [exact H2|]. exists l'. split; [right; exact Hl|exact Hc].
Qed.

Lemma cite_as_none lines :
  Forall (fun ln => has_cite_marker ln = false) lines →
  extract_title_from_cite_as lines = None.
Proof.
  unfold has_cite_marker.
  induction 1 as [|ln lines Hc _ IH]; cbn [extract_title_from_cite_as]; [reflexivity|].
  cbv zeta. rewrite Hc. exact IH.
Qed.

Lemma span_step_shape lines i best span :
  best_shape_stmt best → best_shape_stmt (span_step lines i best span).
Proof.
  intros Hb. unfold span_step. cbv zeta.
  repeat match goal with
  | |- best_shape_stmt (if ?c then best else _) => destruct c eqn:?; [exact Hb|]
  end.
  match goal with
  | |- best_shape_stmt (if ?c then _ else best) => destruct c; [|exact Hb]
  end.
  intros t [= <-].
  match goal with
  | H : (_ <? 4)%nat || (35 <? _)%nat = false |- _ =>
      apply orb_false_iff in H as [H1 H2];
      apply Nat.ltb_ge in H1, H2
  end.
  match goal with
  | H : (220 <? _)%nat = false |- _ => apply Nat.ltb_ge in H
  end.
  split; [lia|]. split; [assumption|apply norm_spaces_normal].
Qed.

Lemma fold_left_inv {A B} (P : A → Prop) (f : A → B → A) (l : list B) (a : A) :
  (∀ a b, P a → P (f a b)) → P a → P (fold_left f l a).
Proof.
  intros Hf. revert a. induction l as [|b l IH]; intros a Ha; [exact Ha|].
  simpl. apply IH, Hf, Ha.
Qed.

Lemma trim_top_from kept lines l :
  In l (trim_top kept lines) → ∃ x, In x lines ∧ l = _norm_spaces x.
Proof.
  revert kept. induction lines as [|x lines IH]; intros kept; cbn [trim_top];
    [intros []|].
  cbv zeta. destruct (negb (nonempty (_norm_spaces x))).
  { intros H. destruct (IH _ H) as (y & Hy & ->). eauto using in_cons. }
  destruct (_is_section_label_line (_norm_spaces x) (py "abstract")
            || _is_section_label_line (_norm_spaces x) (py "keywords")
            || _is_section_label_line (_norm_spaces x) (py "key words")); [intros []|].
  destruct (35 <=? S kept)%nat.
  - intros [<-|[]]. exists x. split; [left; reflexivity|reflexivity].
  - intros [<-|H]; [exists x; split; [left; reflexivity|reflexivity]|].
    destruct (IH _ H) as (y & Hy & ->). eauto using in_cons.
Qed.

Lemma In_take {A} n (l : list A) x : In x (take n l) → In x l.
Proof.
  intros H. apply list_elem_of_In. apply list_elem_of_In in H.
  eapply elem_of_sublist; [exact H|apply sublist_take].
Qed.

(** X8. A title candidate of the first page has at least four words.  It is
    either the title of a "cite as:" line, and then no noise, or, when no
    such title is found, a span of the page with at most 35 words and 220
    characters, in normal form.  A page without a "cite as:" line whose
    lines are all noise has no candidate. *)
Theorem X8_title_candidate_shape (lines : list str) :
  (∀ t, extract_title_from_pdf_lines lines = Some t →
     (4 ≤ length (split_ws t))%nat
     ∧ ((extract_title_from_cite_as lines = Some t ∧ _looks_like_noise_line t = false)
        ∨ (extract_title_from_cite_as lines = None ∧ span_shape t)))
  ∧ (Forall (fun ln => has_cite_marker ln = false
                       ∧ _looks_like_noise_line ln = true) lines →
     extract_title_from_pdf_lines lines = None).
Proof.
  unfold extract_title_from_pdf_lines. split.
  - intros t. destruct (extract_title_from_cite_as lines) as [c|] eqn:Ec.
    + intros [= <-]. destruct (cite_as_spec _ _ Ec) as (H1 & H2 & _).
      split; [exact H1|]. left. split; [reflexivity|exact H2].
    + cbv zeta. destruct (trim_top 0 (take 80 lines)) as [|l0 ls] eqn:Et; [discriminate|].
      intros H.
      assert (span_shape t) as Hs.
      { revert t H. change (best_shape_stmt
          (fold_left
             (fun best i =>
                match (l0 :: ls) !! i with
                | Some li =>
                    if _looks_like_noise_line li then best
                    else fold_left (span_step (l0 :: ls) i) [1; 2; 3]%nat best
                | None => best
                end) (seq 0 (length (l0 :: ls))) (None, - 10 ^ 9))).
        apply (fold_left_inv best_shape_stmt); [|intros t; discriminate].
        intros best i Hb. destruct ((l0 :: ls) !! i) as [li|]; [|exact Hb].
        destruct (_looks_like_noise_line li); [exact Hb|].
        apply (fold_left_inv best_shape_stmt); [|exact Hb].
        intros b sp. apply span_step_shape. }
      split; [destruct Hs as [Hw _]; lia|]. right. split; [reflexivity|exact Hs].
  - intros Hall.
    rewrite cite_as_none
      by (eapply List.Forall_impl; [|exact Hall]; cbv beta; tauto).
    cbv zeta. destruct (trim_top 0 (take 80 lines)) as [|l0 ls] eqn:Et; [reflexivity|].
    rewrite <- Et.
    assert (∀ l, In l (trim_top 0 (take 80 lines)) → _looks_like_noise_line l = true)
      as Hnoise.
    { intros l Hl. apply trim_top_from in Hl as (x & Hx & ->).
      rewrite noise_line_normalised. apply In_take in Hx.
      rewrite List.Forall_forall in Hall. apply (Hall x Hx). }
    set (tl := trim_top 0 (take 80 lines)) in *.
    assert (∀ idx best,
      fold_left
        (fun best i =>
           match tl !! i with
           | Some li =>
               if _looks_like_noise_line li then best
               else fold_left (span_step tl i) [1; 2; 3]%nat best
           | None => best
           end) idx best = best) as Hfold.
    { induction idx as [|i idx IH]; intros best; [reflexivity|].
      cbn [fold_left]. destruct (tl !! i) as [li|] eqn:E; [|apply IH].
      rewrite (Hnoise li); [apply IH|].
      apply list_elem_of_In. eapply list_elem_of_lookup_2, E. }
    rewrite Hfold. reflexivity.
Qed.

Lemma X8_title_candidate_shape_witness :
  (4 ≤ length (split_ws (py "Flow past a heated cylinder")))%nat
  ∧ extract_title_from_pdf_lines [py "https://doi.org/10.1000/j.2021.01"] = None.
Proof.
  split.
  - apply (proj1 (X8_title_candidate_shape
                    [py "Flow past a heated cylinder"])
                 (py "Flow past a heated cylinder")).
    vm_compute. reflexivity.
  - apply (proj2 (X8_title_candidate_shape [py "https://doi.org/10.1000/j.2021.01"])).
    constructor; [split; vm_compute; reflexivity|constructor].
Defined.

End TitleFacts.

(** ** Header texts and names *)

Section HeaderTextFacts.
Import ParsePdfs TextShape HeaderShape.

Lemma split_ws_words s : Forall is_word_text (split_ws s).
Proof.
  induction s as [|c s IH]; [constructor|].
  destruct (is_space c) eqn:Hc; [rewrite split_ws_space by assumption; exact IH|].
  destruct s as [|d s'].
  - rewrite split_ws_single by assumption. repeat constructor; [discriminate|exact Hc].
  - destruct (is_space d) eqn:Hd.
    + rewrite split_ws_word_end by assumption.
      constructor; [|exact IH]. repeat constructor; [discriminate|exact Hc].
    + rewrite split_ws_word_on by assumption.
      destruct (split_ws (d :: s')) as [|w ws].
      * repeat constructor; [discriminate|exact Hc].
      * inversion IH as [|? ? [Hw1 Hw2] Hws]; subst.
        constructor; [|exact Hws]. split; [discriminate|constructor; assumption].
Qed.

Lemma split_ws_word_then w r :
  is_word_text w → split_ws (w ++ 32%N :: r) = w :: split_ws r.
Proof.
  intros [Hne Hw]. induction w as [|a w IH]; [congruence|].
  inversion Hw as [|? ? Ha Hw']; subst. destruct w as [|b w'].
  - cbn [app]. rewrite split_ws_word_end by (assumption || reflexivity).
    rewrite split_ws_space by reflexivity. reflexivity.
  - inversion Hw' as [|? ? Hb _]; subst. cbn [app].
    rewrite split_ws_word_on by assumption.
    cbn [app] in IH. rewrite IH by (discriminate || assumption). reflexivity.
Qed.

Lemma split_ws_one_word w : is_word_text w → split_ws w = [w].
Proof.
  intros [Hne Hw]. induction w as [|a w IH]; [congruence|].
  inversion Hw as [|? ? Ha Hw']; subst. destruct w as [|b w'].
  - apply split_ws_single, Ha.
  - inversion Hw' as [|? ? Hb _]; subst.
    rewrite split_ws_word_on by assumption.
    rewrite IH by (discriminate || assumption). reflexivity.
Qed.

Lemma join_cons2 sep (p q : str) rest :
  join sep (p :: q :: rest) = p ++ sep ++ join sep (q :: rest).
Proof. reflexivity. Qed.

Lemma join_head_not_space ws :
  Forall is_word_text ws → head_not_space_stmt (join (py " ") ws).
Proof.
  intros H. destruct H as [|w ws [Hne Hw] _]; [exact I|].
  destruct w as [|a w]; [congruence|]. inversion Hw; subst.
  destruct ws; simpl; assumption.
Qed.

(** Words joined by single spaces split into the same words. *)
Lemma split_ws_join ws :
  Forall is_word_text ws → split_ws (join (py " ") ws) = ws.
Proof.
  induction 1 as [|w ws Hw Hws IH]; [reflexivity|].
  destruct ws as [|w2 rest]; [apply split_ws_one_word, Hw|].
  rewrite join_cons2. change (py " " ++ ?x) with (32%N :: x).
  rewrite split_ws_word_then by exact Hw. rewrite IH. reflexivity.
Qed.

Lemma no_ws_run_word_then w r :
  Forall not_space w → no_ws_run r = true → no_ws_run (w ++ r) = true.
Proof.
  intros Hw Hr. induction Hw as [|a w Ha _ IH]; [exact Hr|].
  cbn [app]. apply no_ws_run_cons; [left; exact Ha|exact IH].
Qed.

Lemma no_ws_run_join ws :
  Forall is_word_text ws → no_ws_run (join (py " ") ws) = true.
Proof.
  induction 1 as [|w ws [Hne Hw] Hws IH]; [reflexivity|].
  destruct ws as [|w2 rest].
  - cbn [join]. rewrite <- (app_nil_r w). apply no_ws_run_word_then; [exact Hw|reflexivity].
  - rewrite join_cons2. change (py " " ++ ?x) with (32%N :: x).
    apply no_ws_run_word_then; [exact Hw|].
    apply no_ws_run_cons; [right; apply join_head_not_space, Hws|exact IH].
Qed.

Lemma rstrip_by_fixed_app p x r :
  r ≠ [] → rstrip_by p r = r → rstrip_by p (x ++ r) = x ++ r.
Proof.
  intros Hne Hr. induction x as [|a x IH]; [exact Hr|].
  cbn [app rstrip_by]. rewrite IH.
  destruct (x ++ r) eqn:E; [|reflexivity].
  apply app_eq_nil in E as [_ E]. congruence.
Qed.

Lemma rstrip_word w : is_word_text w → rstrip_by is_space w = w.
Proof.
  intros [Hne Hw]. induction w as [|a w IH]; [congruence|].
  inversion Hw as [|? ? Ha Hw']; subst. cbn [rstrip_by].
  destruct w as [|b w'].
  - cbn [rstrip_by]. unfold not_space in Ha. rewrite Ha. reflexivity.
  - rewrite IH by (discriminate || assumption). reflexivity.
Qed.

Lemma rstrip_join ws :
  Forall is_word_text ws → rstrip_by is_space (join (py " ") ws) = join (py " ") ws.
Proof.
  induction 1 as [|w ws Hw Hws IH]; [reflexivity|].
  destruct ws as [|w2 rest]; [apply rstrip_word, Hw|].
  rewrite join_cons2, app_assoc. apply rstrip_by_fixed_app; [|exact IH].
  inversion Hws as [|? ? [Hne _] _]; subst.
  destruct w2; [congruence|]. destruct rest; discriminate.
Qed.

Lemma join_words_normal ws :
  Forall is_word_text ws → spaces_normal (join (py " ") ws).
Proof.
  intros H. split; [|apply no_ws_run_join, H].
  unfold strip, strip_by.
  rewrite (lstrip_by_fixed is_space) by (apply join_head_not_space, H).
  apply rstrip_join, H.
Qed.

Lemma text_is_join t : _text (Some t) = join (py " ") (split_ws t).
Proof. unfold _text. apply join_words_normal, split_ws_words. Qed.

(** X9. [_text] gives the words of an element's text joined by single
    spaces: the result has the words of the text, is in normal form, and is
    its own [_text]; a missing element gives the empty text. *)
Theorem X9_text_is_words_joined (t : str) :
  _text (Some t) = join (py " ") (split_ws t)
  ∧ split_ws (_text (Some t)) = split_ws t
  ∧ spaces_normal (_text (Some t))
  ∧ _text (Some (_text (Some t))) = _text (Some t)
  ∧ _text None = [].
Proof.
  assert (split_ws (_text (Some t)) = split_ws t) as Hw.
  { rewrite text_is_join. apply split_ws_join, split_ws_words. }
  split; [apply text_is_join|]. split; [exact Hw|].
  split; [rewrite text_is_join; apply join_words_normal, split_ws_words|].
  split; [|reflexivity].
  rewrite (text_is_join (_text (Some t))), Hw, <- text_is_join. reflexivity.
Qed.

Lemma norm_name_shape x : _norm_name x ≠ [] → name_shape (_norm_name x) ∧ _norm_name x = _norm_spaces x.
Proof.
  unfold _norm_name. cbv zeta. fold (_norm_spaces x).
  destruct (negb (nonempty (_norm_spaces x))) eqn:E1; [congruence|].
  destruct (contains_any (lower (_norm_spaces x)) NON_NAME_WORDS) eqn:E2; [congruence|].
  destruct (found digit (_norm_spaces x)) eqn:E3; [congruence|].
  destruct (6 <? length (split_ws (_norm_spaces x)))%nat eqn:E4; [congruence|].
  intros Hne. split; [|reflexivity]. split; [exact Hne|].
  split; [apply norm_spaces_normal|].
  split; [rewrite <- found_cls; exact E3|].
  split; [exact E2|]. apply Nat.ltb_ge in E4. exact E4.
Qed.

Lemma author_name_shape a name : author_name a = Some name → name_shape name.
Proof.
  unfold author_name. destruct a as [pers|]; [|discriminate]. cbv zeta.
  match goal with
  | |- (if nonempty ?n then _ else _) = _ → _ => destruct n eqn:E; [discriminate|]
  end.
  cbn [nonempty]. intros [= <-]. rewrite <- E. apply norm_name_shape. rewrite E. discriminate.
Qed.

(** X10. Every author name taken from the header is not empty, in normal
    form, has no digit, none of the words "university", "department",
    "republic", "rights", "permission", "http", "www" in any case, and at
    most six words. *)
Theorem X10_header_authors_are_name_shaped (tei : Tei) :
  Forall name_shape (header_authors tei).
Proof.
  apply List.Forall_forall. intros a Ha.
  destruct (header_authors_distinct tei) as [_ Hs].
  apply (sublist_In _ _ _ Hs) in Ha.
  apply list_elem_of_In, list_elem_of_omap in Ha as (p & _ & Hp).
  eapply author_name_shape, Hp.
Qed.

End HeaderTextFacts.

(** ** The year of the header and of the record *)

Section HeaderYearFacts.
Import ParsePdfs YearSelection HeaderYear Pipeline Examples.
Local Open Scope Z_scope.

Lemma newest_at_top_unique pool y y' :
  newest_at_top pool y → newest_at_top pool y' → y = y'.
Proof.
  intros (s & [_ Hs] & Hin & Hy) (s' & [_ Hs'] & Hin' & Hy').
  assert (s = s') as <-.
  { pose proof (Hs _ _ Hin'). pose proof (Hs' _ _ Hin). lia. }
  pose proof (Hy _ Hin'). pose proof (Hy' _ Hin). lia.
Qed.

Lemma newest_at_top_same_pairs pool pool' y :
  (∀ p, In p pool ↔ In p pool') → newest_at_top pool y → newest_at_top pool' y.
Proof.
  intros H (s & [[y0 H0] Hs] & Hin & Hy). exists s. split; [split|split].
  - exists y0. apply H, H0.
  - intros y1 s1 H1. apply (Hs y1), H, H1.
  - apply H, Hin.
  - intros y1 H1. apply Hy, H, H1.
Qed.

(** X11. [_pick_best_year_scored] finds no year exactly on the empty pool,
    and the year it finds depends on which pairs are in the pool only, not on
    their order or on how often a pair occurs. *)
Theorem X11_year_choice_ignores_order (pool pool' : list (Z * Z)) :
  (_pick_best_year_scored pool = None ↔ pool = [])
  ∧ ((∀ p, In p pool ↔ In p pool') →
     _pick_best_year_scored pool = _pick_best_year_scored pool').
Proof.
  assert (∀ l, _pick_best_year_scored l = None ↔ l = []) as Hnone.
  { intros l. split; [|intros ->; reflexivity].
    destruct l as [|p l]; [reflexivity|]. intros H.
    destruct (pick_best_newest_at_top (p :: l)) as (y & Hy & _); congruence. }
  split; [apply Hnone|]. intros Hsame.
  destruct pool as [|p pool0] eqn:E.
  - destruct pool' as [|q ?]; [reflexivity|].
    exfalso. apply (proj2 (Hsame q)). left. reflexivity.
  - rewrite <- E in *.
    assert (pool ≠ []) as Hne by (rewrite E; discriminate).
    assert (pool' ≠ []) as Hne'.
    { intros ->. apply (proj1 (Hsame p)). rewrite E. left. reflexivity. }
    destruct (pick_best_newest_at_top pool Hne) as (y & -> & Hy).
    destruct (pick_best_newest_at_top pool' Hne') as (y' & -> & Hy').
    f_equal. eapply newest_at_top_unique; [|exact Hy'].
    eapply newest_at_top_same_pairs; eassumption.
Qed.

Lemma X11_year_choice_ignores_order_witness :
  _pick_best_year_scored [(2019, 70); (2021, 95); (2020, 95)]
  = _pick_best_year_scored [(2020, 95); (2019, 70); (2021, 95); (2020, 95)].
Proof.
  apply (proj2 (X11_year_choice_ignores_order
                  [(2019, 70); (2021, 95); (2020, 95)]
                  [(2020, 95); (2019, 70); (2021, 95); (2020, 95)])).
  intros p. simpl. intuition.
Defined.







(** X13. Every year read off a text is in the range 1950 to the current
    year plus one: the candidates of [_year_candidates], the year of the
    raw-text fallback, and the year of a header none of whose dates carries
    a [when] attribute. *)
Theorem X13_text_years_are_in_range (cy : Z) :
  (∀ text y, In y (_year_candidates cy text) → 1950 ≤ y ≤ cy + 1)
  ∧ (∀ text y, fallback_year_from_text cy text = Some y → 1950 ≤ y ≤ cy + 1)
  ∧ (∀ tei y,
       (∀ d, In d (tei_imprint_dates tei ++ tei_header_dates tei) →
             date_when d = None) →
       _pick_best_year_scored (header_year_pool cy tei) = Some y →
       1950 ≤ y ≤ cy + 1).
Proof.
  split; [apply year_candidates_in_range|].
  split; [apply fallback_year_in_range|apply header_year_in_range_without_when].
Qed.

Lemma X13_text_years_are_in_range_witness :
  1950 ≤ 2021 ≤ 2026 + 1.
Proof.
  apply (proj1 (proj2 (X13_text_years_are_in_range 2026))
           (copyright_sign ++ py " 2021 IEEE")).
  vm_compute. reflexivity.
Defined.



End HeaderYearFacts.

(** ** Paths and authors of the record *)

Section RecordFacts.
Import ParsePdfs Pipeline Examples AuthorRules.

Lemma cut_char_cons c x s :
  cut [c] (x :: s)
  = if c =? x then Some ([], s)
    else match cut [c] s with
         | Some (a, b) => Some (x :: a, b)
         | None => None
         end.
Proof.
  cbn [cut]. replace (startswith (x :: s) [c]) with (c =? x); [reflexivity|].
  cbn [startswith]. destruct s; rewrite andb_true_r; reflexivity.
Qed.

Lemma cut_char c s :
  match cut [c] s with
  | Some (a, b) => s = a ++ c :: b ∧ ¬ In c a
  | None => ¬ In c s
  end.
Proof.
  induction s as [|x s IH]; [simpl; tauto|].
  rewrite cut_char_cons. destruct (N.eqb_spec c x) as [->|Hne].
  - split; [reflexivity|intros []].
  - destruct (cut [c] s) as [[a b]|].
    + destruct IH as [-> Hn]. split; [reflexivity|].
      intros [H|H]; [congruence|exact (Hn H)].
    + intros [H|H]; [congruence|exact (IH H)].
Qed.

Lemma cut_char_first c a b : ¬ In c a → cut [c] (a ++ c :: b) = Some (a, b).
Proof.
  induction a as [|x a IH]; intros Hn.
  - cbn [app]. rewrite cut_char_cons, N.eqb_refl. reflexivity.
  - cbn [app]. rewrite cut_char_cons.
    destruct (N.eqb_spec c x) as [->|Hne]; [exfalso; apply Hn; left; reflexivity|].
    rewrite IH; [reflexivity|]. intros H. apply Hn. right. exact H.
Qed.

Lemma basename_no_slash p : ¬ In 47 (basename p).
Proof.
  unfold basename, split1_first. change (py "/") with [47].
  pose proof (cut_char 47 (rev p)) as H. rewrite <- in_rev.
  destruct (cut [47] (rev p)) as [[a b]|]; [tauto|exact H].
Qed.

Lemma basename_of_join d n : ¬ In 47 n → basename (d ++ 47 :: n) = n.
Proof.
  intros Hn. unfold basename, split1_first. change (py "/") with [47].
  rewrite rev_app_distr. cbn [rev]. rewrite <- app_assoc. cbn [app].
  rewrite cut_char_first by (rewrite <- in_rev; exact Hn). apply rev_involutive.
Qed.

Lemma basename_plain p : ¬ In 47 p → basename p = p.
Proof.
  intros Hn. unfold basename, split1_first. change (py "/") with [47].
  pose proof (cut_char 47 (rev p)) as H.
  destruct (cut [47] (rev p)) as [[a b]|]; [|apply rev_involutive].
  destruct H as [H _]. exfalso. apply Hn. apply in_rev. rewrite H.
  apply in_app_iff. right. left. reflexivity.
Qed.

Lemma parse_pdf_paths cy path io :
  file_path (parse_pdf cy path io) = path
  ∧ file_name (parse_pdf cy path io) = basename path.
Proof.
  rewrite parse_pdf_stages. destruct (header_service io); [split; reflexivity|].
  cbv zeta. destruct (year_step cy t io); [split; reflexivity|].
  destruct (title_candidate io); [split; reflexivity|].
  destruct (fallback_authors_from_pdf _); split; reflexivity.
Qed.

(** X15. Whatever happens to a document, its record keeps the path it was
    given, and [file_name] is what follows the last slash of that path: it
    has no slash, it is the name [n] for a path [d/n], and the whole path
    when the path has no slash. *)
Theorem X15_record_keeps_its_path (cy : Z) (path : str) (io : pdf_io) :
  file_path (parse_pdf cy path io) = path
  ∧ ¬ In 47 (file_name (parse_pdf cy path io))
  ∧ (∀ d n, path = d ++ 47 :: n → ¬ In 47 n →
            file_name (parse_pdf cy path io) = n)
  ∧ (¬ In 47 path → file_name (parse_pdf cy path io) = path).
Proof.
  destruct (parse_pdf_paths cy path io) as [-> ->].
  split; [reflexivity|]. split; [apply basename_no_slash|].
  split; [intros d n -> Hn; apply basename_of_join, Hn|apply basename_plain].
Qed.

Lemma X15_record_keeps_its_path_witness :
  file_name (parse_pdf 2026 (py "/library/iccs/harvey.pdf") io_cite_as)
  = py "harvey.pdf"
  ∧ file_name (parse_pdf 2026 (py "harvey.pdf") io_timeout) = py "harvey.pdf".
Proof.
  split.
  - apply (proj1 (proj2 (proj2 (X15_record_keeps_its_path 2026
             (py "/library/iccs/harvey.pdf") io_cite_as))) (py "/library/iccs")).
    + reflexivity.
    + vm_compute. intuition discriminate.
  - apply (proj2 (proj2 (proj2 (X15_record_keeps_its_path 2026
             (py "harvey.pdf") io_timeout)))).
    vm_compute. intuition discriminate.
Defined.



End RecordFacts.

(** ** Citation keys, continued *)

Section KeyShapeFacts.
Import ParsePdfs MakeBibtex KeyExamples KeyShape HeaderShape.
Local Open Scope Z_scope.

Lemma uint_digits d :
  Forall (fun c => is_digit c = true) (py (NilEmpty.string_of_uint d)).
Proof. induction d; cbn; constructor; (reflexivity || assumption). Qed.

Lemma str_of_int_digits n :
  0 ≤ n → Forall (fun c => is_digit c = true) (str_of_int n).
Proof.
  intros Hn. unfold str_of_int. destruct n as [|p|p]; [repeat constructor| |lia].
  cbn [Z.to_int NilZero.string_of_int]. unfold NilZero.string_of_uint.
  destruct (Pos.to_uint p) eqn:E; try (rewrite <- E; apply uint_digits).
  repeat constructor.
Qed.

Lemma digits_key_chars s :
  Forall (fun c => is_digit c = true) s → key_chars s.
Proof.
  apply List.Forall_impl. intros c H. unfold is_key_char. rewrite H.
  apply orb_true_r.
Qed.

Lemma key_chars_app a b : key_chars a → key_chars b → key_chars (a ++ b).
Proof. intros Ha Hb. apply Forall_app. split; assumption. Qed.

Lemma key_of_normal rec :
  key_of rec = _normalize_key_token (base_key rec ++ y rec ++ w rec).
Proof.
  unfold key_of. cbv zeta.
  destruct (_normalize_key_token (base_key rec ++ y rec ++ w rec)) eqn:E;
    [|reflexivity].
  exfalso. destruct (base_key_spec rec) as [Hne Hkc].
  rewrite normalize_app, (normalize_key_chars _ Hkc) in E.
  destruct (base_key rec); [congruence|discriminate].
Qed.

Lemma emitted_key_chars (rec : DocumentRecord) (used : gmap str Z) :
  key_chars (make_bibtex_record rec used).1.
Proof.
  unfold make_bibtex_record. cbv zeta. cbn [fst].
  assert (key_chars (key_of rec)) as Hk
    by (rewrite key_of_normal; apply normalize_is_key_chars).
  destruct (default 0 (used !! key_of rec) >? 0) eqn:E; [|exact Hk].
  apply key_chars_app; [exact Hk|]. apply digits_key_chars, str_of_int_digits.
  apply Z.gtb_gt in E. lia.
Qed.

Lemma bib_records_key_chars (recs : list DocumentRecord) (used : gmap str Z) :
  Forall key_chars (bib_records recs used).
Proof.
  revert used. induction recs as [|r recs IH]; intros used; [constructor|].
  cbn [bib_records]. pose proof (emitted_key_chars r used) as H.
  destruct (make_bibtex_record r used) as [k used']. constructor; [exact H|apply IH].
Qed.

(** X17. [_normalize_key_token] keeps the characters a to z and 0 to 9 only,
    leaves a token of such characters as it is, so that normalising twice is
    normalising once, and normalises a concatenation part by part. *)
Theorem X17_normalize_key_token_laws (a b : str) :
  key_chars (_normalize_key_token a)
  ∧ _normalize_key_token (_normalize_key_token a) = _normalize_key_token a
  ∧ _normalize_key_token (a ++ b) = _normalize_key_token a ++ _normalize_key_token b
  ∧ (_normalize_key_token a = a ↔ key_chars a).
Proof.
  split; [apply normalize_is_key_chars|].
  split; [apply normalize_key_chars, normalize_is_key_chars|].
  split; [apply normalize_app|].
  split; [intros <-; apply normalize_is_key_chars|apply normalize_key_chars].
Qed.

Lemma X17_normalize_key_token_laws_witness :
  _normalize_key_token (py "roe2020flow") = py "roe2020flow".
Proof.
  apply (proj2 (proj2 (proj2 (proj2
           (X17_normalize_key_token_laws (py "roe2020flow") []))))).
  repeat constructor.
Defined.

(** X18. The key before numbering is the surname component, then the
    normalised year component, then the normalised title word; the
    alternative "ref" followed by the year is never taken.  A year that is
    not negative appears in the key as it is.  Every key that is emitted, the
    number included, has the characters a to z and 0 to 9 only. *)
Theorem X18_key_is_three_normalised_parts
    (rec : DocumentRecord) (used_keys : gmap str Z) :
  key_of rec = base_key rec ++ _normalize_key_token (y rec)
                 ++ _normalize_key_token (w rec)
  ∧ (∀ n, year rec = Some n → 0 ≤ n →
          _normalize_key_token (y rec) = str_of_int n)
  ∧ (year rec = None → _normalize_key_token (y rec) = py "nodate")
  ∧ key_chars (make_bibtex_record rec used_keys).1
  ∧ ∀ recs, Forall key_chars (MakeBibtex.process_root recs).
Proof.
  split; [|split; [|split; [|split]]].
  - rewrite key_of_normal, !normalize_app.
    rewrite (normalize_key_chars _ (proj2 (base_key_spec rec))). reflexivity.
  - intros n Hy Hn. unfold y. rewrite Hy.
    apply normalize_key_chars, digits_key_chars, str_of_int_digits, Hn.
  - intros Hy. unfold y. rewrite Hy. reflexivity.
  - apply emitted_key_chars.
  - intros recs. apply bib_records_key_chars.
Qed.

Lemma X18_key_is_three_normalised_parts_witness :
  _normalize_key_token (y rec_h2) = str_of_int 2020
  ∧ _normalize_key_token (y rec_blank) = py "nodate".
Proof.
  split.
  - apply (proj1 (proj2 (X18_key_is_three_normalised_parts rec_h2 ∅)) 2020);
      [reflexivity|lia].
  - apply (proj1 (proj2 (proj2 (X18_key_is_three_normalised_parts rec_blank ∅)))).
    reflexivity.
Defined.

End KeyShapeFacts.

Section KeyPartsFacts.
Import ParsePdfs MakeBibtex KeyExamples KeyShape HeaderShape.

Lemma lower_cp_not_upper c : is_upper_az (lower_cp c) = false.
Proof.
  unfold lower_cp. destruct (is_upper_az c) eqn:E; [|exact E].
  unfold is_upper_az in *.
  destruct (N.leb_spec 65 c), (N.leb_spec c 90); try discriminate.
  destruct (N.leb_spec 65 (c + 32)), (N.leb_spec (c + 32) 90); try reflexivity; lia.
Qed.

(** What the loop over the pieces of the title returns. *)
Lemma first_significant_spec ws :
  (first_significant ws ∉ _STOPWORDS)
  ∧ Forall (fun c => is_word c = true ∧ is_upper_az c = false) (first_significant ws)
  ∧ (first_significant ws = py "work"
     ∨ ∃ x, In x ws ∧ first_significant ws = List.filter is_word (lower (_fold_ascii x))).
Proof.
  induction ws as [|x ws (IH1 & IH2 & IH3)].
  - split; [|split; [|left; reflexivity]].
    + refine (bool_decide_unpack _ _). vm_compute. reflexivity.
    + repeat constructor.
  - cbn [first_significant]. cbv zeta.
    destruct (nonempty (List.filter is_word (lower (_fold_ascii x)))
              && negb (bool_decide (List.filter is_word (lower (_fold_ascii x)) ∈ _STOPWORDS)))
      eqn:E.
    + apply andb_true_iff in E as [_ E]. apply negb_true_iff in E.
      apply bool_decide_eq_false in E.
      split; [exact E|]. split; [|right; exists x; split; [left|]; reflexivity].
      apply List.Forall_forall. intros c Hc. apply filter_In in Hc as [Hin Hw].
      split; [exact Hw|]. unfold lower in Hin. apply in_map_iff in Hin as (c0 & <- & _).
      apply lower_cp_not_upper.
    + split; [exact IH1|]. split; [exact IH2|].
      destruct IH3 as [H|(x0 & Hx & H)]; [left; exact H|].
      right. exists x0. split; [right; exact Hx|exact H].
Qed.

Lemma re_split_ws_go_word cur b w :
  Forall not_space w → re_split_ws_go cur b w = [rev cur ++ w].
Proof.
  intros Hw. revert cur b. induction Hw as [|c w Hc _ IH]; intros cur b.
  - cbn. rewrite app_nil_r. reflexivity.
  - cbn [re_split_ws_go]. unfold not_space in Hc. rewrite Hc, IH.
    cbn [rev]. rewrite <- app_assoc. reflexivity.
Qed.

Lemma re_split_ws_go_word_then cur b w c s :
  Forall not_space w → is_space c = true →
  re_split_ws_go cur false (w ++ c :: s) = (rev cur ++ w) :: re_split_ws_go [] true s
  ∧ (w ≠ [] → re_split_ws_go cur b (w ++ c :: s)
              = (rev cur ++ w) :: re_split_ws_go [] true s).
Proof.
  intros Hw Hc. revert cur b. induction Hw as [|d w Hd _ IH]; intros cur b.
  - split; [|congruence]. cbn [app re_split_ws_go]. rewrite Hc, app_nil_r. reflexivity.
  - assert (re_split_ws_go cur b ((d :: w) ++ c :: s)
            = (rev cur ++ d :: w) :: re_split_ws_go [] true s) as H.
    { cbn [app re_split_ws_go]. unfold not_space in Hd. rewrite Hd.
      rewrite (proj1 (IH (d :: cur) false)). cbn [rev]. rewrite <- app_assoc.
      reflexivity. }
    split; [|intros _; exact H].
    cbn [app re_split_ws_go]. unfold not_space in Hd. rewrite Hd.
    rewrite (proj1 (IH (d :: cur) false)). cbn [rev]. rewrite <- app_assoc.
    reflexivity.
Qed.

Lemma re_split_ws_go_last cur b s c w :
  is_space c = true → is_word_text w →
  List.last (re_split_ws_go cur b (s ++ c :: w)) [] = w.
Proof.
  intros Hc [Hne Hw]. revert cur b. induction s as [|d s IH]; intros cur b.
  - cbn [app re_split_ws_go]. rewrite Hc, (re_split_ws_go_word [] true w Hw).
    destruct b; reflexivity.
  - cbn [app re_split_ws_go]. destruct (is_space d); [|apply IH].
    destruct b; [apply IH|].
    specialize (IH [] true).
    destruct (re_split_ws_go [] true (s ++ c :: w)); [cbn in IH; congruence|exact IH].
Qed.

Lemma rstrip_by_app p x r :
  rstrip_by p (x ++ r)
  = match rstrip_by p r with [] => rstrip_by p x | _ :: _ => x ++ rstrip_by p r end.
Proof.
  induction x as [|a x IH]; [cbn [app rstrip_by]; destruct (rstrip_by p r); reflexivity|].
  cbn [app rstrip_by]. rewrite IH. destruct (rstrip_by p r) as [|e r'].
  - reflexivity.
  - destruct x; reflexivity.
Qed.

Lemma lstrip_by_app p x r :
  lstrip_by p (x ++ r)
  = match lstrip_by p x with [] => lstrip_by p r | _ :: _ => lstrip_by p x ++ r end.
Proof.
  induction x as [|a x IH]; [reflexivity|].
  cbn [app lstrip_by]. destruct (p a); [exact IH|reflexivity].
Qed.

Lemma lstrip_by_suffix p s x : In x (lstrip_by p s) → In x s.
Proof.
  induction s as [|a s IH]; [intros []|].
  cbn [lstrip_by]. destruct (p a); [right; auto|tauto].
Qed.

Lemma rstrip_by_prefix p s x : In x (rstrip_by p s) → In x s.
Proof.
  induction s as [|a s IH]; [intros []|].
  cbn [rstrip_by]. destruct (rstrip_by p s) as [|e r].
  - destruct (p a); [intros []|intros [<-|[]]; left; reflexivity].
  - intros [<-|H]; [left; reflexivity|right; apply IH, H].
Qed.

Lemma contains_char s c : contains s [c] = true ↔ In c s.
Proof.
  induction s as [|x s IH]; [split; [discriminate|intros []]|].
  rewrite contains_cons, orb_true_iff, IH.
  replace (startswith (x :: s) [c]) with (c =? x)%N
    by (cbn [startswith]; destruct s; rewrite andb_true_r; reflexivity).
  rewrite N.eqb_eq. cbn [In]. intuition congruence.
Qed.

Lemma contains_char_false s c : ¬ In c s → contains s [c] = false.
Proof.
  intros H. destruct (contains s [c]) eqn:E; [|reflexivity].
  apply contains_char in E. contradiction.
Qed.

Lemma table_get_outside c :
  (c < 196 ∨ 351 < c)%N → table_get FOLD_TABLE c = [c].
Proof.
  intros H. unfold FOLD_TABLE. cbn [table_get].
  repeat match goal with
  | |- context [N.eqb ?k c] => destruct (N.eqb_spec k c); [lia|]
  end.
  reflexivity.
Qed.

Lemma is_space_cases c :
  is_space c = true →
  (9 ≤ c ≤ 13 ∨ 28 ≤ c ≤ 32 ∨ c = 133 ∨ c = 160 ∨ 5760 ≤ c)%N.
Proof.
  unfold is_space. rewrite !orb_true_iff, !andb_true_iff, !N.leb_le, !N.eqb_eq. lia.
Qed.

(** Whitespace leaves no trace in a normalised token. *)
Lemma normalize_space c s :
  is_space c = true → _normalize_key_token (c :: s) = _normalize_key_token s.
Proof.
  intros Hc. change (c :: s) with ([c] ++ s). rewrite normalize_app.
  replace (_normalize_key_token [c]) with (@nil N); [reflexivity|].
  unfold _normalize_key_token, _fold_ascii, lower. cbn [flat_map]. rewrite app_nil_r.
  apply is_space_cases in Hc.
  assert (is_upper_az c = false) as H2.
  { unfold is_upper_az. rewrite andb_false_iff, !N.leb_gt. lia. }
  assert (is_key_char c = false) as H3.
  { unfold is_key_char, is_lower_az, is_digit.
    rewrite orb_false_iff, !andb_false_iff, !N.leb_gt. lia. }
  rewrite table_get_outside by lia. cbn [map]. unfold lower_cp. rewrite H2.
  cbn [List.filter]. rewrite H3. reflexivity.
Qed.

Lemma normalize_lstrip s :
  _normalize_key_token (lstrip_by is_space s) = _normalize_key_token s.
Proof.
  induction s as [|c s IH]; [reflexivity|].
  cbn [lstrip_by]. destruct (is_space c) eqn:E; [|reflexivity].
  rewrite IH, normalize_space by exact E. reflexivity.
Qed.

(** The author text with a comma: what precedes the first comma. *)
Lemma last_name_surname_first w g :
  ¬ In 44 w → _last_name_from_author (w ++ 44 :: g) = _normalize_key_token w.
Proof.
  intros Hw. unfold _last_name_from_author. cbv zeta.
  assert (strip (w ++ 44 :: g)
          = lstrip_by is_space w ++ 44 :: rstrip_by is_space g) as ->.
  { unfold strip, strip_by.
    assert (lstrip_by is_space (w ++ 44 :: g) = lstrip_by is_space w ++ 44 :: g) as ->.
    { rewrite lstrip_by_app. destruct (lstrip_by is_space w); reflexivity. }
    rewrite rstrip_by_app. cbn [rstrip_by].
    destruct (rstrip_by is_space g); reflexivity. }
  assert (¬ In 44 (lstrip_by is_space w)) as Hw'
    by (intros H; apply Hw, (lstrip_by_suffix _ _ _ H)).
  replace (nonempty (lstrip_by is_space w ++ 44 :: rstrip_by is_space g)) with true
    by (destruct (lstrip_by is_space w); reflexivity).
  cbn [negb].
  rewrite (proj2 (contains_char _ 44))
    by (apply in_app_iff; right; left; reflexivity).
  unfold split1_first. rewrite cut_char_first by exact Hw'.
  apply normalize_lstrip.
Qed.

(** The author text without a comma: the last word. *)
Lemma last_name_given_first g c w :
  is_space c = true → is_word_text w → ¬ In 44 g → ¬ In 44 w →
  _last_name_from_author (g ++ c :: w) = _normalize_key_token w.
Proof.
  intros Hc Hw Hg Hcw. unfold _last_name_from_author. cbv zeta.
  pose proof (rstrip_word w Hw) as Hrw. destruct Hw as [Hne Hns].
  assert (lstrip_by is_space w = w) as Hlw.
  { destruct w as [|a w]; [congruence|]. inversion Hns as [|? ? Ha _]; subst.
    cbn [lstrip_by]. unfold not_space in Ha. rewrite Ha. reflexivity. }
  assert (strip (g ++ c :: w) = w
          ∨ ∃ g', strip (g ++ c :: w) = g' ++ c :: w ∧ ¬ In 44 g') as [->|(g' & -> & Hg')].
  { unfold strip, strip_by. rewrite lstrip_by_app.
    destruct (lstrip_by is_space g) as [|e g'] eqn:E.
    - left. cbn [lstrip_by]. rewrite Hc, Hlw. exact Hrw.
    - right. exists (e :: g'). rewrite <- E. split.
      + rewrite rstrip_by_app. cbn [rstrip_by]. rewrite Hrw.
        destruct w; [congruence|reflexivity].
      + intros H. apply Hg, (lstrip_by_suffix _ _ _ H). }
  - replace (nonempty w) with true by (destruct w; [congruence|reflexivity]).
    cbn [negb]. rewrite contains_char_false by exact Hcw.
    unfold re_split_ws. rewrite re_split_ws_go_word by exact Hns. reflexivity.
  - replace (nonempty (g' ++ c :: w)) with true by (destruct g'; reflexivity).
    cbn [negb].
    rewrite contains_char_false
      by (rewrite in_app_iff; intros [H|[H|H]];
          [exact (Hg' H)|subst c; discriminate|exact (Hcw H)]).
    unfold re_split_ws.
    pose proof (re_split_ws_go_last [] false g' c w Hc (conj Hne Hns)) as Hl.
    destruct (re_split_ws_go [] false (g' ++ c :: w)); [cbn in Hl; congruence|].
    rewrite Hl. reflexivity.
Qed.

(** X19. The title word of a key is never a stop word and never empty; it
    has word characters only, none of them an upper-case letter.  It is
    "work" for a blank title, and it is the first word of the title when that
    word, lower-cased and reduced to its word characters, is neither empty
    nor a stop word. *)
Theorem X19_title_word_is_significant (title : str) :
  (_first_significant_title_word title ∉ _STOPWORDS)
  ∧ _first_significant_title_word title ≠ []
  ∧ Forall (fun c => is_word c = true ∧ is_upper_az c = false)
           (_first_significant_title_word title)
  ∧ (Forall (fun c => is_space c = true) title →
     _first_significant_title_word title = py "work")
  ∧ (∀ x rest,
       title = x ++ 32%N :: rest → is_word_text x →
       List.filter is_word (lower (_fold_ascii x)) ≠ [] →
       List.filter is_word (lower (_fold_ascii x)) ∉ _STOPWORDS →
       _first_significant_title_word title
       = List.filter is_word (lower (_fold_ascii x))).
Proof.
  unfold _first_significant_title_word.
  destruct (first_significant_spec (re_split_ws (strip title))) as (H1 & H2 & _).
  split; [exact H1|]. split; [apply first_significant_nonempty|].
  split; [exact H2|]. split.
  - intros Hb. rewrite strip_blank by exact Hb. reflexivity.
  - intros x rest -> Hx Hne Hns.
    assert (∃ ps, re_split_ws (strip (x ++ 32%N :: rest)) = x :: ps) as (ps & ->).
    { pose proof (rstrip_word x Hx) as Hrx. destruct Hx as [Hxne Hxs].
      unfold strip, strip_by.
      assert (lstrip_by is_space (x ++ 32%N :: rest) = x ++ 32%N :: rest) as ->.
      { destruct x as [|a x]; [congruence|]. inversion Hxs as [|? ? Ha _]; subst.
        cbn [app lstrip_by]. unfold not_space in Ha. rewrite Ha. reflexivity. }
      rewrite rstrip_by_app. destruct (rstrip_by is_space (32%N :: rest)) as [|e r] eqn:E.
      - rewrite Hrx. exists []. unfold re_split_ws.
        rewrite re_split_ws_go_word by exact Hxs. reflexivity.
      - destruct (rstrip_by_head _ _ _ _ E) as (s' & Hs'). injection Hs' as <- _.
        exists (re_split_ws_go [] true r). unfold re_split_ws.
        rewrite (proj1 (re_split_ws_go_word_then [] false x 32%N r Hxs eq_refl)).
        reflexivity. }
    cbn [first_significant]. cbv zeta.
    destruct (List.filter is_word (lower (_fold_ascii x))) eqn:E; [congruence|].
    cbn [nonempty andb]. rewrite bool_decide_eq_false_2 by exact Hns. reflexivity.
Qed.

Lemma X19_title_word_is_significant_witness :
  _first_significant_title_word (py "  ") = py "work"
  ∧ _first_significant_title_word (py "Flow, past a heated cylinder") = py "flow".
Proof.
  split.
  - apply (proj1 (proj2 (proj2 (proj2 (X19_title_word_is_significant (py "  ")))))).
    repeat constructor.
  - apply (proj2 (proj2 (proj2 (proj2
             (X19_title_word_is_significant (py "Flow, past a heated cylinder")))))
             (py "Flow,") (py "past a heated cylinder")).
    + reflexivity.
    + split; [discriminate|repeat constructor].
    + vm_compute. discriminate.
    + refine (bool_decide_unpack _ _). vm_compute. reflexivity.
Defined.

(** X20. Both ways of writing a name give the same surname component:
    with a comma, it is what precedes the first comma, normalised; without
    one, it is the last word, normalised.  So "Surname, Given" and "Given
    Surname" agree when the surname is one word, and a blank author gives
    "anon". *)
Theorem X20_surname_of_both_spellings (w g : str) :
  (¬ In 44%N w → _last_name_from_author (w ++ 44%N :: g) = _normalize_key_token w)
  ∧ (is_word_text w → ¬ In 44%N g → ¬ In 44%N w →
     _last_name_from_author (g ++ 32%N :: w) = _normalize_key_token w)
  ∧ (Forall (fun c => is_space c = true) g → _last_name_from_author g = py "anon").
Proof.
  split; [apply last_name_surname_first|].
  split; [apply last_name_given_first; reflexivity|].
  intros Hb. unfold _last_name_from_author. rewrite strip_blank by exact Hb.
  reflexivity.
Qed.

Lemma X20_surname_of_both_spellings_witness :
  _last_name_from_author (py "Roe, Jane") = _normalize_key_token (py "Roe")
  ∧ _last_name_from_author (py "Jane Roe") = _normalize_key_token (py "Roe")
  ∧ _last_name_from_author (py " ") = py "anon".
Proof.
  split; [|split].
  - apply (proj1 (X20_surname_of_both_spellings (py "Roe") (py " Jane"))).
    vm_compute. intuition discriminate.
  - apply (proj1 (proj2 (X20_surname_of_both_spellings (py "Roe") (py "Jane")))).
    + split; [discriminate|repeat constructor].
    + vm_compute. intuition discriminate.
    + vm_compute. intuition discriminate.
  - apply (proj2 (proj2 (X20_surname_of_both_spellings [] (py " ")))).
    repeat constructor.
Defined.

End KeyPartsFacts.

Section KeyNumberingFacts.
Import ParsePdfs MakeBibtex KeyExamples KeyShape.
Local Open Scope Z_scope.

Lemma same_key_count_cons k (r0 : DocumentRecord) (l : list DocumentRecord) :
  same_key_count k (r0 :: l)
  = (if str_eqb (key_of r0) k then 1 else 0) + same_key_count k l.
Proof.
  unfold same_key_count. cbn [List.filter].
  destruct (str_eqb (key_of r0) k); cbn [length]; lia.
Qed.

Lemma bib_records_length (recs : list DocumentRecord) (used : gmap str Z) :
  length (bib_records recs used) = length recs.
Proof.
  revert used. induction recs as [|r0 rest IH]; intros used; [reflexivity|].
  cbn [bib_records]. destruct (make_bibtex_record r0 used) as [k used'].
  cbn [length]. rewrite IH. reflexivity.
Qed.

(** The key of the record at position [i], with [used_keys] as it is when
    the loop starts. *)
Lemma bib_records_lookup (recs : list DocumentRecord) (used : gmap str Z)
    (i : nat) (r : DocumentRecord) :
  recs !! i = Some r →
  bib_records recs used !! i
  = Some (numbered_key (key_of r)
            (default 0 (used !! key_of r) + same_key_count (key_of r) (take i recs))).
Proof.
  revert used i. induction recs as [|r0 rest IH]; intros used i Hi; [discriminate|].
  cbn [bib_records]. unfold make_bibtex_record. cbv zeta.
  destruct i as [|j].
  - injection Hi as ->. cbn [lookup list_lookup take].
    unfold same_key_count. cbn [List.filter length]. rewrite Z.add_0_r. reflexivity.
  - cbn [lookup list_lookup] in Hi |- *. rewrite (IH _ j Hi).
    cbn [take]. rewrite same_key_count_cons. unfold str_eqb.
    destruct (decide (key_of r0 = key_of r)) as [E|E].
    + rewrite bool_decide_eq_true_2 by exact E. rewrite E, lookup_insert_eq.
      cbn [from_option id]. do 2 f_equal. lia.
    + rewrite bool_decide_eq_false_2 by exact E.
      rewrite lookup_insert_ne by exact E. do 2 f_equal.
Qed.

(** X21. A batch gives one key per record, and the key of a record is its
    base key with a number that counts the earlier records of the batch with
    the same base key: none for the first of them, 2 for the second, 3 for
    the third, and so on, whatever records lie in between. *)
Theorem X21_key_number_counts_earlier_records (recs : list DocumentRecord) :
  length (MakeBibtex.process_root recs) = length recs
  ∧ ∀ i r, recs !! i = Some r →
      MakeBibtex.process_root recs !! i
      = Some (numbered_key (key_of r) (same_key_count (key_of r) (take i recs))).
Proof.
  unfold MakeBibtex.process_root. split; [apply bib_records_length|].
  intros i r Hi. rewrite (bib_records_lookup recs ∅ i r Hi), lookup_empty.
  reflexivity.
Qed.

Lemma X21_key_number_counts_earlier_records_witness :
  MakeBibtex.process_root [rec_h_theorem; rec_blank; rec_h_infinity] !! 2%nat
  = Some (numbered_key (key_of rec_h_infinity)
            (same_key_count (key_of rec_h_infinity)
               (take 2 [rec_h_theorem; rec_blank; rec_h_infinity]))).
Proof.
  apply (proj2 (X21_key_number_counts_earlier_records
                  [rec_h_theorem; rec_blank; rec_h_infinity]) 2%nat rec_h_infinity).
  reflexivity.
Defined.

End KeyNumberingFacts.

(** ** The text of an entry *)

Section EscapeFacts.
Import MakeBibtex BibtexEntry EntryShape.

Lemma bibtex_escape_flat_map s : bibtex_escape s = flat_map escape_char s.
Proof. destruct s; reflexivity. Qed.

(** What is written for one character: itself, or a backslash and one of
    ten continuations. *)
Lemma escape_char_cases c :
  (is_special c = false ∧ escape_char c = [c] ∧ c ≠ 92)
  ∨ (is_special c = true
     ∧ In (c, escape_char c)
          [ (92, [92; 92]); (123, [92; 123]); (125, [92; 125]); (37, [92; 37]);
            (36, [92; 36]); (38, [92; 38]); (35, [92; 35]); (95, [92; 95]);
            (126, [92; 126; 123; 125]); (94, [92; 94; 123; 125]) ]).
Proof.
  unfold is_special, escape_char, _BIBTEX_ESC.
  cbn [table_get map fst existsb].
  rewrite !(N.eqb_sym c).
  repeat match goal with
  | |- context [N.eqb ?k c] =>
      destruct (N.eqb_spec k c) as [<-|?];
        [right; split; [reflexivity|cbn; tauto]|]
  end.
  left. split; [reflexivity|]. split; [reflexivity|congruence].
Qed.

Lemma escape_char_length c :
  (1 ≤ length (escape_char c) ≤ 4)%nat.
Proof.
  destruct (escape_char_cases c) as [(_ & -> & _)|[_ H]]; [cbn; lia|].
  cbn [In] in H.
  repeat (destruct H as [H|H]; [injection H as _ <-; cbn; lia|]). destruct H.
Qed.

(** No text written for a character is the start of the text written for
    another one. *)
Lemma escape_char_prefix_free a b (x y : str) :
  escape_char a ++ x = escape_char b ++ y → a = b ∧ x = y.
Proof.
  destruct (escape_char_cases a) as [(_ & -> & Ha)|[_ Ha]];
    destruct (escape_char_cases b) as [(_ & -> & Hb)|[_ Hb]].
  - cbn. intros [= -> ->]. split; reflexivity.
  - cbn [In] in Hb.
    repeat (destruct Hb as [Hb|Hb]; [injection Hb as <- <-; cbn; congruence|]).
    destruct Hb.
  - cbn [In] in Ha.
    repeat (destruct Ha as [Ha|Ha]; [injection Ha as <- <-; cbn; congruence|]).
    destruct Ha.
  - cbn [In] in Ha, Hb.
    repeat (destruct Ha as [Ha|Ha];
            [injection Ha as <- <-;
             repeat (destruct Hb as [Hb|Hb];
                     [injection Hb as <- <-; cbn; intros H;
                      first [discriminate H
                            |injection H as ->; split; reflexivity]|]);
             destruct Hb|]).
    destruct Ha.
Qed.

Lemma flat_map_escape_inj a b :
  flat_map escape_char a = flat_map escape_char b → a = b.
Proof.
  revert b. induction a as [|c a IH]; intros [|d b] H.
  - reflexivity.
  - exfalso. cbn [flat_map] in H. pose proof (escape_char_length d).
    destruct (escape_char d); [cbn in *; lia|discriminate].
  - exfalso. cbn [flat_map] in H. pose proof (escape_char_length c).
    destruct (escape_char c); [cbn in *; lia|discriminate].
  - cbn [flat_map] in H. apply escape_char_prefix_free in H as [-> H].
    f_equal. apply IH, H.
Qed.

(** X22. [bibtex_escape] works character by character: it escapes a
    concatenation part by part, leaves a text without any of the ten special
    characters as it is, and writes one to four characters for each
    character.  No two texts have the same escaped form. *)
Theorem X22_bibtex_escape_laws (a b : str) :
  bibtex_escape (a ++ b) = bibtex_escape a ++ bibtex_escape b
  ∧ (Forall (fun c => is_special c = false) a → bibtex_escape a = a)
  ∧ (length a ≤ length (bibtex_escape a) ≤ 4 * length a)%nat
  ∧ (bibtex_escape a = bibtex_escape b → a = b).
Proof.
  rewrite !bibtex_escape_flat_map. split; [apply flat_map_app|].
  split; [|split].
  - induction 1 as [|c s Hc _ IH]; [reflexivity|].
    cbn [flat_map]. rewrite IH.
    destruct (escape_char_cases c) as [(_ & -> & _)|[H _]]; [reflexivity|congruence].
  - induction a as [|c s IH]; [cbn; lia|].
    cbn [flat_map]. rewrite length_app. pose proof (escape_char_length c).
    cbn [length]. lia.
  - apply flat_map_escape_inj.
Qed.

Lemma X22_bibtex_escape_laws_witness :
  bibtex_escape (py "Flows, 2nd ed.") = py "Flows, 2nd ed."
  ∧ (py "50% & more" = py "50% & more").
Proof.
  split.
  - apply (proj1 (proj2 (X22_bibtex_escape_laws (py "Flows, 2nd ed.") []))).
    repeat constructor.
  - apply (proj2 (proj2 (proj2 (X22_bibtex_escape_laws (py "50% & more")
                                   (py "50% & more"))))).
    reflexivity.
Defined.

End EscapeFacts.

Section EntryTypeFacts.
Import MakeBibtex BibtexEntry EntryShape.

(** X23. The type guess answers one of five types, never "article".  A
    thesis marker in the title decides before anything else.  The file name
    is looked at last: it can only turn "misc" into "techreport".  The case
    of the letters a to z in the title plays no part. *)
Theorem X23_entry_type_guess (title file_name : str) :
  In (guess_entry_type title file_name) ENTRY_TYPES
  ∧ (contains (title_low title) (py "phd") = true →
     guess_entry_type title file_name = py "phdthesis")
  ∧ (∀ other, guess_entry_type title other = guess_entry_type title file_name
              ∨ (guess_entry_type title [] = py "misc"
                 ∧ In (guess_entry_type title file_name) [py "techreport"; py "misc"]
                 ∧ In (guess_entry_type title other) [py "techreport"; py "misc"]))
  ∧ guess_entry_type (lower title) file_name = guess_entry_type title file_name
  ∧ assoc order_by_type (guess_entry_type title file_name)
    = Some (order_of (guess_entry_type title file_name)).
Proof.
  assert (∀ t f, In (guess_entry_type t f) ENTRY_TYPES) as Hin.
  { intros t f. unfold guess_entry_type. cbv zeta.
    repeat match goal with
    | |- In (if ?c then _ else _) _ => destruct c
    end; cbn; tauto. }
  split; [apply Hin|]. split; [|split; [|split]].
  - unfold guess_entry_type, title_low. cbv zeta. intros ->. reflexivity.
  - intros other. unfold guess_entry_type. cbv zeta.
    change (found report_number_re (_fold_ascii (lower []))) with false.
    repeat match goal with
    | |- context [if ?c || _ then _ else _] => destruct c; cbn [orb]
    | |- context [if contains ?a ?b then _ else _] => destruct (contains a b)
    end; solve [left; reflexivity|right; cbn; tauto].
  - unfold guess_entry_type. cbv zeta.
    rewrite lower_idem. reflexivity.
  - specialize (Hin title file_name). cbn [In ENTRY_TYPES] in Hin.
    destruct Hin as [<-|[<-|[<-|[<-|[<-|[]]]]]]; reflexivity.
Qed.

Lemma X23_entry_type_guess_witness :
  guess_entry_type (py "A PhD study of proceedings") (py "tr-1234.pdf")
  = py "phdthesis".
Proof.
  apply (proj1 (proj2 (X23_entry_type_guess (py "A PhD study of proceedings")
                         (py "tr-1234.pdf")))).
  vm_compute. reflexivity.
Defined.

End EntryTypeFacts.

Section FormatFacts.
Import MakeBibtex BibtexEntry EntryShape EntryExamples.

Lemma ordered_loop_spec (fields : gmap str str) (order lines : list str)
    (used : gset str) :
  ordered_loop fields order lines used
  = (lines ++ map (fun k => field_line k (field_value fields k))
                  (List.filter (rendered fields) order),
     used ∪ list_to_set (List.filter (rendered fields) order)).
Proof.
  revert lines used. induction order as [|k rest IH]; intros lines used.
  - cbn [ordered_loop List.filter map list_to_set].
    rewrite app_nil_r, (right_id_L ∅ (∪)). reflexivity.
  - cbn [ordered_loop List.filter]. cbv zeta.
    change (nonempty (field_value fields k)) with (rendered fields k).
    destruct (rendered fields k); [|apply IH].
    rewrite IH. cbn [map list_to_set]. rewrite <- app_assoc, (assoc_L (∪)).
    reflexivity.
Qed.

Lemma extra_loop_spec (fields : gmap str str) (keys : list str)
    (used : gset str) (lines : list str) :
  extra_loop fields keys used lines
  = lines ++ map (fun k => field_line k (field_value fields k))
                 (List.filter (fun k => negb (bool_decide (k ∈ used))
                                        && rendered fields k) keys).
Proof.
  revert lines. induction keys as [|k rest IH]; intros lines.
  - cbn. rewrite app_nil_r. reflexivity.
  - cbn [extra_loop List.filter]. cbv zeta.
    change (nonempty (field_value fields k)) with (rendered fields k).
    destruct (bool_decide (k ∈ used)); cbn [negb andb]; [apply IH|].
    destruct (rendered fields k); [|apply IH].
    rewrite IH. cbn [map]. rewrite <- app_assoc. reflexivity.
Qed.

Lemma insert_sorted_perm k l : Permutation (insert_sorted k l) (k :: l).
Proof.
  induction l as [|x l IH]; [reflexivity|].
  cbn [insert_sorted]. destruct (str_ltb x k); [|reflexivity].
  rewrite IH. apply perm_swap.
Qed.

Lemma sorted_perm l : Permutation (sorted l) l.
Proof.
  induction l as [|k l IH]; [reflexivity|].
  cbn [sorted fold_right]. rewrite insert_sorted_perm. constructor. exact IH.
Qed.

Lemma sorted_keys_spec (fields : gmap str str) :
  NoDup (sorted_keys fields)
  ∧ ∀ k, In k (sorted_keys fields) ↔ is_Some (fields !! k).
Proof.
  unfold sorted_keys. split.
  - rewrite sorted_perm. apply NoDup_fst_map_to_list.
  - intros k. split.
    + intros H. apply (Permutation_in _ (sorted_perm _)) in H.
      apply in_map_iff in H as ([k' v] & <- & H). cbn [fst].
      apply list_elem_of_In, elem_of_map_to_list in H. eauto.
    + intros [v H]. apply (Permutation_in _ (Permutation_sym (sorted_perm _))).
      apply in_map_iff. exists (k, v). split; [reflexivity|].
      apply list_elem_of_In, elem_of_map_to_list, H.
Qed.

Lemma str_ltb_nil_r a : str_ltb a [] = false.
Proof. destruct a; reflexivity. Qed.

Lemma str_ltb_cons x a y b :
  str_ltb (x :: a) (y :: b) = (x <? y)%N || ((x =? y)%N && str_ltb a b).
Proof. reflexivity. Qed.

Lemma str_ltb_cons_false x a y b :
  str_ltb (x :: a) (y :: b) = false ↔ (y ≤ x)%N ∧ (x = y → str_ltb a b = false).
Proof.
  rewrite str_ltb_cons, orb_false_iff, andb_false_iff, N.ltb_ge, N.eqb_neq.
  split.
  - intros [H1 [H2|H2]]; split; [exact H1|congruence|exact H1|intros _; exact H2].
  - intros [H1 H2]. split; [exact H1|].
    destruct (N.eq_dec x y) as [E|E]; [right; apply H2, E|left; exact E].
Qed.

Lemma str_le_trans a b c : str_le a b → str_le b c → str_le a c.
Proof.
  unfold str_le. revert b c. induction a as [|x a IH]; intros b c H1 H2.
  - apply str_ltb_nil_r.
  - destruct b as [|y b]; [discriminate|]. destruct c as [|z c]; [discriminate|].
    apply str_ltb_cons_false in H1 as [H1 H1'].
    apply str_ltb_cons_false in H2 as [H2 H2'].
    apply str_ltb_cons_false. split; [lia|].
    intros ->. assert (y = x) as -> by lia.
    apply (IH b c); [apply H1'|apply H2']; reflexivity.
Qed.

Lemma str_ltb_asym a b : str_ltb a b = true → str_le a b.
Proof.
  unfold str_le. revert b. induction a as [|x a IH]; intros b H.
  - apply str_ltb_nil_r.
  - destruct b as [|y b]; [discriminate|].
    rewrite str_ltb_cons, orb_true_iff, andb_true_iff, N.ltb_lt, N.eqb_eq in H.
    apply str_ltb_cons_false. destruct H as [H|[-> H]].
    + split; [lia|]. intros ->. lia.
    + split; [lia|]. intros _. apply IH, H.
Qed.

Lemma insert_sorted_sorted k l :
  StronglySorted str_le l → StronglySorted str_le (insert_sorted k l).
Proof.
  induction 1 as [|x l Hs IH Hx]; [repeat constructor|].
  cbn [insert_sorted]. destruct (str_ltb x k) eqn:E.
  - constructor; [exact IH|]. apply List.Forall_forall. intros z Hz.
    apply (Permutation_in _ (insert_sorted_perm k l)) in Hz as [<-|Hz].
    + apply str_ltb_asym, E.
    + rewrite List.Forall_forall in Hx. apply Hx, Hz.
  - constructor; [constructor; assumption|].
    constructor; [exact E|].
    eapply List.Forall_impl; [|exact Hx]. intros z Hz.
    eapply str_le_trans; [exact E|exact Hz].
Qed.

Lemma sorted_sorted l : StronglySorted str_le (sorted l).
Proof.
  induction l as [|k l IH]; [constructor|].
  cbn [sorted fold_right]. apply insert_sorted_sorted, IH.
Qed.

Lemma filter_sorted (f : str → bool) l :
  StronglySorted str_le l → StronglySorted str_le (List.filter f l).
Proof.
  induction 1 as [|x l Hs IH Hx]; [constructor|].
  cbn [List.filter]. destruct (f x); [|exact IH].
  constructor; [exact IH|]. apply List.Forall_forall. intros z Hz.
  apply filter_In in Hz as [Hz _]. rewrite List.Forall_forall in Hx. apply Hx, Hz.
Qed.

Lemma filter_none {A} (f : A → bool) (l : list A) :
  (∀ x, In x l → f x = false) → List.filter f l = [].
Proof.
  induction l as [|a l IH]; intros H; [reflexivity|].
  cbn [List.filter]. rewrite (H a) by (left; reflexivity).
  apply IH. intros x Hx. apply H. right. exact Hx.
Qed.

Lemma order_of_cases entry_type :
  In (order_of entry_type) (map snd order_by_type).
Proof.
  unfold order_of, order_by_type. cbn [assoc].
  repeat match goal with
  | |- context [str_eqb ?a entry_type] => destruct (str_eqb a entry_type)
  end; cbn; tauto.
Qed.

Lemma order_of_NoDup entry_type : NoDup (order_of entry_type).
Proof.
  pose proof (order_of_cases entry_type) as H.
  cbn [map snd order_by_type In] in H.
  repeat (destruct H as [<-|H];
          [refine (bool_decide_unpack _ _); vm_compute; reflexivity|]).
  destruct H.
Qed.

Lemma rendered_is_Some (fields : gmap str str) (k : str) :
  rendered fields k = true → is_Some (fields !! k).
Proof.
  unfold rendered, field_value. destruct (fields !! k); [eauto|discriminate].
Qed.

Lemma entry_lines_closed (entry_type key : str) (fields : gmap str str) :
  entry_lines entry_type key fields
  = entry_head entry_type key
    :: map (fun k => field_line k (field_value fields k))
           (field_order entry_type fields).
Proof.
  unfold entry_lines, field_order. cbv zeta. rewrite ordered_loop_spec.
  rewrite extra_loop_spec. cbn [app]. unfold entry_head. f_equal.
  rewrite map_app. f_equal. f_equal. apply List.filter_ext. intros k.
  destruct (rendered fields k) eqn:E; [|apply andb_false_r].
  rewrite andb_true_r. cbn [andb]. f_equal. apply bool_decide_ext.
  rewrite elem_of_union, elem_of_list_to_set, !list_elem_of_In, filter_In.
  split; [intros [H|[H _]]; [|exact H]|intros H; right; split; assumption].
  apply elem_of_empty in H. destruct H.
Qed.

Lemma field_order_spec (entry_type : str) (fields : gmap str str) :
  NoDup (field_order entry_type fields)
  ∧ ∀ k, In k (field_order entry_type fields) ↔ rendered fields k = true.
Proof.
  destruct (sorted_keys_spec fields) as [Hnd Hin]. unfold field_order. split.
  - apply NoDup_app.
    split; [eapply NoDup_sublist; [apply sublist_List_filter|apply order_of_NoDup]|].
    split.
    + intros k H1 H2. apply list_elem_of_In, filter_In in H1 as [H1 _].
      apply list_elem_of_In, filter_In in H2 as [_ H2].
      apply andb_true_iff in H2 as [_ H2]. apply negb_true_iff in H2.
      apply bool_decide_eq_false in H2. apply H2, list_elem_of_In, H1.
    + eapply NoDup_sublist; [apply sublist_List_filter|exact Hnd].
  - intros k. rewrite in_app_iff, !filter_In. split.
    + intros [[_ H]|[_ H]]; [exact H|]. apply andb_true_iff in H. tauto.
    + intros H. destruct (decide (k ∈ order_of entry_type)) as [Ho|Ho].
      * left. split; [apply list_elem_of_In, Ho|exact H].
      * right. split; [apply Hin, rendered_is_Some, H|].
        rewrite H, bool_decide_eq_false_2 by exact Ho. reflexivity.
Qed.

Lemma field_line_comma k v : field_line k v = field_line_last k v ++ py ",".
Proof.
  unfold field_line, field_line_last. rewrite <- !app_assoc. reflexivity.
Qed.

Lemma drop_last_comma_lines head (ls : list str) (l : str) :
  drop_last_comma (head :: ls ++ [l ++ py ","]) = head :: ls ++ [l].
Proof.
  change (py ",") with [44%N]. unfold drop_last_comma.
  change (py ",") with [44%N].
  rewrite app_comm_cons, List.last_last, !removelast_last.
  assert ((1 <? length ((head :: ls) ++ [l ++ [44%N]]))%nat = true) as ->
    by (apply Nat.ltb_lt; rewrite length_app; cbn [length]; lia).
  assert (endswith (l ++ [44%N]) [44%N] = true) as ->
    by (unfold endswith; rewrite rev_app_distr; cbn; destruct (rev l); reflexivity).
  reflexivity.
Qed.

(** X24. [format_bibtex] writes the first line, one line for each field
    whose value is not blank, and the closing brace.  A field is written
    once and a blank field never; the fields of the order of the type come
    first, in that order, the other fields after them in the order of Python
    on their names.  The last field line has no comma. *)
Theorem X24_format_bibtex_lines (entry_type key : str) (fields : gmap str str) :
  entry_lines entry_type key fields
  = entry_head entry_type key
    :: map (fun k => field_line k (field_value fields k))
           (field_order entry_type fields)
  ∧ NoDup (field_order entry_type fields)
  ∧ (∀ k, In k (field_order entry_type fields) ↔ rendered fields k = true)
  ∧ StronglySorted str_le
      (List.filter (fun k => negb (bool_decide (k ∈ order_of entry_type)))
                   (field_order entry_type fields))
  ∧ (field_order entry_type fields = [] →
     format_bibtex entry_type key fields
     = entry_head entry_type key ++ [10%N] ++ py "}")
  ∧ (∀ ks k, field_order entry_type fields = ks ++ [k] →
     format_bibtex entry_type key fields
     = join [10%N]
         (entry_head entry_type key
          :: map (fun k => field_line k (field_value fields k)) ks
          ++ [field_line_last k (field_value fields k); py "}"])).
Proof.
  destruct (field_order_spec entry_type fields) as [Hnd Hin].
  split; [apply entry_lines_closed|]. split; [exact Hnd|]. split; [exact Hin|].
  split; [|split].
  - unfold field_order. rewrite List.filter_app.
    replace (List.filter (fun k => negb (bool_decide (k ∈ order_of entry_type)))
               (List.filter (rendered fields) (order_of entry_type)))
      with (@nil str).
    + cbn [app]. apply filter_sorted, filter_sorted, sorted_sorted.
    + symmetry. apply filter_none. intros x Hx. apply filter_In in Hx as [Hx _].
      rewrite bool_decide_eq_true_2 by (apply list_elem_of_In, Hx). reflexivity.
  - intros H. unfold format_bibtex. rewrite entry_lines_closed, H. reflexivity.
  - intros ks k H. unfold format_bibtex. rewrite entry_lines_closed, H.
    rewrite map_app. cbn [map]. rewrite field_line_comma, drop_last_comma_lines.
    rewrite <- app_comm_cons, <- app_assoc. reflexivity.
Qed.

Lemma X24_format_bibtex_lines_witness :
  format_bibtex (py "misc") (py "roe2020flow") ∅
  = entry_head (py "misc") (py "roe2020flow") ++ [10%N] ++ py "}"
  ∧ format_bibtex (py "misc") (py "roe2020flow") fields_title_zeta
    = join [10%N]
        (entry_head (py "misc") (py "roe2020flow")
         :: map (fun k => field_line k (field_value fields_title_zeta k))
                [py "title"]
         ++ [field_line_last (py "zeta") (field_value fields_title_zeta (py "zeta"));
             py "}"]).
Proof.
  split.
  - apply (proj1 (proj2 (proj2 (proj2 (proj2
             (X24_format_bibtex_lines (py "misc") (py "roe2020flow") ∅)))))).
    vm_compute. reflexivity.
  - apply (proj2 (proj2 (proj2 (proj2 (proj2
             (X24_format_bibtex_lines (py "misc") (py "roe2020flow")
                fields_title_zeta)))))).
    vm_compute. reflexivity.
Defined.

End FormatFacts.

Section RecordFieldsFacts.
Import ParsePdfs MakeBibtex BibtexEntry EntryShape EntryExamples HeaderShape RecordShape.

Lemma rstrip_by_length p s : (length (rstrip_by p s) ≤ length s)%nat.
Proof.
  induction s as [|c s IH]; [reflexivity|].
  cbn [rstrip_by]. destruct (rstrip_by p s).
  - destruct (p c); cbn; lia.
  - cbn [length] in *. lia.
Qed.

Lemma lstrip_by_length p s :
  lstrip_by p s = s ∨ (length (lstrip_by p s) < length s)%nat.
Proof.
  induction s as [|c s IH]; [left; reflexivity|].
  cbn [lstrip_by]. destruct (p c); [right|left; reflexivity].
  cbn [length]. destruct IH as [->|IH]; lia.
Qed.

Lemma clean_value_ends v :
  clean_value v ↔
  v ≠ [] ∧ lstrip_by is_space v = v ∧ rstrip_by is_space v = v.
Proof.
  unfold clean_value, strip, strip_by. split.
  - intros [Hne H]. split; [exact Hne|].
    destruct (lstrip_by_length is_space v) as [E|E].
    + rewrite E in H. split; assumption.
    + exfalso. pose proof (rstrip_by_length is_space (lstrip_by is_space v)) as Hl.
      rewrite H in Hl. lia.
  - intros (Hne & Hl & Hr). split; [exact Hne|]. rewrite Hl. exact Hr.
Qed.

Lemma clean_value_strip s : strip s ≠ [] → clean_value (strip s).
Proof. intros H. split; [exact H|apply strip_by_idem]. Qed.

Lemma clean_value_word v : is_word_text v → clean_value v.
Proof.
  intros Hw. apply clean_value_ends. destruct Hw as [Hne Hns].
  split; [exact Hne|]. split; [|apply rstrip_word; split; assumption].
  destruct v as [|a v]; [congruence|]. inversion Hns as [|? ? Ha _]; subst.
  cbn [lstrip_by]. unfold not_space in Ha. rewrite Ha. reflexivity.
Qed.

Lemma clean_value_app a b :
  a ≠ [] → lstrip_by is_space a = a → clean_value b → clean_value (a ++ b).
Proof.
  intros Hne Hl Hb. apply clean_value_ends in Hb as (Hbne & _ & Hbr).
  apply clean_value_ends. split; [destruct a; [congruence|discriminate]|].
  split.
  - rewrite lstrip_by_app, Hl. destruct a; [congruence|reflexivity].
  - apply rstrip_by_fixed_app; assumption.
Qed.

Lemma clean_value_join sep ps :
  Forall clean_value ps → ps ≠ [] → clean_value (join sep ps).
Proof.
  induction 1 as [|p ps Hp Hps IH]; [congruence|]. intros _.
  destruct ps as [|q rest]; [exact Hp|].
  rewrite join_cons2, app_assoc. specialize (IH ltac:(discriminate)).
  apply clean_value_ends in Hp as (Hpne & Hpl & _).
  apply clean_value_app; [destruct p; [congruence|discriminate]| |exact IH].
  rewrite lstrip_by_app, Hpl. destruct p; [congruence|reflexivity].
Qed.

Lemma str_of_int_word n : is_word_text (str_of_int n).
Proof.
  split; [apply str_of_int_nonempty|].
  assert (∀ d, Forall not_space (py (NilZero.string_of_uint d))) as Hd.
  { intros d. unfold NilZero.string_of_uint.
    assert (Forall not_space (py (NilEmpty.string_of_uint d))) as H.
    { eapply List.Forall_impl; [|apply uint_digits]. intros c. apply digit_not_space. }
    destruct d; try exact H. repeat constructor. }
  unfold str_of_int. destruct (Z.to_int n) as [d|d]; cbn [NilZero.string_of_int].
  - apply Hd.
  - change (py (String "-" ?s)) with (45%N :: py s).
    constructor; [reflexivity|apply Hd].
Qed.

Lemma author_field_clean (authors : list str) :
  nonempty (_bibtex_author_field authors) = true →
  clean_value (_bibtex_author_field authors).
Proof.
  unfold _bibtex_author_field. intros H. apply clean_value_join.
  - apply List.Forall_forall. intros p Hp. apply filter_In in Hp as [Hp Hne].
    apply in_map_iff in Hp as (a & <- & _). apply clean_value_strip.
    destruct (strip a); [discriminate|discriminate].
  - intros E. rewrite E in H. discriminate.
Qed.

Lemma author_field_nonempty (authors : list str) :
  nonempty (_bibtex_author_field authors) = true
  ↔ ∃ a, In a authors ∧ strip a ≠ [].
Proof.
  unfold _bibtex_author_field. split.
  - intros H. destruct (List.filter nonempty (map strip authors)) as [|p ps] eqn:E;
      [discriminate|].
    assert (In p (List.filter nonempty (map strip authors))) as Hp
      by (rewrite E; left; reflexivity).
    apply filter_In in Hp as [Hp Hne]. apply in_map_iff in Hp as (a & <- & Ha).
    exists a. split; [exact Ha|]. destruct (strip a); [discriminate|discriminate].
  - intros (a & Ha & Hne).
    assert (In (strip a) (List.filter nonempty (map strip authors))) as Hin.
    { apply filter_In. split; [apply in_map, Ha|].
      destruct (strip a); [congruence|reflexivity]. }
    assert (clean_value (join (py " and ") (List.filter nonempty (map strip authors))))
      as [Hc _].
    { apply clean_value_join.
      - apply List.Forall_forall. intros p Hp. apply filter_In in Hp as [Hp Hpne].
        apply in_map_iff in Hp as (a' & <- & _). apply clean_value_strip.
        destruct (strip a'); [discriminate|discriminate].
      - intros E. rewrite E in Hin. destruct Hin. }
    destruct (join _ _); [congruence|reflexivity].
Qed.


Lemma fields_clean_empty : fields_clean ∅.
Proof. intros k v H. rewrite lookup_empty in H. discriminate. Qed.

Lemma fields_clean_insert (f : gmap str str) (k v : str) :
  fields_clean f → In k RECORD_FIELDS → clean_value v →
  fields_clean (<[ k := v ]> f).
Proof.
  intros Hf Hk Hv k' v' H.
  apply lookup_insert_Some in H as [[<- <-]|[_ H]]; [split; assumption|apply Hf, H].
Qed.

Ltac fields_step :=
  match goal with
  | |- fields_clean ∅ => apply fields_clean_empty
  | |- fields_clean (<[ _ := _ ]> _) =>
      apply fields_clean_insert;
        [|cbn [In RECORD_FIELDS]; repeat (first [left; reflexivity|right])|]
  | |- fields_clean (if ?c then _ else _) => destruct c eqn:?
  | |- fields_clean (match ?o with Some _ => _ | None => _ end) => destruct o eqn:?
  end.

Lemma nonempty_strip_clean s : nonempty (strip s) = true → clean_value (strip s).
Proof.
  intros H. apply clean_value_strip. destruct (strip s); [discriminate|discriminate].
Qed.

Lemma note_clean s :
  clean_value (if nonempty (strip s) then py "Local PDF: " ++ strip s
               else py "Local PDF").
Proof.
  destruct (nonempty (strip s)) eqn:E.
  - apply clean_value_app; [discriminate|reflexivity|apply nonempty_strip_clean, E].
  - split; [discriminate|reflexivity].
Qed.

Lemma record_fields_clean (rec : DocumentRecord) (t : str) :
  fields_clean (record_fields rec t).
Proof.
  unfold record_fields. cbv zeta. repeat fields_step;
    try (apply author_field_clean; assumption);
    try (apply nonempty_strip_clean; assumption);
    try (apply clean_value_word, str_of_int_word);
    try apply note_clean;
    try (split; [discriminate|reflexivity]).
Qed.

Lemma field_value_clean (f : gmap str str) (k v : str) :
  fields_clean f → f !! k = Some v → field_value f k = v.
Proof.
  intros Hf H.
  exact (eq_trans (f_equal (fun o => strip (default [] o)) H)
                  (proj2 (proj2 (Hf k v H)))).
Qed.

Lemma rendered_present (f : gmap str str) (k : str) :
  fields_clean f → rendered f k = present f k.
Proof.
  intros Hf. unfold rendered, present. destruct (f !! k) as [v|] eqn:E.
  - rewrite (field_value_clean f k v Hf E).
    destruct (Hf k v E) as [_ [Hne _]].
    rewrite bool_decide_eq_true_2 by eauto. destruct v; [congruence|reflexivity].
  - rewrite bool_decide_eq_false_2 by (intros [? ?]; discriminate).
    exact (f_equal (fun o => nonempty (strip (default [] o))) E).
Qed.

Ltac key_neq := let H := fresh in intros H; vm_compute in H; discriminate H.

Ltac fields_lookup :=
  repeat first [ rewrite lookup_insert_eq
               | rewrite lookup_insert_ne by key_neq
               | rewrite lookup_empty ].

(** What is stored under each of the six names. *)
Lemma record_fields_lookup (rec : DocumentRecord) (t : str) :
  record_fields rec t !! py "author"
  = (if nonempty (_bibtex_author_field (ParsePdfs.authors rec))
     then Some (_bibtex_author_field (ParsePdfs.authors rec)) else None)
  ∧ record_fields rec t !! py "title"
    = (if nonempty (strip (ParsePdfs.title rec)) then Some (strip (ParsePdfs.title rec)) else None)
  ∧ record_fields rec t !! py "year" = str_of_int <$> ParsePdfs.year rec
  ∧ record_fields rec t !! py "note"
    = Some (if nonempty (strip (ParsePdfs.file_name rec))
            then py "Local PDF: " ++ strip (ParsePdfs.file_name rec) else py "Local PDF")
  ∧ record_fields rec t !! py "file"
    = (if nonempty (strip (ParsePdfs.file_path rec)) then Some (strip (ParsePdfs.file_path rec)) else None)
  ∧ record_fields rec t !! py "howpublished"
    = (if str_eqb t (py "misc") then Some (py "PDF") else None).
Proof.
  unfold record_fields. cbv zeta.
  destruct (nonempty (_bibtex_author_field (ParsePdfs.authors rec)));
    destruct (nonempty (strip (ParsePdfs.title rec)));
    destruct (ParsePdfs.year rec);
    destruct (nonempty (strip (ParsePdfs.file_path rec)));
    destruct (str_eqb t (py "misc"));
    fields_lookup; repeat split; fields_lookup; reflexivity.
Qed.

(** X25. Every field stored for a record has one of six names, author,
    title, year, howpublished, note and file, and a value that is not empty
    and has no whitespace around it, so that the entry writes the value as it
    is stored.  The note is always stored; howpublished exactly for the type
    "misc"; an author field exactly when some author is not blank, a title
    exactly when the title is not blank, a year exactly when the record has
    one. *)
Theorem X25_record_fields_are_clean (rec : DocumentRecord) (t : str) :
  (∀ k v, record_fields rec t !! k = Some v →
     In k RECORD_FIELDS ∧ clean_value v ∧ field_value (record_fields rec t) k = v)
  ∧ is_Some (record_fields rec t !! py "note")
  ∧ (is_Some (record_fields rec t !! py "howpublished") ↔ t = py "misc")
  ∧ (is_Some (record_fields rec t !! py "author")
     ↔ ∃ a, In a (ParsePdfs.authors rec) ∧ strip a ≠ [])
  ∧ (is_Some (record_fields rec t !! py "title") ↔ strip (ParsePdfs.title rec) ≠ [])
  ∧ record_fields rec t !! py "year" = str_of_int <$> ParsePdfs.year rec.
Proof.
  pose proof (record_fields_clean rec t) as Hc.
  destruct (record_fields_lookup rec t) as (Ha & Ht & Hy & Hn & _ & Hh).
  split; [|split; [|split; [|split; [|split]]]].
  - intros k v H. destruct (Hc k v H) as [H1 H2].
    split; [exact H1|]. split; [exact H2|]. apply field_value_clean; assumption.
  - eexists. exact Hn.
  - unfold str_eqb in Hh. destruct (decide (t = py "misc")) as [E|E].
    + rewrite bool_decide_eq_true_2 in Hh by exact E.
      split; [intros _; exact E|intros _; eexists; exact Hh].
    + rewrite bool_decide_eq_false_2 in Hh by exact E.
      split; [|intros ?; contradiction].
      intros [v Hv]. pose proof (eq_trans (eq_sym Hv) Hh). discriminate.
  - rewrite <- author_field_nonempty.
    destruct (nonempty (_bibtex_author_field (ParsePdfs.authors rec))).
    + split; [reflexivity|intros _; eexists; exact Ha].
    + split; [|discriminate].
      intros [v Hv]. pose proof (eq_trans (eq_sym Hv) Ha). discriminate.
  - destruct (strip (ParsePdfs.title rec)) as [|c s]; cbn [nonempty] in Ht.
    + split; [|congruence].
      intros [v Hv]. pose proof (eq_trans (eq_sym Hv) Ht). discriminate.
    + split; [discriminate|intros _; eexists; exact Ht].
  - exact Hy.
Qed.

Lemma X25_record_fields_are_clean_witness :
  In (py "title") RECORD_FIELDS
  ∧ clean_value (py "On the 50% rule & more")
  ∧ field_value (record_fields rec_flow (py "misc")) (py "title")
    = py "On the 50% rule & more".
Proof.
  apply (proj1 (X25_record_fields_are_clean rec_flow (py "misc"))).
  vm_compute. reflexivity.
Defined.

End RecordFieldsFacts.

Section RecordEntryFacts.
Import ParsePdfs MakeBibtex BibtexEntry EntryShape EntryExamples RecordShape KeyShape.

Lemma filter_through {A} (g h : A → bool) (l : list A) :
  (∀ x, g x = true → h x = true) → List.filter g l = List.filter g (List.filter h l).
Proof.
  intros H. induction l as [|a l IH]; [reflexivity|].
  cbn [List.filter]. destruct (g a) eqn:Eg.
  - rewrite (H a Eg). cbn [List.filter]. rewrite Eg, IH. reflexivity.
  - destruct (h a); [cbn [List.filter]; rewrite Eg|]; exact IH.
Qed.

Lemma guess_entry_type_in t f : In (guess_entry_type t f) ENTRY_TYPES.
Proof.
  unfold guess_entry_type. cbv zeta.
  repeat match goal with
  | |- In (if ?c then _ else _) _ => destruct c
  end; cbn; tauto.
Qed.

Lemma at_most_one (l : list str) (a : str) (c : bool) :
  NoDup l → (∀ x, In x l → x = a) → (In a l ↔ c = true) →
  l = if c then [a] else [].
Proof.
  intros Hnd Hall Hin. destruct l as [|x l].
  - destruct c; [|reflexivity]. exfalso. apply (proj2 Hin eq_refl).
  - assert (x = a) as -> by (apply Hall; left; reflexivity).
    rewrite (proj1 Hin) by (left; reflexivity).
    destruct l as [|y l]; [reflexivity|].
    assert (y = a) as -> by (apply Hall; right; left; reflexivity).
    apply NoDup_cons in Hnd as [Hnd _]. exfalso. apply Hnd. left.
Qed.

Lemma present_spec (f : gmap str str) (k : str) :
  present f k = true ↔ is_Some (f !! k).
Proof. unfold present. apply bool_decide_eq_true. Qed.

Lemma present_in_record_fields (f : gmap str str) (k : str) :
  fields_clean f → present f k = true → in_record_fields k = true.
Proof.
  intros Hf H. apply present_spec in H as [v H].
  apply bool_decide_eq_true, list_elem_of_In, (Hf k v H).
Qed.

Ltac key_in := refine (bool_decide_unpack _ _); vm_compute; reflexivity.
Ltac key_differs := let H := fresh in intros H; vm_compute in H; discriminate H.

Lemma record_field_order (rec : DocumentRecord) (t : str) :
  In t ENTRY_TYPES →
  field_order t (record_fields rec t)
  = List.filter (present (record_fields rec t)) RECORD_FIELDS.
Proof.
  intros Hin. pose proof (record_fields_clean rec t) as Hc.
  destruct (record_fields_lookup rec t) as (_ & _ & _ & _ & _ & Hh).
  set (f := record_fields rec t) in *.
  assert (t ≠ py "misc" → present f (py "howpublished") = false) as Hhp.
  { intros Hne. unfold str_eqb in Hh. rewrite bool_decide_eq_false_2 in Hh by exact Hne.
    apply bool_decide_eq_false. intros [v Hv].
    pose proof (eq_trans (eq_sym Hv) Hh). discriminate. }
  unfold field_order.
  rewrite (List.filter_ext (rendered f) (present f))
    by (intros k; apply rendered_present, Hc).
  rewrite (List.filter_ext
             (fun k => rendered f k && negb (bool_decide (k ∈ order_of t)))
             (fun k => present f k && negb (bool_decide (k ∈ order_of t))))
    by (intros k; rewrite (rendered_present f k Hc); reflexivity).
  change RECORD_FIELDS
    with ([py "author"; py "title"; py "year"; py "howpublished"; py "note"]
          ++ [py "file"]).
  rewrite List.filter_app. f_equal.
  - rewrite (filter_through (present f) in_record_fields (order_of t))
      by (intros k; apply present_in_record_fields, Hc).
    cbn [In ENTRY_TYPES] in Hin.
    destruct Hin as [<-|[<-|[<-|[<-|[<-|[]]]]]];
      try (change (List.filter in_record_fields (order_of (py "misc")))
             with [py "author"; py "title"; py "year"; py "howpublished"; py "note"];
           reflexivity);
      match goal with
      | |- List.filter _ (List.filter _ (order_of ?t)) = _ =>
          change (List.filter in_record_fields (order_of t))
            with [py "author"; py "title"; py "year"; py "note"]
      end;
      cbn [List.filter]; rewrite Hhp by key_differs; reflexivity.
  - change (List.filter (present f) [py "file"])
      with (if present f (py "file") then [py "file"] else []).
    destruct (sorted_keys_spec f) as [Hnd Hkeys].
    apply at_most_one.
    + eapply NoDup_sublist; [apply sublist_List_filter|exact Hnd].
    + intros x Hx. apply filter_In in Hx as [_ Hx].
      apply andb_true_iff in Hx as [Hp Ho]. apply negb_true_iff in Ho.
      apply bool_decide_eq_false in Ho.
      pose proof Hp as Hp'. apply present_spec in Hp' as [v Hv].
      destruct (Hc x v Hv) as [Hx _]. cbn [In RECORD_FIELDS] in Hx.
      cbn [In ENTRY_TYPES] in Hin.
      destruct Hin as [<-|[<-|[<-|[<-|[<-|[]]]]]];
        destruct Hx as [<-|[<-|[<-|[<-|[<-|[<-|[]]]]]]];
        try reflexivity;
        try (exfalso; apply Ho; key_in);
        exfalso; rewrite Hhp in Hp by key_differs; discriminate.
    + rewrite filter_In, andb_true_iff, negb_true_iff. split; [tauto|].
      intros Hp. split; [apply Hkeys, present_spec, Hp|].
      split; [exact Hp|]. apply bool_decide_eq_false.
      cbn [In ENTRY_TYPES] in Hin.
      destruct Hin as [<-|[<-|[<-|[<-|[<-|[]]]]]];
        refine (bool_decide_unpack _ _); vm_compute; reflexivity.
Qed.

Lemma format_bibtex_snoc (t key : str) (f : gmap str str) (ks : list str) (k : str) :
  field_order t f = ks ++ [k] →
  format_bibtex t key f
  = join [10%N]
      (entry_head t key
       :: map (fun k => field_line k (field_value f k)) ks
       ++ [field_line_last k (field_value f k); py "}"]).
Proof.
  intros H. unfold format_bibtex. rewrite entry_lines_closed, H.
  rewrite map_app. cbn [map]. rewrite field_line_comma, drop_last_comma_lines.
  rewrite <- app_comm_cons, <- app_assoc. reflexivity.
Qed.

Lemma field_value_stored (f : gmap str str) (k : str) :
  fields_clean f → field_value f k = default [] (f !! k).
Proof.
  intros Hf. destruct (f !! k) as [v|] eqn:E.
  - rewrite (field_value_clean f k v Hf E). reflexivity.
  - exact (f_equal (fun o => strip (default [] o)) E).
Qed.

(** X26. The entry of a record.  Its type is one of the five, its key is
    the key of the key builder, and its text is the first line, then the
    lines of author, title, year and howpublished, each when it is stored,
    then the note, then the file when it is stored, then the closing brace;
    each line shows the value as it is stored, and the last of them has no
    comma. *)
Theorem X26_entry_of_a_record (rec : DocumentRecord) (used_keys : gmap str Z) :
  let b := (BibtexEntry.make_bibtex_record rec used_keys).1 in
  let f := record_fields rec (bibtex_type b) in
  In (bibtex_type b) ENTRY_TYPES
  ∧ bibtex_key b = (MakeBibtex.make_bibtex_record rec used_keys).1
  ∧ (BibtexEntry.make_bibtex_record rec used_keys).2
    = (MakeBibtex.make_bibtex_record rec used_keys).2
  ∧ field_order (bibtex_type b) f = List.filter (present f) RECORD_FIELDS
  ∧ bibtex b
    = join [10%N]
        (entry_head (bibtex_type b) (bibtex_key b)
         :: map (line_of f)
                (List.filter (present f)
                   [py "author"; py "title"; py "year"; py "howpublished"])
         ++ (if present f (py "file")
             then [line_of f (py "note"); last_line_of f (py "file")]
             else [last_line_of f (py "note")])
         ++ [py "}"]).
Proof.
  unfold BibtexEntry.make_bibtex_record. cbv zeta.
  destruct (MakeBibtex.make_bibtex_record rec used_keys) as [key used'] eqn:Ek.
  cbn [fst snd bibtex_type bibtex_key bibtex].
  set (t := guess_entry_type (strip (ParsePdfs.title rec))
              (strip (ParsePdfs.file_name rec))).
  pose proof (guess_entry_type_in (strip (ParsePdfs.title rec))
                (strip (ParsePdfs.file_name rec)) : In t ENTRY_TYPES) as Hin.
  pose proof (record_field_order rec t Hin) as Ho.
  pose proof (record_fields_clean rec t) as Hc.
  destruct (record_fields_lookup rec t) as (_ & _ & _ & Hn & _ & _).
  set (f := record_fields rec t) in *.
  split; [exact Hin|]. split; [reflexivity|]. split; [reflexivity|].
  split; [exact Ho|].
  assert (present f (py "note") = true) as Hnote
    by (apply present_spec; eexists; exact Hn).
  assert (∀ ks, map (fun k => field_line k (field_value f k)) ks = map (line_of f) ks)
    as Hlines.
  { intros ks. apply map_ext. intros k. unfold line_of.
    rewrite (field_value_stored f k Hc). reflexivity. }
  change RECORD_FIELDS
    with ([py "author"; py "title"; py "year"; py "howpublished"]
          ++ [py "note"; py "file"]) in Ho.
  rewrite List.filter_app in Ho.
  assert (List.filter (present f) [py "note"; py "file"]
          = py "note" :: (if present f (py "file") then [py "file"] else [])) as E
    by (cbn [List.filter]; rewrite Hnote; reflexivity).
  rewrite E in Ho. clear E.
  destruct (present f (py "file")).
  - rewrite (format_bibtex_snoc t key f
               (List.filter (present f)
                  [py "author"; py "title"; py "year"; py "howpublished"]
                ++ [py "note"]) (py "file"))
      by (rewrite Ho, <- app_assoc; reflexivity).
    rewrite Hlines, map_app. cbn [map]. unfold last_line_of.
    rewrite (field_value_stored f (py "file") Hc), <- !app_assoc. reflexivity.
  - rewrite (format_bibtex_snoc t key f
               (List.filter (present f)
                  [py "author"; py "title"; py "year"; py "howpublished"])
               (py "note")) by exact Ho.
    rewrite Hlines. unfold last_line_of.
    rewrite (field_value_stored f (py "note") Hc). reflexivity.
Qed.

Lemma bib_records_keys (recs : list DocumentRecord) (used : gmap str Z) :
  map bibtex_key (BibtexEntry.bib_records recs used) = MakeBibtex.bib_records recs used.
Proof.
  revert used. induction recs as [|r recs IH]; intros used; [reflexivity|].
  cbn [BibtexEntry.bib_records MakeBibtex.bib_records].
  unfold BibtexEntry.make_bibtex_record. cbv zeta.
  destruct (MakeBibtex.make_bibtex_record r used) as [key used'].
  cbn [map bibtex_key]. rewrite IH. reflexivity.
Qed.

(** X27. A batch of records gives one entry per record, in the order of
    the records; the keys of the entries are the keys of the key builder,
    made of the characters a to z and 0 to 9 and never empty, and the entry
    of each record keeps its authors and year and has its title, file name
    and path without whitespace around them. *)
Theorem X27_batch_of_entries (recs : list DocumentRecord) :
  length (BibtexEntry.bib_records recs ∅) = length recs
  ∧ map bibtex_key (BibtexEntry.bib_records recs ∅) = MakeBibtex.process_root recs
  ∧ Forall (fun b => key_chars (bibtex_key b) ∧ bibtex_key b ≠ []
                     ∧ In (bibtex_type b) ENTRY_TYPES)
           (BibtexEntry.bib_records recs ∅)
  ∧ map (fun b => (BibtexEntry.title b, BibtexEntry.authors b, BibtexEntry.year b,
                   BibtexEntry.file_name b, BibtexEntry.file_path b))
        (BibtexEntry.bib_records recs ∅)
    = map (fun r => (strip (ParsePdfs.title r), ParsePdfs.authors r, ParsePdfs.year r,
                     strip (ParsePdfs.file_name r), strip (ParsePdfs.file_path r)))
          recs.
Proof.
  assert (∀ used : gmap str Z,
            Forall (fun b => key_chars (bibtex_key b) ∧ bibtex_key b ≠ []
                             ∧ In (bibtex_type b) ENTRY_TYPES)
                   (BibtexEntry.bib_records recs used)
            ∧ map (fun b => (BibtexEntry.title b, BibtexEntry.authors b,
                             BibtexEntry.year b, BibtexEntry.file_name b,
                             BibtexEntry.file_path b))
                  (BibtexEntry.bib_records recs used)
              = map (fun r => (strip (ParsePdfs.title r), ParsePdfs.authors r,
                               ParsePdfs.year r, strip (ParsePdfs.file_name r),
                               strip (ParsePdfs.file_path r))) recs) as H.
  { induction recs as [|r recs IH]; intros used; [split; [constructor|reflexivity]|].
    cbn [BibtexEntry.bib_records]. unfold BibtexEntry.make_bibtex_record. cbv zeta.
    pose proof (emitted_key_chars r used) as Hk.
    assert ((MakeBibtex.make_bibtex_record r used).1 ≠ []) as Hne.
    { unfold MakeBibtex.make_bibtex_record. cbv zeta. cbn [fst].
      pose proof (key_of_nonempty r) as Hn.
      destruct (default 0 (used !! key_of r) >? 0)%Z; [|exact Hn].
      destruct (key_of r); [congruence|discriminate]. }
    destruct (MakeBibtex.make_bibtex_record r used) as [key used'].
    destruct (IH used') as [IH1 IH2]. split.
    - constructor; [|exact IH1]. cbn [bibtex_key bibtex_type].
      split; [exact Hk|]. split; [exact Hne|apply guess_entry_type_in].
    - cbn [map]. rewrite IH2. reflexivity. }
  split; [rewrite <- (length_map bibtex_key), bib_records_keys; apply bib_records_length|].
  split; [apply bib_records_keys|]. apply H.
Qed.

End RecordEntryFacts.

(** ** The inputs *)

Section InputFacts.
Import ParsePdfs EntryShape InputFiles FilesShape Examples.

Lemma startswith_app x y p : startswith x p = true → startswith (x ++ y) p = true.
Proof.
  revert x. induction p as [|a p IH]; intros x H; [destruct (x ++ y); reflexivity|].
  destruct x as [|c x]; [discriminate|].
  cbn [app startswith] in *. apply andb_true_iff in H as [-> H].
  cbn [andb]. apply IH, H.
Qed.

Lemma endswith_app a b s : endswith b s = true → endswith (a ++ b) s = true.
Proof.
  unfold endswith. rewrite rev_app_distr. apply startswith_app.
Qed.

Lemma endswith_char a c : endswith a [c] = true → ∃ a', a = a' ++ [c].
Proof.
  unfold endswith. cbn [rev app]. intros H.
  destruct (rev a) as [|x r] eqn:E; [discriminate|].
  cbn [startswith] in H. apply andb_true_iff in H as [H _].
  apply N.eqb_eq in H. subst x. exists (rev r).
  rewrite <- (rev_involutive a), E. reflexivity.
Qed.

Lemma path_join_suffix d fn : ∃ x, path_join d fn = x ++ fn.
Proof.
  unfold path_join. destruct (startswith fn (py "/")); [exists []; reflexivity|].
  destruct (negb (nonempty d) || endswith d (py "/")); [exists d; reflexivity|].
  exists (d ++ py "/"). rewrite <- app_assoc. reflexivity.
Qed.

Lemma basename_path_join d fn : ¬ In 47 fn → basename (path_join d fn) = fn.
Proof.
  intros Hfn. unfold path_join.
  destruct (startswith fn (py "/")) eqn:E1.
  { exfalso. destruct fn as [|c fn]; [discriminate|].
    cbn in E1. apply andb_true_iff in E1 as [E1 _]. apply N.eqb_eq in E1.
    apply Hfn. left. symmetry. exact E1. }
  destruct d as [|c d]; [apply basename_plain, Hfn|].
  cbn [nonempty negb orb].
  destruct (endswith (c :: d) (py "/")) eqn:E2.
  - apply endswith_char in E2 as [a' ->]. rewrite <- app_assoc.
    apply basename_of_join, Hfn.
  - apply (basename_of_join (c :: d)), Hfn.
Qed.

Lemma find_pdfs_in walk p :
  In p (find_pdfs walk)
  ↔ ∃ d fns fn, In (d, fns) walk ∧ In fn fns ∧ is_pdf_name fn = true
                ∧ p = path_join d fn.
Proof.
  unfold find_pdfs. split.
  - intros H. apply (Permutation_in _ (sorted_perm _)) in H.
    apply in_flat_map in H as ([d fns] & Hw & H). cbn [fst snd] in H.
    apply in_map_iff in H as (fn & <- & H). apply filter_In in H as [H1 H2].
    exists d, fns, fn. auto.
  - intros (d & fns & fn & Hw & Hfn & Hpdf & ->).
    apply (Permutation_in _ (Permutation_sym (sorted_perm _))).
    apply in_flat_map. exists (d, fns). split; [exact Hw|]. cbn [fst snd].
    apply in_map, filter_In. auto.
Qed.

(** X28. [find_pdfs] lists the files in the order of Python on their
    paths: a path is listed exactly when it is the join of a directory of the
    walk with one of its file names ending in ".pdf", in any case of these
    letters, and one path is listed for each such name.  The listed path ends
    in ".pdf" in the same way, and the record of the file has the file name
    of the directory as its [file_name]. *)
Theorem X28_find_pdfs_sorted_pdf_paths (walk : list (str * list str)) :
  StronglySorted str_le (find_pdfs walk)
  ∧ (∀ p, In p (find_pdfs walk)
          ↔ ∃ d fns fn, In (d, fns) walk ∧ In fn fns ∧ is_pdf_name fn = true
                        ∧ p = path_join d fn)
  ∧ length (find_pdfs walk)
    = length (flat_map (fun w => List.filter is_pdf_name (snd w)) walk)
  ∧ (∀ p, In p (find_pdfs walk) → is_pdf_name p = true)
  ∧ (∀ d fn cy io, ¬ In 47%N fn →
       file_name (parse_pdf cy (path_join d fn) io) = fn).
Proof.
  split; [apply sorted_sorted|]. split; [apply find_pdfs_in|]. split; [|split].
  - unfold find_pdfs. rewrite (Permutation_length (sorted_perm _)).
    induction walk as [|[d fns] walk IH]; [reflexivity|].
    cbn [flat_map fst snd]. rewrite !length_app, length_map, IH. reflexivity.
  - intros p Hp. apply find_pdfs_in in Hp as (d & fns & fn & _ & _ & Hpdf & ->).
    destruct (path_join_suffix d fn) as [x ->].
    unfold is_pdf_name, lower in *. rewrite map_app. apply endswith_app, Hpdf.
  - intros d fn cy io Hfn.
    rewrite (proj2 (parse_pdf_paths cy (path_join d fn) io)).
    apply basename_path_join, Hfn.
Qed.

Lemma X28_find_pdfs_sorted_pdf_paths_witness :
  is_pdf_name (py "/library/b.PDF") = true
  ∧ file_name (parse_pdf 2026 (path_join (py "/library") (py "b.PDF")) io_timeout)
    = py "b.PDF".
Proof.
  split.
  - apply (proj1 (proj2 (proj2 (proj2
             (X28_find_pdfs_sorted_pdf_paths walk_library))))).
    vm_compute. tauto.
  - apply (proj2 (proj2 (proj2 (proj2
             (X28_find_pdfs_sorted_pdf_paths walk_library))))).
    vm_compute. intuition discriminate.
Defined.

Lemma omap_length {A B} (f : A → option B) (l : list A) :
  (length (omap f l) ≤ length l)%nat.
Proof.
  induction l as [|a l IH]; [reflexivity|].
  cbn [omap list_omap]. destruct (f a); cbn [length]; lia.
Qed.

(** X29. [load_input_paths] reads a list of paths and a dict with the list
    under "paths" alike.  It raises its ValueError exactly when the data is
    neither; an exception of the reader is passed on.  From the list it keeps,
    in their order, the strings that are not blank, without the whitespace
    around them and with the user directory expanded; every other entry is
    passed over. *)
Theorem X29_load_input_paths (expanduser : str → str) (data : json) :
  (∀ l d, dict_get d (py "paths") = Some (JList l) →
     load_input_paths expanduser (inr (JDict d))
     = load_input_paths expanduser (inr (JList l)))
  ∧ (∀ l, load_input_paths expanduser (inr (JList l))
          = inr (map expanduser (omap kept_path l)))
  ∧ (∀ l, Forall (fun s => s ≠ [] ∧ strip s = s) (omap kept_path l)
          ∧ (length (omap kept_path l) ≤ length l)%nat)
  ∧ (load_input_paths expanduser (inr data) = inl value_error
     ↔ paths_of data = None)
  ∧ (∀ e, load_input_paths expanduser (inl e) = inl e).
Proof.
  assert (∀ l, omap (fun p => match p with
                              | JStr s => if nonempty (strip s)
                                          then Some (expanduser (strip s)) else None
                              | _ => None
                              end) l
               = map expanduser (omap kept_path l)) as Hmap.
  { induction l as [|p l IH]; [reflexivity|].
    cbn [omap list_omap] in *. unfold kept_path at 1.
    destruct p as [| | |s| |]; try exact IH.
    destruct (nonempty (strip s)); [|exact IH].
    cbn [map]. rewrite IH. reflexivity. }
  split; [|split; [|split; [|split]]].
  - intros l d H. unfold load_input_paths, paths_of. rewrite H. reflexivity.
  - intros l. unfold load_input_paths, paths_of. rewrite Hmap. reflexivity.
  - intros l. split; [|apply omap_length].
    apply List.Forall_forall. intros s Hs.
    apply list_elem_of_In, list_elem_of_omap in Hs as (p & _ & Hp).
    unfold kept_path in Hp. destruct p as [| | |s0| |]; try discriminate.
    destruct (nonempty (strip s0)) eqn:E; [|discriminate].
    injection Hp as <-. split; [|apply strip_by_idem].
    destruct (strip s0); [discriminate|discriminate].
  - unfold load_input_paths. destruct (paths_of data).
    + split; discriminate.
    + split; reflexivity.
  - reflexivity.
Qed.

Lemma X29_load_input_paths_witness :
  load_input_paths (fun p => p)
    (inr (JDict [(py "name", JStr (py "library"));
                 (py "paths", JList [JStr (py " /library "); JNum 3; JStr (py " ")])]))
  = load_input_paths (fun p => p)
      (inr (JList [JStr (py " /library "); JNum 3; JStr (py " ")])).
Proof.
  apply (proj1 (X29_load_input_paths (fun p => p) JNull)
           [JStr (py " /library "); JNum 3; JStr (py " ")]).
  vm_compute. reflexivity.
Defined.

End InputFacts.

(** ** The score of a title candidate *)

Section TitleScoreFacts.
Import ParsePdfs.
Local Open Scope Z_scope.

(** X30. [_title_score] ranks the candidates in four tiers that do not
    overlap: a blank text, below a noise line, below a text of fewer than
    four words, below every other text, whose score lies between -620 and
    645 whatever penalties and bonuses apply. *)
Theorem X30_title_score_tiers (s : str) :
  (_norm_spaces s = [] → _title_score s = - 10 ^ 9)
  ∧ (_norm_spaces s ≠ [] → _looks_like_noise_line s = true →
     _title_score s = - 10 ^ 6)
  ∧ (_norm_spaces s ≠ [] → _looks_like_noise_line s = false →
     (length (split_ws s) < 4)%nat → _title_score s = -1000)
  ∧ (_norm_spaces s ≠ [] → _looks_like_noise_line s = false →
     (4 ≤ length (split_ws s))%nat → -620 ≤ _title_score s ≤ 645)
  ∧ - 10 ^ 9 ≤ _title_score s ≤ 645.
Proof.
  unfold _title_score. cbv zeta.
  rewrite noise_line_normalised, split_ws_norm_spaces.
  change (10 ^ 9) with 1000000000. change (10 ^ 6) with 1000000.
  destruct (_norm_spaces s) as [|c r] eqn:E; cbn [nonempty negb].
  { repeat split; try congruence; lia. }
  set (t := c :: r).
  destruct (_looks_like_noise_line s).
  { repeat split; try congruence; try discriminate; lia. }
  destruct (Nat.ltb_spec (length (split_ws s)) 4) as [Hw|Hw].
  { repeat split; try congruence; try discriminate; lia. }
  assert (-620 ≤
    (let score := 0 + Z.of_nat (Nat.min (length t) 200)
                  + 20 * Z.of_nat (Nat.min (length (split_ws s)) 20) in
     let score := if nonempty (List.filter is_letter t)
                     && str_eqb (upper (List.filter is_letter t)) (List.filter is_letter t)
                  then score - 200 else score in
     let score := if contains (lower t) SERIES_HEADER then score - 500 else score in
     let score := if contains t (py ":") then score + 30 else score in
     if contains t (py "-") then score + 15 else score) ≤ 645) as H.
  { cbv zeta.
    destruct (nonempty (List.filter is_letter t)
              && str_eqb (upper (List.filter is_letter t)) (List.filter is_letter t));
      destruct (contains (lower t) SERIES_HEADER);
      destruct (contains t (py ":")); destruct (contains t (py "-")); lia. }
  cbv zeta in H.
  repeat split; try congruence; try discriminate; try lia.
Qed.

Lemma X30_title_score_tiers_witness :
  _title_score (py "   ") = - 10 ^ 9
  ∧ _title_score (py "jane.roe@example.org") = - 10 ^ 6
  ∧ _title_score (py "Heated cylinder") = -1000
  ∧ -620 ≤ _title_score (py "Flow past a heated cylinder") ≤ 645.
Proof.
  split; [|split; [|split]].
  - apply (proj1 (X30_title_score_tiers (py "   "))). reflexivity.
  - apply (proj1 (proj2 (X30_title_score_tiers (py "jane.roe@example.org"))));
      vm_compute; [discriminate|reflexivity].
  - apply (proj1 (proj2 (proj2 (X30_title_score_tiers (py "Heated cylinder")))));
      vm_compute; [discriminate|reflexivity|lia].
  - apply (proj1 (proj2 (proj2 (proj2
             (X30_title_score_tiers (py "Flow past a heated cylinder"))))));
      vm_compute; [discriminate|reflexivity|lia].
Defined.

End TitleScoreFacts.
